(** * Chat-Boot: a RAG chat backend

    Shallow embedding of the decision logic of the Python backend
    ([backend/utils/text_processing.py], [backend/models/chat_models.py],
    [backend/config.py], [backend/services/document_service.py],
    [backend/services/rag_service.py], [backend/app.py]), the properties
    its specification states about it, and further properties of the code.

    Conventions of the embedding.
    - A Python [str] is a [string] read as a sequence of code points below
      256 (Latin-1); character classes follow Python's tables on that range.
    - Python integers are [Z]; [len] returns a [Z].
    - The external libraries (the LLM client, the embedding model, the
      Chroma store, the file system) are an interface, [External], over an
      abstract world that is threaded through every call.
    - A Python exception of class [Exception] is a value [exn]; a call
      either returns or raises ([outcome]). *)

From Stdlib Require Import String Ascii List ZArith QArith Qround Lia Lqa Bool.
From Stdlib Require Import DecimalString.
Import ListNotations.

Set Implicit Arguments.
Local Open Scope string_scope.
Local Open Scope Z_scope.

(* ================================================================== *)
(** * Python strings *)
(* ================================================================== *)

Module Py.

Definition code (c : ascii) : N := N_of_ascii c.

Definition in_range (lo hi : N) (c : ascii) : bool :=
  (N.leb lo (code c) && N.leb (code c) hi)%bool.

(** [str.isspace] on one character (also the class [\s] of [re]). *)
Definition isspace (c : ascii) : bool :=
  (in_range 9 13 c || in_range 28 32 c
   || N.eqb (code c) 133 || N.eqb (code c) 160)%bool.

Definition is_ascii_lower (c : ascii) : bool := in_range 97 122 c.
Definition is_ascii_upper (c : ascii) : bool := in_range 65 90 c.
Definition is_ascii_digit (c : ascii) : bool := in_range 48 57 c.

(** [str.isalnum] on one character, for code points below 256. *)
Definition isalnum (c : ascii) : bool :=
  (is_ascii_lower c || is_ascii_upper c || is_ascii_digit c
   || N.eqb (code c) 170 || N.eqb (code c) 178 || N.eqb (code c) 179
   || N.eqb (code c) 181 || N.eqb (code c) 185 || N.eqb (code c) 186
   || in_range 188 190 c || in_range 192 214 c || in_range 216 246 c
   || in_range 248 255 c)%bool.

(** Case folding as [re.IGNORECASE] needs it against ASCII literals. *)
Definition lower (c : ascii) : ascii :=
  if is_ascii_upper c then ascii_of_N (code c + 32) else c.

Definition len (s : string) : Z := Z.of_nat (String.length s).

(** Truth value of a string: [if s:] *)
Definition truthy (s : string) : bool :=
  match s with EmptyString => false | _ => true end.

Fixpoint lstrip (s : string) : string :=
  match s with
  | EmptyString => EmptyString
  | String c s' => if isspace c then lstrip s' else s
  end.

Fixpoint rstrip (s : string) : string :=
  match s with
  | EmptyString => EmptyString
  | String c s' =>
      match rstrip s' with
      | EmptyString => if isspace c then EmptyString else String c EmptyString
      | t => String c t
      end
  end.

(** [s.strip()] *)
Definition strip (s : string) : string := rstrip (lstrip s).

(** An index of a slice, brought into [0 .. n] the way Python does. *)
Definition clamp_index (n i : Z) : Z :=
  if i <? 0 then Z.max 0 (i + n) else Z.min i n.

(** [s[start:stop]] *)
Definition slice (s : string) (start stop : Z) : string :=
  let n := len s in
  let a := clamp_index n start in
  let b := clamp_index n stop in
  substring (Z.to_nat a) (Z.to_nat (b - a)) s.

(** [s.replace(old, new)] for a non-empty [old]: occurrences are taken
    left to right and do not overlap. [skip] counts the characters of a
    match that are still to be dropped. *)
Fixpoint replace_from (old new : string) (skip : nat) (s : string) : string :=
  match s with
  | EmptyString => EmptyString
  | String c s' =>
      match skip with
      | S k => replace_from old new k s'
      | O =>
          if prefix old s
          then new ++ replace_from old new (String.length old - 1) s'
          else String c (replace_from old new 0 s')
      end
  end.

Definition replace (old new s : string) : string := replace_from old new 0 s.

Fixpoint map_chars (f : ascii -> ascii) (s : string) : string :=
  match s with
  | EmptyString => EmptyString
  | String c s' => String (f c) (map_chars f s')
  end.

Fixpoint all_chars (p : ascii -> bool) (s : string) : bool :=
  match s with
  | EmptyString => true
  | String c s' => (p c && all_chars p s')%bool
  end.

(** [sep.join(parts)] *)
Fixpoint join (sep : string) (parts : list string) : string :=
  match parts with
  | [] => ""
  | [p] => p
  | p :: rest => p ++ sep ++ join sep rest
  end.

(** [str(n)] for an integer. *)
Definition str_of_Z (z : Z) : string :=
  NilZero.string_of_int (Z.to_int z).

(** [n * c]: a string of [n] copies of a character. *)
Fixpoint repeat_char (c : ascii) (n : nat) : string :=
  match n with
  | O => EmptyString
  | S k => String c (repeat_char c k)
  end.

(** Substring test, [needle in s]. *)
Fixpoint contains (needle s : string) : bool :=
  (prefix needle s ||
   match s with
   | EmptyString => false
   | String _ s' => contains needle s'
   end)%bool.

End Py.

(* ================================================================== *)
(** * The fragment of [re] the backend uses *)
(* ================================================================== *)

Module Re.

(** One-character classes. *)
Inductive cls : Type :=
| Lit (c : ascii)     (* a literal character *)
| Dot                 (* [.], anything but a newline *)
| Word                (* [\w] *)
| Space.              (* [\s] *)

Inductive regex : Type :=
| Void
| Eps
| Chr (k : cls)
| Cat (r1 r2 : regex)
| Alt (r1 r2 : regex)
| Star (r : regex).

(** [r+] *)
Definition plus (r : regex) : regex := Cat r (Star r).

(** A literal word. *)
Fixpoint lit (s : string) : regex :=
  match s with
  | EmptyString => Eps
  | String c s' => Cat (Chr (Lit c)) (lit s')
  end.

(** Whether a class accepts a character; [ic] is [re.IGNORECASE]. *)
Definition cls_match (ic : bool) (k : cls) (c : ascii) : bool :=
  match k with
  | Lit a => if ic then Ascii.eqb (Py.lower a) (Py.lower c) else Ascii.eqb a c
  | Dot => negb (N.eqb (Py.code c) 10)
  | Word => (Py.isalnum c || N.eqb (Py.code c) 95)%bool
  | Space => Py.isspace c
  end.

(** The language of a regular expression. *)
Inductive matches (ic : bool) : regex -> string -> Prop :=
| MEps : matches ic Eps ""
| MChr k c : cls_match ic k c = true -> matches ic (Chr k) (String c "")
| MCat r1 r2 s1 s2 :
    matches ic r1 s1 -> matches ic r2 s2 -> matches ic (Cat r1 r2) (s1 ++ s2)
| MAltL r1 r2 s : matches ic r1 s -> matches ic (Alt r1 r2) s
| MAltR r1 r2 s : matches ic r2 s -> matches ic (Alt r1 r2) s
| MStar0 r : matches ic (Star r) ""
| MStarS r s1 s2 :
    matches ic r s1 -> matches ic (Star r) s2 -> matches ic (Star r) (s1 ++ s2).

(** [re.search(r, s)] finds a match somewhere in [s]. *)
Definition occurs (ic : bool) (r : regex) (s : string) : Prop :=
  exists pre mid post, s = pre ++ mid ++ post /\ matches ic r mid.

Fixpoint nullable (r : regex) : bool :=
  match r with
  | Void => false
  | Eps => true
  | Chr _ => false
  | Cat r1 r2 => (nullable r1 && nullable r2)%bool
  | Alt r1 r2 => (nullable r1 || nullable r2)%bool
  | Star _ => true
  end.

Definition is_void (r : regex) : bool :=
  match r with Void => true | _ => false end.

(** Constructors that keep derivatives small. *)
Definition cat (r1 r2 : regex) : regex :=
  match r1, r2 with
  | Void, _ => Void
  | _, Void => Void
  | Eps, _ => r2
  | _, _ => Cat r1 r2
  end.

Definition alt (r1 r2 : regex) : regex :=
  match r1, r2 with
  | Void, _ => r2
  | _, Void => r1
  | _, _ => Alt r1 r2
  end.

(** Brzozowski derivative. *)
Fixpoint deriv (ic : bool) (c : ascii) (r : regex) : regex :=
  match r with
  | Void => Void
  | Eps => Void
  | Chr k => if cls_match ic k c then Eps else Void
  | Cat r1 r2 =>
      if nullable r1
      then alt (cat (deriv ic c r1) r2) (deriv ic c r2)
      else cat (deriv ic c r1) r2
  | Alt r1 r2 => alt (deriv ic c r1) (deriv ic c r2)
  | Star r1 => cat (deriv ic c r1) (Star r1)
  end.

(** Some prefix of [s] is in the language of [r]. *)
Fixpoint match_prefix (ic : bool) (r : regex) (s : string) : bool :=
  if nullable r then true
  else if is_void r then false
  else match s with
       | EmptyString => false
       | String c s' => match_prefix ic (deriv ic c r) s'
       end.

(** [re.search(r, s, flags) is not None] *)
Fixpoint search (ic : bool) (r : regex) (s : string) : bool :=
  (match_prefix ic r s ||
   match s with
   | EmptyString => false
   | String _ s' => search ic r s'
   end)%bool.

End Re.

(* ================================================================== *)
(** * utils/text_processing.py *)
(* ================================================================== *)

(** What a Python caller may pass where a [str] is expected. *)
Inductive pyarg : Type :=
| PStr (s : string)
| PNotStr.

Module TextProcessing.

Import Re.

(** [re.sub(k+, new, s)] for a class [k] of characters: every maximal run
    of characters of the class is replaced by [new]. [in_run] tells that
    the character before was of the class. *)
Fixpoint sub_runs (k : ascii -> bool) (new : string) (in_run : bool) (s : string)
  : string :=
  match s with
  | EmptyString => EmptyString
  | String c s' =>
      if k c then
        if in_run then sub_runs k new true s'
        else new ++ sub_runs k new true s'
      else String c (sub_runs k new false s')
  end.

(** [re.sub(k, '', s)] for a class [k] of characters. *)
Fixpoint remove_chars (k : ascii -> bool) (s : string) : string :=
  match s with
  | EmptyString => EmptyString
  | String c s' => if k c then remove_chars k s' else String c (remove_chars k s')
  end.

Definition is_newline (c : ascii) : bool := N.eqb (Py.code c) 10.

(** The class [[\x00-\x08\x0b\x0c\x0e-\x1f\x7f-\x9f]]. *)
Definition control_char (c : ascii) : bool :=
  (Py.in_range 0 8 c || N.eqb (Py.code c) 11 || N.eqb (Py.code c) 12
   || Py.in_range 14 31 c || Py.in_range 127 159 c)%bool.

Definition hyphen_newline : string := String "-"%char (String (ascii_of_nat 10) "").
Definition newline : string := String (ascii_of_nat 10) "".

(** [normalize_text(text)] *)
Definition normalize_text (text : pyarg) : string :=
  match text with
  | PNotStr => ""
  | PStr text =>
      let text := Py.strip (sub_runs Py.isspace " " false text) in
      let text := Py.replace hyphen_newline "" text in
      let text := sub_runs is_newline newline false text in
      let text := remove_chars control_char text in
      text
  end.

(** The four patterns of [suspicious_patterns]. *)
Definition pat_script : regex :=
  Cat (lit "<script")
    (Cat (Star (Chr Dot))
       (Cat (lit ">") (Cat (Star (Chr Dot)) (lit "</script>")))).
Definition pat_javascript : regex := lit "javascript:".
Definition pat_handler : regex :=
  Cat (lit "on") (Cat (plus (Chr Word)) (Cat (Star (Chr Space)) (lit "="))).
Definition pat_data_html : regex := lit "data:text/html".

Definition suspicious_patterns : list regex :=
  [pat_script; pat_javascript; pat_handler; pat_data_html].

Definition default_max_length : Z := 5000.

(** [validate_input(text, max_length)] *)
Definition validate_input_max (text : pyarg) (max_length : Z) : bool * string :=
  match text with
  | PNotStr => (false, "Input must be a string")
  | PStr text =>
      let text := Py.strip text in
      if negb (Py.truthy text) then (false, "Input cannot be empty")
      else if Py.len text >? max_length
      then (false, "Input too long (max " ++ Py.str_of_Z max_length ++ " characters)")
      else if existsb (fun p => search true p text) suspicious_patterns
      then (false, "Input contains suspicious content")
      else (true, "")
  end.

(** [validate_input(text)] with the default [max_length=5000]. *)
Definition validate_input (text : pyarg) : bool * string :=
  validate_input_max text default_max_length.

(** The class [[^a-zA-Z0-9._-]] of [sanitize_filename], complemented. *)
Definition filename_char (c : ascii) : bool :=
  (Py.is_ascii_lower c || Py.is_ascii_upper c || Py.is_ascii_digit c
   || N.eqb (Py.code c) 46 || N.eqb (Py.code c) 95 || N.eqb (Py.code c) 45)%bool.

(** [re.sub(r'[^a-zA-Z0-9._-]', '_', s)] *)
Definition sub_unsafe (s : string) : string :=
  Py.map_chars (fun c => if filename_char c then c else "_"%char) s.

(** [sanitize_filename(filename)] *)
Definition sanitize_filename (filename : pyarg) : string :=
  match filename with
  | PNotStr => "unknown_file"
  | PStr filename =>
      let filename :=
        Py.replace "\" "" (Py.replace "/" "" (Py.replace ".." "" filename)) in
      let filename := sub_unsafe filename in
      if negb (Py.truthy filename) then "unknown_file" else filename
  end.

(** One turn of the [while] loop of [chunk_text]: the loop either goes on
    with a new [start] or is left by [break]. *)
Inductive loop_step : Type :=
| Continue (start : Z) (chunks : list string)
| Break (chunks : list string).

Definition chunk_body (text : string) (chunk_size overlap : Z)
           (start : Z) (chunks : list string) : loop_step :=
  let end_ := Z.min (start + chunk_size) (Py.len text) in
  let chunk := Py.slice text start end_ in
  let chunks := if Py.truthy (Py.strip chunk) then (chunks ++ [chunk])%list else chunks in
  let start := if overlap >? 0 then end_ - overlap else end_ in
  if start >=? end_ then Break chunks else Continue start chunks.

(** The loop, run for at most [fuel] turns; [None] when the loop is still
    running after them. *)
Fixpoint chunk_loop (fuel : nat) (text : string) (chunk_size overlap : Z)
         (start : Z) (chunks : list string) : option (list string) :=
  if start <? Py.len text then
    match fuel with
    | O => None
    | S fuel' =>
        match chunk_body text chunk_size overlap start chunks with
        | Break chunks' => Some chunks'
        | Continue start' chunks' =>
            chunk_loop fuel' text chunk_size overlap start' chunks'
        end
    end
  else Some chunks.

(** [chunk_text(text, chunk_size, overlap)] *)
Definition chunk_text (fuel : nat) (text : string) (chunk_size overlap : Z)
  : option (list string) :=
  if (negb (Py.truthy text) || (chunk_size <=? 0))%bool then Some []
  else chunk_loop fuel text chunk_size overlap 0 [].

End TextProcessing.

(* ================================================================== *)
(** * Exceptions, events and the monad of the services *)
(* ================================================================== *)

(** The classes of exception the code tells apart. Every one of them is a
    subclass of Python's [Exception]. *)
Inductive exn_class : Type :=
| PermissionError
| ValueError
| TypeError
| AttributeError
| OtherException.

(** An exception with its class and its [str(e)]. *)
Record exn : Type := Exn { exn_cls : exn_class; exn_str : string }.

Inductive outcome (A : Type) : Type :=
| Ret (a : A)
| Raise (e : exn).
Arguments Ret {A} a.
Arguments Raise {A} e.

Inductive level : Type := INFO | WARNING | ERROR.

Inductive component : Type :=
| Embedder | IndexStore | Generator | FileSystem | Corpus.

(** What a run leaves behind, in program order: the [logger] lines, the
    calls into the external components, [time.sleep] and [gc.collect]. *)
Inductive event : Type :=
| Log (l : level) (msg : string)
| Call (c : component) (operation : string)
| Sleep (seconds : Q)
| GcCollect.

(** The calls that reach the Embedder, the Index Store or the Generator. *)
Definition is_component_call (e : event) : bool :=
  match e with
  | Call Embedder _ | Call IndexStore _ | Call Generator _ => true
  | _ => false
  end.

Definition component_calls (t : list event) : list event :=
  filter is_component_call t.

Record result (W S A : Type) : Type :=
  Result { res : outcome A; world : W; state : S; trace : list event }.
Arguments Result {W S A} res world state trace.

Section Monad.

Variable W : Type.

(** A computation over the external world [W] and the program state [S]. *)
Definition M (S A : Type) : Type := W -> S -> result W S A.

Definition ret {S A} (a : A) : M S A := fun w s => Result (Ret a) w s [].

Definition raise {S A} (e : exn) : M S A := fun w s => Result (Raise e) w s [].

Definition bind {S A B} (m : M S A) (k : A -> M S B) : M S B :=
  fun w s =>
    match m w s with
    | Result (Ret a) w1 s1 t1 =>
        match k a w1 s1 with
        | Result o w2 s2 t2 => Result o w2 s2 (t1 ++ t2)
        end
    | Result (Raise e) w1 s1 t1 => Result (Raise e) w1 s1 t1
    end.

(** [try: m  except Exception as e: h e] *)
Definition try_except {S A} (m : M S A) (h : exn -> M S A) : M S A :=
  fun w s =>
    match m w s with
    | Result (Ret a) w1 s1 t1 => Result (Ret a) w1 s1 t1
    | Result (Raise e) w1 s1 t1 =>
        match h e w1 s1 with
        | Result o w2 s2 t2 => Result o w2 s2 (t1 ++ t2)
        end
    end.

Definition get {S} : M S S := fun w s => Result (Ret s) w s [].
Definition put {S} (s : S) : M S unit := fun w _ => Result (Ret tt) w s [].
Definition modify {S} (f : S -> S) : M S unit := fun w s => Result (Ret tt) w (f s) [].

Definition emit {S} (e : event) : M S unit := fun w s => Result (Ret tt) w s [e].
Definition log {S} (l : level) (msg : string) : M S unit := emit (Log l msg).

(** A call into an external component. *)
Definition call {S A} (c : component) (op : string) (f : W -> outcome A * W) : M S A :=
  fun w s => Result (fst (f w)) (snd (f w)) s [Call c op].

(** A query of the world that cannot fail and changes nothing. *)
Definition ask {S A} (f : W -> A) : M S A := fun w s => Result (Ret (f w)) w s [].

(** An effect on the world that cannot fail. *)
Definition effect {S} (e : event) (f : W -> W) : M S unit :=
  fun w s => Result (Ret tt) (f w) s [e].

(** Run a computation of a part [T] of the state inside the whole [S]. *)
Definition zoom {S T A} (proj : S -> option T) (inj : T -> S -> S)
           (missing : exn) (m : M T A) : M S A :=
  fun w s =>
    match proj s with
    | None => Result (Raise missing) w s []
    | Some t =>
        match m w t with
        | Result o w1 t1 tr => Result o w1 (inj t1 s) tr
        end
    end.

End Monad.

Arguments ret {W S A} a.
Arguments raise {W S A} e.
Arguments bind {W S A B} m k.
Arguments try_except {W S A} m h.
Arguments get {W S}.
Arguments put {W S} s.
Arguments modify {W S} f.
Arguments emit {W S} e.
Arguments log {W S} l msg.
Arguments call {W S A} c op f.
Arguments ask {W S A} f.
Arguments effect {W S} e f.
Arguments zoom {W S T A} proj inj missing m.

Declare Scope py_scope.
Delimit Scope py_scope with py.
Notation "x <- m ;; k" := (bind m (fun x => k))
  (at level 100, m at next level, right associativity) : py_scope.
Notation "m ;; k" := (bind m (fun _ => k))
  (at level 100, right associativity) : py_scope.

(** [for x in xs: body x], left by the first exception. *)
Fixpoint for_each {W S A} (xs : list A) (body : A -> M W S unit) : M W S unit :=
  match xs with
  | [] => ret tt
  | x :: rest => bind (body x) (fun _ => for_each rest body)
  end.

(* ================================================================== *)
(** * models/chat_models.py *)
(* ================================================================== *)

Inductive ChatMode : Type := RAG | LLM_ONLY | UNAVAILABLE.

(** [mode.value] *)
Definition ChatMode_value (m : ChatMode) : string :=
  match m with
  | RAG => "RAG"
  | LLM_ONLY => "LLM_ONLY"
  | UNAVAILABLE => "UNAVAILABLE"
  end.

(** A langchain [Document]: its text, and the two metadata entries the
    backend reads ([page] already as [str] renders it). *)
Record Document : Type :=
  { page_content : string;
    meta_source_file : option string;
    meta_page : option string }.

Record DocumentSource : Type :=
  { source_file : string; page : string; score : Q }.

Record ChatRequest : Type :=
  { message : string; k_context : option Z }.

Record ChatResponse : Type :=
  { question : string;
    response : string;
    context_provided_to_llm : string;
    sources : list DocumentSource;
    mode : ChatMode;
    error : option string }.

(** The value under ['message'] in the request body. *)
Inductive message_field : Type :=
| MsgAbsent                 (* no such key *)
| MsgStr (s : string)
| MsgNotStr.                (* null, a number, a list, ... *)

(** The value under ['k_context'], with what [int(...)] makes of it. *)
Inductive k_field : Type :=
| KNone                     (* no such key, or null *)
| KInt (z : Z)              (* [int(k_context)] is [z] *)
| KNotInt                   (* [int(k_context)] raises ValueError or TypeError *)
| KOverflow.                (* [int(k_context)] raises OverflowError: an infinite float *)

Record request_json : Type :=
  { json_message : message_field; json_k_context : k_field }.

(** [ChatRequest.from_dict(data)]. The [except] clause around [int(...)]
    turns a ValueError or a TypeError into the ValueError of the last line;
    an OverflowError is not in its list and leaves the function as it is. *)
Definition ChatRequest_from_dict (data : request_json) : outcome ChatRequest :=
  match json_message data with
  | MsgNotStr => Raise (Exn AttributeError "object has no attribute 'strip'")
  | MsgAbsent => Raise (Exn ValueError "Message cannot be empty")
  | MsgStr s =>
      let message := Py.strip s in
      if negb (Py.truthy message) then Raise (Exn ValueError "Message cannot be empty")
      else
        match json_k_context data with
        | KNone => Ret {| message := message; k_context := None |}
        | KNotInt => Raise (Exn ValueError "k_context must be a positive integer")
        | KOverflow =>
            Raise (Exn OtherException "cannot convert float infinity to integer")
        | KInt k =>
            if k <=? 0 then Raise (Exn ValueError "k_context must be a positive integer")
            else Ret {| message := message; k_context := Some k |}
        end
  end.

(* ================================================================== *)
(** * config.py and the external libraries *)
(* ================================================================== *)

(** The class attributes of [Config] that are read from the environment. *)
Record Config : Type :=
  { GROQ_API_KEY : option string;
    PDF_FOLDER : string;
    CHROMA_PERSIST_DIR : string;
    HF_EMBEDDING_MODEL_NAME : string;
    GROQ_MODEL_NAME : string;
    DEFAULT_K_RETRIEVAL : Z;
    CHUNK_SIZE : Z;
    CHUNK_OVERLAP : Z }.

Definition MAX_REBUILD_ATTEMPTS : Z := 3.
Definition RETRY_DELAY : Q := 1 # 2.

(** What [llm.invoke] returns: the [content] attribute when there is one,
    and the [str] of the object. *)
Record Response : Type :=
  { content : option string; response_str : string }.

Inductive file_kind : Type := PDF | CSV.

(** The libraries the backend is built on, over a world they may change.
    Nothing is assumed about them: every call may return or raise. *)
Class External : Type :=
  { World : Type;
    LLM : Type;
    Embeddings : Type;
    VectorDB : Type;
    config : Config;
    (* langchain_groq.ChatGroq *)
    ChatGroq : string -> string -> World -> outcome LLM * World;
    llm_invoke : LLM -> string -> World -> outcome Response * World;
    (* langchain_huggingface.HuggingFaceEmbeddings *)
    HuggingFaceEmbeddings : string -> World -> outcome Embeddings * World;
    embed_query : Embeddings -> string -> World -> outcome (list Q) * World;
    (* langchain_chroma.Chroma *)
    Chroma : string -> option Embeddings -> World -> outcome VectorDB * World;
    collection_count : VectorDB -> World -> outcome Z * World;
    Chroma_from_documents :
      list Document -> option Embeddings -> string -> World -> outcome VectorDB * World;
    similarity_search_with_score :
      VectorDB -> string -> Z -> World -> outcome (list (Document * Q)) * World;
    (* os, shutil, gc, time *)
    os_path_exists : string -> World -> bool;
    os_path_isdir : string -> World -> bool;
    os_makedirs : string -> World -> outcome unit * World;
    os_listdir : string -> World -> outcome (list string) * World;
    os_unlink : string -> World -> outcome unit * World;
    shutil_rmtree : string -> World -> outcome unit * World;
    gc_collect : World -> World;
    time_sleep : Q -> World -> World;
    (* the files of one kind that [os.listdir] finds in the content folder,
       each with the pages its loader returns (the text of a PDF page after
       [normalize_text]) *)
    load_folder :
      file_kind -> string -> World -> outcome (list (string * outcome (list Document))) * World;
    (* RecursiveCharacterTextSplitter(chunk_size, chunk_overlap).split_documents *)
    split_documents : Z -> Z -> list Document -> World -> outcome (list Document) * World }.

Fixpoint endswith_sep (s : string) : bool :=
  match s with
  | EmptyString => false
  | String c EmptyString => Ascii.eqb c "/"
  | String _ t => endswith_sep t
  end.

(** [os.path.join(a, b)] of [posixpath]. *)
Definition os_path_join (a b : string) : string :=
  if String.prefix "/" b then b
  else if (negb (Py.truthy a) || endswith_sep a)%bool then a ++ b
  else a ++ "/" ++ b.

(** [f"{x}"] for an [Optional[str]]. *)
Definition fmt_opt (o : option string) : string :=
  match o with Some s => s | None => "None" end.

Definition nl : string := String (ascii_of_nat 10) "".
Definition dq : string := String (ascii_of_nat 34) "".

(** [float(f"{score:.4f}")]: the score rounded to four decimals, ties going
    to the even digit. Scores are exact rationals here. *)
Definition round_half_even (q : Q) : Z :=
  let f := Qfloor q in
  match Qcompare (q - inject_Z f) (1 # 2) with
  | Lt => f
  | Gt => f + 1
  | Eq => if Z.even f then f else f + 1
  end.

Definition round4 (q : Q) : Q := round_half_even (q * 10000) # 10000.


Local Open Scope py_scope.

(* ================================================================== *)
(** * services/rag_service.py *)
(* ================================================================== *)

Section Services.

Context {X : External}.

Record RAGService : Type :=
  { embedding_model : option Embeddings;
    vector_db : option VectorDB;
    llm : option LLM;
    is_ready : bool }.

(** [RAGService()] *)
Definition RAGService_new : RAGService :=
  {| embedding_model := None; vector_db := None; llm := None; is_ready := false |}.

Definition set_embedding_model (v : option Embeddings) : M World RAGService unit :=
  modify (fun s => {| embedding_model := v; vector_db := vector_db s;
                      llm := llm s; is_ready := is_ready s |}).
Definition set_vector_db (v : option VectorDB) : M World RAGService unit :=
  modify (fun s => {| embedding_model := embedding_model s; vector_db := v;
                      llm := llm s; is_ready := is_ready s |}).
Definition set_llm (v : option LLM) : M World RAGService unit :=
  modify (fun s => {| embedding_model := embedding_model s; vector_db := vector_db s;
                      llm := v; is_ready := is_ready s |}).
Definition set_is_ready (v : bool) : M World RAGService unit :=
  modify (fun s => {| embedding_model := embedding_model s; vector_db := vector_db s;
                      llm := llm s; is_ready := v |}).

Definition some {A} (o : option A) : bool :=
  match o with Some _ => true | None => false end.

Definition initialize_embedding_model : M World RAGService (bool * option string) :=
  try_except
    (log INFO ("Initializing embedding model: " ++ HF_EMBEDDING_MODEL_NAME config);;
     m <- call Embedder "HuggingFaceEmbeddings"
            (HuggingFaceEmbeddings (HF_EMBEDDING_MODEL_NAME config));;
     set_embedding_model (Some m);;
     _ <- call Embedder "embed_query" (embed_query m "Test embedding");;
     log INFO "Embedding model initialized successfully";;
     ret (true, None))
    (fun e =>
       log ERROR ("Error initializing embedding model: " ++ exn_str e);;
       set_embedding_model None;;
       ret (false, Some ("Embedding model initialization failed: " ++ exn_str e))).

Definition initialize_llm : M World RAGService (bool * option string) :=
  try_except
    (match GROQ_API_KEY config with
     | None | Some EmptyString => ret (false, Some "GROQ_API_KEY not configured")
     | Some key =>
         log INFO ("Initializing LLM: " ++ GROQ_MODEL_NAME config);;
         h <- call Generator "ChatGroq" (ChatGroq (GROQ_MODEL_NAME config) key);;
         set_llm (Some h);;
         _ <- call Generator "invoke" (llm_invoke h "Hello");;
         log INFO "LLM initialized successfully";;
         ret (true, None)
     end)
    (fun e =>
       log ERROR ("Error initializing LLM: " ++ exn_str e);;
       set_llm None;;
       ret (false, Some ("LLM initialization failed: " ++ exn_str e))).

Definition _check_vector_store_rebuild (chunks : list Document) : M World RAGService bool :=
  try_except
    (exists_ <- ask (os_path_exists (CHROMA_PERSIST_DIR config));;
     if negb exists_ then ret true
     else
       entries <- call FileSystem "scandir" (os_listdir (CHROMA_PERSIST_DIR config));;
       match entries with
       | [] => ret true
       | _ :: _ =>
           self <- get;;
           temp_db <- call IndexStore "Chroma"
                        (Chroma (CHROMA_PERSIST_DIR config) (embedding_model self));;
           existing_count <- call IndexStore "count" (collection_count temp_db);;
           let current_count := Z.of_nat (length chunks) in
           if negb (existing_count =? current_count) then
             log INFO ("Vector store count mismatch: " ++ Py.str_of_Z existing_count
                         ++ " vs " ++ Py.str_of_Z current_count);;
             ret true
           else
             set_vector_db (Some temp_db);;
             ret false
       end)
    (fun e =>
       log WARNING ("Error checking vector store: " ++ exn_str e);;
       ret true).

(** The body of the [try] in [_clean_vector_store_directory]: one pass
    over the entries of the directory. *)
Definition clean_once {S} : M World S unit :=
  items <- call FileSystem "listdir" (os_listdir (CHROMA_PERSIST_DIR config));;
  for_each items
    (fun item =>
       let item_path := os_path_join (CHROMA_PERSIST_DIR config) item in
       is_dir <- ask (os_path_isdir item_path);;
       if is_dir then call FileSystem "rmtree" (shutil_rmtree item_path)
       else call FileSystem "unlink" (os_unlink item_path)).

(** The [for attempt in range(...)] loop, with [remaining] turns to go. *)
Fixpoint clean_attempts {S} (remaining : nat) (attempt : Z) : M World S unit :=
  match remaining with
  | O => ret tt
  | S n =>
      leave <-
        try_except
          (clean_once;; ret true)
          (fun e =>
             match exn_cls e with
             | PermissionError =>
                 log WARNING ("Attempt " ++ Py.str_of_Z (attempt + 1)
                                ++ " to clean directory failed: " ++ exn_str e);;
                 (if attempt <? MAX_REBUILD_ATTEMPTS - 1
                  then effect (Sleep RETRY_DELAY) (time_sleep RETRY_DELAY)
                  else log ERROR "Failed to clean vector store directory");;
                 ret false
             | _ =>
                 log ERROR ("Unexpected error cleaning directory: " ++ exn_str e);;
                 ret true
             end);;
      if (leave : bool) then ret tt else clean_attempts n (attempt + 1)
  end.

Definition _clean_vector_store_directory {S} : M World S unit :=
  exists_ <- ask (os_path_exists (CHROMA_PERSIST_DIR config));;
  if negb exists_ then ret tt
  else clean_attempts (Z.to_nat MAX_REBUILD_ATTEMPTS) 0.

Definition _rebuild_vector_store (chunks : list Document) : M World RAGService bool :=
  try_except
    (log INFO "Rebuilding vector store";;
     self <- get;;
     (if some (vector_db self)
      then set_vector_db None;; effect GcCollect gc_collect
      else ret tt);;
     _clean_vector_store_directory;;
     self <- get;;
     db <- call IndexStore "from_documents"
             (Chroma_from_documents chunks (embedding_model self) (CHROMA_PERSIST_DIR config));;
     set_vector_db (Some db);;
     log INFO ("Vector store rebuilt with " ++ Py.str_of_Z (Z.of_nat (length chunks))
                 ++ " chunks");;
     ret true)
    (fun e =>
       log ERROR ("Error rebuilding vector store: " ++ exn_str e);;
       ret false).

Definition initialize_vector_store (chunks : list Document)
  : M World RAGService (bool * option string) :=
  try_except
    (self <- get;;
     if negb (some (embedding_model self)) then ret (false, Some "Embedding model not initialized")
     else
       match chunks with
       | [] => ret (false, Some "No chunks provided for vector store")
       | _ :: _ =>
           log INFO "Initializing vector store";;
           call FileSystem "makedirs" (os_makedirs (CHROMA_PERSIST_DIR config));;
           needs_rebuild <- _check_vector_store_rebuild chunks;;
           if (needs_rebuild : bool) then
             success <- _rebuild_vector_store chunks;;
             if negb success then ret (false, Some "Failed to rebuild vector store")
             else
               log INFO "Vector store initialized successfully";;
               ret (true, None)
           else
             log INFO "Using existing vector store";;
             log INFO "Vector store initialized successfully";;
             ret (true, None)
       end)
    (fun e =>
       log ERROR ("Error initializing vector store: " ++ exn_str e);;
       set_vector_db None;;
       ret (false, Some ("Vector store initialization failed: " ++ exn_str e))).

(** One retrieved document as a [DocumentSource]. *)
Definition to_source (hit : Document * Q) : DocumentSource :=
  {| source_file := match meta_source_file (fst hit) with Some f => f | None => "Unknown" end;
     page := match meta_page (fst hit) with Some p => p | None => "N/A" end;
     score := round4 (snd hit) |}.

Definition search_similar_documents (query : string) (k : option Z)
  : M World RAGService (string * list DocumentSource) :=
  self <- get;;
  match vector_db self with
  | None =>
      log ERROR "Vector database not initialized";;
      ret ("", [])
  | Some db =>
      let k := match k with None => DEFAULT_K_RETRIEVAL config | Some k => k end in
      try_except
        (if negb (fst (TextProcessing.validate_input (PStr query))) then
           log WARNING ("Invalid search query: "
                          ++ snd (TextProcessing.validate_input (PStr query)));;
           ret ("", [])
         else
           log INFO ("Searching for similar documents: query='" ++ Py.slice query 0 50
                       ++ "...', k=" ++ Py.str_of_Z k);;
           similar_docs <- call IndexStore "similarity_search_with_score"
                             (similarity_search_with_score db query k);;
           match similar_docs with
           | [] =>
               log INFO "No similar documents found";;
               ret ("", [])
           | _ :: _ =>
               let contents := map (fun hit => page_content (fst hit)) similar_docs in
               let sources := map to_source similar_docs in
               let concatenated_content := Py.join (nl ++ nl ++ "---" ++ nl ++ nl) contents in
               log INFO ("Found " ++ Py.str_of_Z (Z.of_nat (length similar_docs))
                           ++ " similar documents");;
               ret (concatenated_content, sources)
           end)
        (fun e =>
           log ERROR ("Error searching similar documents: " ++ exn_str e);;
           ret ("", []))
  end.

Definition _create_rag_prompt (query context : string) : string :=
  "You are a helpful assistant with access to specific document context. Follow these guidelines:" ++ nl
  ++ nl
  ++ "1. **PRIMARY PRIORITY**: Use the information from the provided CONTEXT below to answer the question." ++ nl
  ++ "2. **SECONDARY PRIORITY**: If the context doesn't contain sufficient information, you may supplement with your general knowledge, but clearly indicate when you're doing so." ++ nl
  ++ "3. **TRANSPARENCY**: Always specify your sources:" ++ nl
  ++ "   - For context-based info: " ++ dq ++ "According to the provided documents..." ++ dq
  ++ " or " ++ dq ++ "Based on the context..." ++ dq ++ nl
  ++ "   - For general knowledge: " ++ dq ++ "Based on general knowledge..." ++ dq
  ++ " or " ++ dq ++ "Generally speaking..." ++ dq ++ nl
  ++ "4. **ACCURACY**: Be factual and helpful. Don't make up specific details not found in either source." ++ nl
  ++ "5. **COMPLETENESS**: Provide comprehensive answers when possible." ++ nl
  ++ nl
  ++ "CONTEXT FROM DOCUMENTS:" ++ nl
  ++ "--- start of context ---" ++ nl
  ++ context ++ nl
  ++ "--- end of context ---" ++ nl
  ++ nl
  ++ "QUESTION:" ++ nl
  ++ query ++ nl
  ++ nl
  ++ "HELPFUL RESPONSE (prioritizing context, supplementing with general knowledge when needed):".

(** The prompt and the mode [generate_response] settles on before it
    calls the LLM. *)
Definition prompt_and_mode (query context : string) : string * ChatMode :=
  if Py.truthy context then (_create_rag_prompt query context, RAG)
  else (query, LLM_ONLY).

Definition apology : string := "Sorry, an error occurred while generating the response".

Definition generate_response (query context : string)
  : M World RAGService (string * ChatMode) :=
  self <- get;;
  match llm self with
  | None => ret ("LLM not available", UNAVAILABLE)
  | Some h =>
      try_except
        (if negb (fst (TextProcessing.validate_input (PStr query))) then
           ret ("Invalid input: " ++ snd (TextProcessing.validate_input (PStr query)),
                UNAVAILABLE)
         else
           let prompt := fst (prompt_and_mode query context) in
           let mode := snd (prompt_and_mode query context) in
           log INFO ("Generating response with " ++ ChatMode_value mode ++ " mode");;
           response <- call Generator "invoke" (llm_invoke h prompt);;
           let answer := match content response with
                         | Some c => c
                         | None => response_str response
                         end in
           ret (Py.strip answer, mode))
        (fun e =>
           log ERROR ("Error generating response: " ++ exn_str e);;
           ret (apology, UNAVAILABLE))
  end.

Definition is_available (self : RAGService) : bool := some (llm self).

Definition is_rag_ready (self : RAGService) : bool :=
  (some (llm self) && some (vector_db self) && some (embedding_model self))%bool.

(** [RAGService.clear] *)
Definition RAGService_clear : M World RAGService unit :=
  self <- get;;
  (if some (vector_db self) then set_vector_db None else ret tt);;
  self <- get;;
  (if some (embedding_model self) then set_embedding_model None else ret tt);;
  self <- get;;
  (if some (llm self) then set_llm None else ret tt);;
  set_is_ready false;;
  effect GcCollect gc_collect.

End Services.

(* ================================================================== *)
(** * The staleness decision in the words of the specification *)
(* ================================================================== *)

Section StalenessSpec.

Context {X : External}.

(** What can be seen of the persisted index from a world, with the
    embedding model [emb]. *)
Inductive index_state : Type :=
| Missing                          (* there is no persist directory *)
| Empty                            (* the directory has no entry *)
| Unreadable (e : exn)             (* scanning, loading or counting raised *)
| Holds (db : VectorDB) (n : Z).   (* the index loads as [db] and holds [n] documents *)

Definition observe (emb : option Embeddings) (w : World) : index_state :=
  if os_path_exists (CHROMA_PERSIST_DIR config) w then
    match fst (os_listdir (CHROMA_PERSIST_DIR config) w) with
    | Raise e => Unreadable e
    | Ret [] => Empty
    | Ret (_ :: _) =>
        let w1 := snd (os_listdir (CHROMA_PERSIST_DIR config) w) in
        match fst (Chroma (CHROMA_PERSIST_DIR config) emb w1) with
        | Raise e => Unreadable e
        | Ret db =>
            let w2 := snd (Chroma (CHROMA_PERSIST_DIR config) emb w1) in
            match fst (collection_count db w2) with
            | Raise e => Unreadable e
            | Ret n => Holds db n
            end
        end
    end
  else Missing.

(** Specification 4.2: a missing or empty directory is stale, a loaded
    index whose count differs from the number of chunks is stale,
    anything else is fresh. An index that cannot be read is stale too. *)
Definition stale (chunks : list Document) (seen : index_state) : bool :=
  match seen with
  | Missing | Empty | Unreadable _ => true
  | Holds _ n => negb (n =? Z.of_nat (length chunks))
  end.

(** What the backend of the index store is expected to do (specification
    6 and 8): looking at the persisted index changes nothing, creating a
    directory that exists changes nothing, and an index that has been
    built loads again and holds the chunks it was built from. *)
Record IndexStoreContract : Prop :=
  { listdir_reads :
      forall w, snd (os_listdir (CHROMA_PERSIST_DIR config) w) = w;
    load_reads :
      forall emb w, snd (Chroma (CHROMA_PERSIST_DIR config) emb w) = w;
    count_reads :
      forall db w, snd (collection_count db w) = w;
    makedirs_exist_ok :
      forall w,
        os_path_exists (CHROMA_PERSIST_DIR config) w = true ->
        os_makedirs (CHROMA_PERSIST_DIR config) w = (Ret tt, w);
    build_persists :
      forall chunks emb w db w',
        Chroma_from_documents chunks emb (CHROMA_PERSIST_DIR config) w = (Ret db, w') ->
        exists db', observe emb w' = Holds db' (Z.of_nat (length chunks)) }.

End StalenessSpec.

(* ================================================================== *)
(** * services/document_service.py *)
(* ================================================================== *)

Section Documents.

Context {X : External}.

Record DocumentService : Type :=
  { loaded_documents : list Document;
    chunks : list Document;
    loaded_filenames : list string }.

(** [DocumentService()] *)
Definition DocumentService_new : DocumentService :=
  {| loaded_documents := []; chunks := []; loaded_filenames := [] |}.

Definition kind_name (k : file_kind) : string :=
  match k with PDF => "PDF" | CSV => "CSV" end.

Definition with_source (safe_filename : string) (d : Document) : Document :=
  {| page_content := page_content d;
     meta_source_file := Some safe_filename;
     meta_page := meta_page d |}.

(** [self.loaded_documents.extend(pages)] and the bookkeeping of the
    file name that follows it. *)
Definition add_pages (safe_filename : string) (pages : list Document)
  : M World DocumentService unit :=
  modify (fun s =>
            {| loaded_documents := (loaded_documents s ++ pages)%list;
               chunks := chunks s;
               loaded_filenames :=
                 if existsb (String.eqb safe_filename) (loaded_filenames s)
                 then loaded_filenames s
                 else (loaded_filenames s ++ [safe_filename])%list |}).

(** [_load_single_pdf] and [_load_single_csv]; the loader's answer for
    the file comes with it. *)
Definition _load_single (k : file_kind) (file : string * outcome (list Document))
  : M World DocumentService bool :=
  let filename := fst file in
  try_except
    (let safe_filename := TextProcessing.sanitize_filename (PStr filename) in
     let file_path := os_path_join (PDF_FOLDER config) filename in
     exists_ <- ask (os_path_exists file_path);;
     if negb exists_ then
       log WARNING (kind_name k ++ " file not found: " ++ filename);;
       ret false
     else
     log INFO ("Loading " ++ kind_name k ++ ": " ++ filename);;
     pages <- (match snd file with Ret p => ret p | Raise e => raise e end);;
     match pages with
     | [] =>
         log WARNING (match k with
                      | PDF => "No pages extracted from " ++ filename
                      | CSV => "No content loaded from " ++ filename
                      end);;
         ret false
     | _ :: _ =>
         match k with
         | PDF =>
             let valid_pages :=
               map (with_source safe_filename)
                   (filter (fun p => Py.truthy (Py.strip (page_content p))) pages) in
             match valid_pages with
             | [] =>
                 log WARNING ("No valid content found in " ++ filename);;
                 ret false
             | _ :: _ =>
                 add_pages safe_filename valid_pages;;
                 log INFO ("Loaded " ++ Py.str_of_Z (Z.of_nat (length valid_pages))
                             ++ " valid pages from " ++ filename);;
                 ret true
             end
         | CSV =>
             add_pages safe_filename (map (with_source safe_filename) pages);;
             log INFO ("Loaded " ++ Py.str_of_Z (Z.of_nat (length pages))
                         ++ " rows from " ++ filename);;
             ret true
         end
     end)
    (fun e =>
       log ERROR ("Error loading " ++ kind_name k ++ " " ++ filename ++ ": " ++ exn_str e);;
       ret false).

(** [_load_pdf_files] and [_load_csv_files] *)
Definition _load_files (k : file_kind) : M World DocumentService bool :=
  try_except
    (files <- call Corpus "listdir" (load_folder k (PDF_FOLDER config));;
     match files with
     | [] =>
         log INFO ("No " ++ kind_name k ++ " files found");;
         ret true
     | _ :: _ =>
         log INFO ("Found " ++ Py.str_of_Z (Z.of_nat (length files)) ++ " "
                     ++ kind_name k ++ " files to process");;
         for_each files (fun f => _ <- _load_single k f;; ret tt);;
         ret true
     end)
    (fun e =>
       log ERROR ("Error loading " ++ kind_name k ++ " files: " ++ exn_str e);;
       ret false).

Definition load_documents : M World DocumentService (bool * option string) :=
  try_except
    (modify (fun s => {| loaded_documents := []; chunks := chunks s;
                         loaded_filenames := [] |});;
     call FileSystem "makedirs" (os_makedirs (PDF_FOLDER config));;
     _ <- _load_files PDF;;
     _ <- _load_files CSV;;
     self <- get;;
     match loaded_documents self with
     | [] => ret (false, Some "No valid documents found to load")
     | _ :: _ =>
         log INFO ("Successfully loaded "
                     ++ Py.str_of_Z (Z.of_nat (length (loaded_documents self)))
                     ++ " pages from "
                     ++ Py.str_of_Z (Z.of_nat (length (loaded_filenames self)))
                     ++ " files");;
         ret (true, None)
     end)
    (fun e =>
       log ERROR ("Error loading documents: " ++ exn_str e);;
       ret (false, Some ("Document loading failed: " ++ exn_str e))).

Definition create_chunks : M World DocumentService (bool * option string) :=
  try_except
    (self <- get;;
     match loaded_documents self with
     | [] => ret (false, Some "No documents loaded to chunk")
     | _ :: _ =>
         log INFO ("Creating chunks from "
                     ++ Py.str_of_Z (Z.of_nat (length (loaded_documents self)))
                     ++ " documents");;
         cs <- call Corpus "split_documents"
                 (split_documents (CHUNK_SIZE config) (CHUNK_OVERLAP config)
                    (loaded_documents self));;
         modify (fun s => {| loaded_documents := loaded_documents s; chunks := cs;
                             loaded_filenames := loaded_filenames s |});;
         match cs with
         | [] => ret (false, Some "No chunks created from documents")
         | _ :: _ =>
             log INFO ("Created " ++ Py.str_of_Z (Z.of_nat (length cs)) ++ " chunks");;
             ret (true, None)
         end
     end)
    (fun e =>
       log ERROR ("Error creating chunks: " ++ exn_str e);;
       ret (false, Some ("Chunk creation failed: " ++ exn_str e))).

(** [DocumentService.clear] *)
Definition DocumentService_clear : M World DocumentService unit :=
  put DocumentService_new.

End Documents.

(* ================================================================== *)
(** * app.py *)
(* ================================================================== *)

Record SystemStatus : Type :=
  { rag_pipeline_ready : bool;
    llm_ready : bool;
    db_ready : bool;
    loaded_documents_names : list string;
    status_initialization_error : option string;
    status_message : string }.

(** What a route hands to [jsonify]. *)
Inductive body : Type :=
| ErrorBody (error_text : string) (details : option string)
| ChatBody (r : ChatResponse)
| StatusBody (s : SystemStatus).

Record http_response : Type :=
  { status_code : Z; payload : body }.

(** The part of Flask's [request] a route reads. *)
Record Request : Type :=
  { is_json : bool; get_json : request_json }.

Section App.

Context {X : External}.

(** The module-level globals of [app.py]. *)
Record Globals : Type :=
  { document_service : option DocumentService;
    rag_service : option RAGService;
    system_ready : bool;
    initialization_error : option string }.

(** The globals when the module has just been imported. *)
Definition Globals_initial : Globals :=
  {| document_service := None; rag_service := None;
     system_ready := false; initialization_error := None |}.

Definition set_document_service (v : option DocumentService) : M World Globals unit :=
  modify (fun g => {| document_service := v; rag_service := rag_service g;
                      system_ready := system_ready g;
                      initialization_error := initialization_error g |}).
Definition set_rag_service (v : option RAGService) : M World Globals unit :=
  modify (fun g => {| document_service := document_service g; rag_service := v;
                      system_ready := system_ready g;
                      initialization_error := initialization_error g |}).
Definition set_system_ready (v : bool) : M World Globals unit :=
  modify (fun g => {| document_service := document_service g;
                      rag_service := rag_service g;
                      system_ready := v;
                      initialization_error := initialization_error g |}).
Definition set_initialization_error (v : option string) : M World Globals unit :=
  modify (fun g => {| document_service := document_service g;
                      rag_service := rag_service g;
                      system_ready := system_ready g;
                      initialization_error := v |}).

Definition none_type : exn :=
  Exn AttributeError "'NoneType' object has no attribute".

(** A method call on the global [rag_service]. *)
Definition on_rag {A} (m : M World RAGService A) : M World Globals A :=
  zoom rag_service
       (fun t g => {| document_service := document_service g; rag_service := Some t;
                      system_ready := system_ready g;
                      initialization_error := initialization_error g |})
       none_type m.

(** A method call on the global [document_service]. *)
Definition on_docs {A} (m : M World DocumentService A) : M World Globals A :=
  zoom document_service
       (fun t g => {| document_service := Some t; rag_service := rag_service g;
                      system_ready := system_ready g;
                      initialization_error := initialization_error g |})
       none_type m.

(** [Config.validate()] *)
Definition Config_validate {S} : M World S (option string) :=
  match GROQ_API_KEY config with
  | None | Some EmptyString => ret (Some "GROQ_API_KEY environment variable is required")
  | Some _ =>
      exists_ <- ask (os_path_exists (PDF_FOLDER config));;
      if negb exists_ then
        try_except
          (call FileSystem "makedirs" (os_makedirs (PDF_FOLDER config));; ret None)
          (fun e => ret (Some ("Cannot create PDF folder: " ++ exn_str e)))
      else ret None
  end.

(** The steps of [initialize_system] that follow a successful
    [initialize_llm]. The check mark that opens its last two log lines is
    left out. *)
Definition initialize_after_llm : M World Globals bool :=
  doc <- on_docs load_documents;;
  if negb (fst doc) then
    log WARNING ("Document loading failed: " ++ fmt_opt (snd doc));;
    set_system_ready true;;
    ret true
  else
    chunk <- on_docs create_chunks;;
    if negb (fst chunk) then
      log WARNING ("Chunk creation failed: " ++ fmt_opt (snd chunk));;
      set_system_ready true;;
      ret true
    else
      embed <- on_rag initialize_embedding_model;;
      if negb (fst embed) then
        log WARNING ("Embedding model failed: " ++ fmt_opt (snd embed));;
        set_system_ready true;;
        ret true
      else
        cs <- on_docs (self <- get;; ret (chunks self));;
        vector <- on_rag (initialize_vector_store cs);;
        if negb (fst vector) then
          log WARNING ("Vector store failed: " ++ fmt_opt (snd vector));;
          set_system_ready true;;
          ret true
        else
          set_system_ready true;;
          ready <- on_rag (self <- get;; ret (is_rag_ready self));;
          (if (ready : bool)
           then log INFO "=== System fully initialized (RAG mode) ==="
           else log INFO "=== System initialized (LLM-only mode) ===");;
          ret true.

Definition initialize_system : M World Globals bool :=
  log INFO "=== Starting system initialization ===";;
  config_error <- Config_validate;;
  match config_error with
  | Some err =>
      set_initialization_error (Some err);;
      log ERROR ("Configuration validation failed: " ++ err);;
      ret false
  | None =>
      try_except
        (set_document_service (Some DocumentService_new);;
         set_rag_service (Some RAGService_new);;
         llm_result <- on_rag initialize_llm;;
         if negb (fst llm_result) then
           let msg := "LLM initialization failed: " ++ fmt_opt (snd llm_result) in
           set_initialization_error (Some msg);;
           log ERROR msg;;
           ret false
         else initialize_after_llm)
        (fun e =>
           set_initialization_error (Some ("System initialization failed: " ++ exn_str e));;
           log ERROR ("Critical error during initialization: " ++ exn_str e);;
           ret false)
  end.

Definition respond (code : Z) (b : body) : http_response :=
  {| status_code := code; payload := b |}.

(** [x or default] for an [Optional[str]]. *)
Definition or_default (o : option string) (default : string) : string :=
  match o with
  | Some s => if Py.truthy s then s else default
  | None => default
  end.

Definition api_status : M World Globals http_response :=
  try_except
    (g <- get;;
     match system_ready g, rag_service g with
     | true, Some rag =>
         let loaded_docs :=
           match document_service g with
           | Some d => loaded_filenames d
           | None => []
           end in
         let message :=
           if is_rag_ready rag then "System ready (RAG mode with documents)"
           else if is_available rag then "System ready (LLM-only mode)"
           else "System has issues" in
         ret (respond 200 (StatusBody
                {| rag_pipeline_ready := is_rag_ready rag;
                   llm_ready := is_available rag;
                   db_ready := is_rag_ready rag;
                   loaded_documents_names := loaded_docs;
                   status_initialization_error := initialization_error g;
                   status_message := message |}))
     | _, _ =>
         ret (respond 200 (StatusBody
                {| rag_pipeline_ready := false;
                   llm_ready := false;
                   db_ready := false;
                   loaded_documents_names := [];
                   status_initialization_error :=
                     Some (or_default (initialization_error g) "System not initialized");
                   status_message := "System not ready" |}))
     end)
    (fun e =>
       log ERROR ("Error in status endpoint: " ++ exn_str e);;
       ret (respond 500 (ErrorBody "Status check failed" None))).

(** The three branches of [api_chat] once the request is parsed. *)
Definition chat_answer (chat_request : ChatRequest) (k_context : Z)
  : M World Globals (string * ChatMode * list DocumentSource * string) :=
  ready <- on_rag (self <- get;; ret (is_rag_ready self));;
  if (ready : bool) then
    found <- on_rag (search_similar_documents (message chat_request) (Some k_context));;
    if Py.truthy (fst found) then
      answer <- on_rag (generate_response (message chat_request) (fst found));;
      ret (fst answer, snd answer, snd found,
           "Used " ++ Py.str_of_Z (Z.of_nat (length (snd found))) ++ " document sources")
    else
      answer <- on_rag (generate_response (message chat_request) "");;
      ret (fst answer, snd answer, [],
           "No relevant documents found, using LLM-only mode")
  else
    answer <- on_rag (generate_response (message chat_request) "");;
    ret (fst answer, snd answer, [], "LLM-only mode (no documents available)").

(** [chat_request.k_context or Config.DEFAULT_K_RETRIEVAL] *)
Definition effective_k (chat_request : ChatRequest) : Z :=
  match k_context chat_request with
  | Some k => if k =? 0 then DEFAULT_K_RETRIEVAL config else k
  | None => DEFAULT_K_RETRIEVAL config
  end.

(** The [ChatResponse] built from the answer, its mode, the sources and
    the note on the context. *)
Definition make_chat_response (chat_request : ChatRequest)
           (a : string * ChatMode * list DocumentSource * string) : ChatResponse :=
  {| question := message chat_request;
     response := fst (fst (fst a));
     context_provided_to_llm := snd a;
     sources := snd (fst a);
     mode := snd (fst (fst a));
     error := None |}.

Definition api_chat (request : Request) : M World Globals http_response :=
  try_except
    (if negb (is_json request) then
       ret (respond 400 (ErrorBody "Request must be JSON" None))
     else
       g <- get;;
       if (negb (system_ready g)
           || match rag_service g with
              | None => true
              | Some rag => negb (is_available rag)
              end)%bool
       then
         ret (respond 503
                (ErrorBody "System unavailable"
                   (Some (or_default (initialization_error g) "System not ready"))))
       else
         match ChatRequest_from_dict (get_json request) with
         | Raise e =>
             match exn_cls e with
             | ValueError => ret (respond 400 (ErrorBody (exn_str e) None))
             | _ => raise e
             end
         | Ret chat_request =>
             log INFO ("Processing chat request: '"
                         ++ Py.slice (message chat_request) 0 50 ++ "...'");;
             a <- chat_answer chat_request (effective_k chat_request);;
             let chat_response := make_chat_response chat_request a in
             log INFO ("Response generated in " ++ ChatMode_value (mode chat_response)
                         ++ " mode");;
             ret (respond 200 (ChatBody chat_response))
         end)
    (fun e =>
       log ERROR ("Error in chat endpoint: " ++ exn_str e);;
       ret (respond 500 (ErrorBody "Chat processing failed" (Some "Internal server error")))).

Definition api_reinitialize : M World Globals http_response :=
  try_except
    (log INFO "Reinitializing system...";;
     g <- get;;
     (if some (document_service g) then on_docs DocumentService_clear else ret tt);;
     (if some (rag_service g) then on_rag RAGService_clear else ret tt);;
     set_system_ready false;;
     set_initialization_error None;;
     success <- initialize_system;;
     (if (success : bool)
      then log INFO "Reinitialization completed successfully"
      else log ERROR "Reinitialization failed");;
     api_status)
    (fun e =>
       log ERROR ("Error during reinitialization: " ++ exn_str e);;
       ret (respond 500 (ErrorBody "Reinitialization failed" (Some (exn_str e))))).

End App.

(* ================================================================== *)
(** * The vocabulary of the properties *)
(* ================================================================== *)

(** ** Shapes of text *)

(** After [re.sub(r'\s+', ' ', text)] the only white space is the blank. *)
Definition blank_or_ink (c : ascii) : bool :=
  (negb (Py.isspace c) || Ascii.eqb c " ")%bool.

(** The text after the first step: white space collapsed, ends stripped. *)
Definition collapsed (s : string) : string :=
  Py.strip (TextProcessing.sub_runs Py.isspace " " false s).

(** The characters [normalize_text] lets through: the printable ones of
    Latin-1. *)
Definition printable (c : ascii) : bool :=
  (Py.in_range 32 126 c || Py.in_range 161 255 c)%bool.

(** White space is the blank, never twice in a row; [b] tells that the
    character before was a blank. *)
Fixpoint single_spaced (b : bool) (s : string) : bool :=
  match s with
  | EmptyString => true
  | String c s' =>
      if Py.isspace c
      then (negb b && Ascii.eqb c " " && single_spaced true s')%bool
      else single_spaced false s'
  end.

(** The path component [..] *)
Definition dotdot : string := "..".

Section Judgements.

Variable W : Type.

(** The computation never raises. *)
Definition total {S A} (m : M W S A) : Prop :=
  forall w s, exists a, res (m w s) = Ret a.

(** The computation leaves the view [f] of the state as it was. *)
Definition keeps {S A T} (f : S -> T) (m : M W S A) : Prop :=
  forall w s, f (state (m w s)) = f s.

(** Whether the computation returns or raises, a state where [I] holds
    is left for one where it holds. *)
Definition preserves {S A} (I : S -> Prop) (m : M W S A) : Prop :=
  forall w s, I s -> I (state (m w s)).

(** From a state where [P] holds the computation returns, with [Q] of
    its result and of the state it leaves. *)
Definition hoare {S A} (P : S -> Prop) (m : M W S A) (Q : A -> S -> Prop) : Prop :=
  forall w s, P s -> exists a, res (m w s) = Ret a /\ Q a (state (m w s)).

End Judgements.

(** The events that are counted: the passes over the persist directory
    and the pauses between them. *)
Definition is_listdir (e : event) : bool :=
  match e with
  | Call FileSystem op => String.eqb op "listdir"
  | _ => false
  end.

Definition is_sleep (e : event) : bool :=
  match e with Sleep _ => true | _ => false end.

Definition count (p : event -> bool) (t : list event) : nat := length (filter p t).

(** The calls one chat request may make: one similarity search at most,
    one call to the LLM at most, the search first. *)
Definition search_then_invoke (calls : list event) : Prop :=
  calls = []
  \/ calls = [Call IndexStore "similarity_search_with_score"]
  \/ calls = [Call Generator "invoke"]
  \/ calls = [Call IndexStore "similarity_search_with_score"; Call Generator "invoke"].

Section Observations.

Context {X : External}.

(** The answer of [generate_response] once the LLM has been called. *)
Definition answer_of (query context : string) (o : outcome Response) : string * ChatMode :=
  match o with
  | Ret response =>
      (Py.strip (match content response with
                 | Some c => c
                 | None => response_str response
                 end),
       snd (prompt_and_mode query context))
  | Raise _ => (apology, UNAVAILABLE)
  end.

(** What [search_similar_documents] makes of the store's answer. *)
Definition found_of (o : outcome (list (Document * Q))) : string * list DocumentSource :=
  match o with
  | Ret [] => ("", [])
  | Ret similar_docs =>
      (Py.join (nl ++ nl ++ "---" ++ nl ++ nl)
               (map (fun hit => page_content (fst hit)) similar_docs),
       map to_source similar_docs)
  | Raise _ => ("", [])
  end.

Definition k_or_default (k : option Z) : Z :=
  match k with None => DEFAULT_K_RETRIEVAL config | Some k => k end.

(** The readiness test at the head of [api_chat]. *)
Definition serving (g : Globals) : bool :=
  (system_ready g
   && match rag_service g with
      | Some rag => is_available rag
      | None => false
      end)%bool.

(** The line [initialize_llm] logs when the LLM has answered. *)
Definition llm_ok_line : event := Log INFO "LLM initialized successfully".

(** The line [_clean_vector_store_directory] logs after its last attempt. *)
Definition clean_failed_line : event :=
  Log ERROR "Failed to clean vector store directory".

(** Both services exist, the LLM handle is [l] and the retained
    diagnostic is [d]. *)
Definition wired (l : option LLM) (d : option string) (g : Globals) : Prop :=
  (exists docs, document_service g = Some docs)
  /\ (exists rag, rag_service g = Some rag /\ llm rag = l)
  /\ initialization_error g = d.

(** Every request the service answers goes to the LLM with the bare
    question: no source, the note of the LLM-only mode, and no call to
    the embedding model or to the store. *)
Definition serves_llm_only (rag : RAGService) : Prop :=
  forall (request : Request) (chat_request : ChatRequest) (g : Globals)
         (w : World) (h : LLM),
    is_json request = true ->
    system_ready g = true ->
    rag_service g = Some rag ->
    llm rag = Some h ->
    ChatRequest_from_dict (get_json request) = Ret chat_request ->
    fst (TextProcessing.validate_input (PStr (message chat_request))) = true ->
    let gen := llm_invoke h (message chat_request) w in
    let r := api_chat request w g in
    res r = Ret (respond 200
                   (ChatBody
                      {| question := message chat_request;
                         response := fst (answer_of (message chat_request) "" (fst gen));
                         context_provided_to_llm := "LLM-only mode (no documents available)";
                         sources := [];
                         mode := match fst gen with
                                 | Ret _ => LLM_ONLY
                                 | Raise _ => UNAVAILABLE
                                 end;
                         error := None |}))
    /\ state r = g
    /\ component_calls (trace r) = [Call Generator "invoke"].

(** What [DocumentService] keeps true of its lists: no file name is
    recorded twice, every recorded name is a sanitized one, and every
    loaded document carries the recorded name of its file. *)
Definition documents_consistent (s : DocumentService) : Prop :=
  NoDup (loaded_filenames s)
  /\ (forall f, In f (loaded_filenames s) ->
                f <> "" /\ Py.all_chars TextProcessing.filename_char f = true)
  /\ (forall d, In d (loaded_documents s) ->
                exists f, meta_source_file d = Some f /\ In f (loaded_filenames s)).

(** The service once [db] has become its store. *)
Definition with_store (self : RAGService) (db : VectorDB) : RAGService :=
  {| embedding_model := embedding_model self; vector_db := Some db;
     llm := llm self; is_ready := is_ready self |}.

Definition is_build_call (e : event) : bool :=
  match e with
  | Call IndexStore op => String.eqb op "from_documents"
  | _ => false
  end.

End Observations.

(* ================================================================== *)
(** * A small concrete world *)
(* ================================================================== *)

(** An instance of [External] simple enough to run the services on: an
    LLM that answers a fixed number of calls and then fails, a persist
    directory with a list of entries that may be locked by another
    process, and a store that remembers how many documents it holds. *)
Module Toy.

Record env : Type :=
  { llm_budget : nat;
    llm_reply : string;
    embedder_up : bool;
    dir : option (list string);
    dir_locked : bool;
    stored : Z;
    build_up : bool;
    hits : list (Document * Q);
    corpus : list (string * outcome (list Document));
    pdf_folder_ok : bool }.

Definition with_budget (n : nat) (w : env) : env :=
  {| llm_budget := n; llm_reply := llm_reply w; embedder_up := embedder_up w;
     dir := dir w; dir_locked := dir_locked w; stored := stored w;
     build_up := build_up w; hits := hits w; corpus := corpus w;
     pdf_folder_ok := pdf_folder_ok w |}.

Definition with_dir (d : option (list string)) (n : Z) (w : env) : env :=
  {| llm_budget := llm_budget w; llm_reply := llm_reply w; embedder_up := embedder_up w;
     dir := d; dir_locked := dir_locked w; stored := n;
     build_up := build_up w; hits := hits w; corpus := corpus w;
     pdf_folder_ok := pdf_folder_ok w |}.

Definition cfg : Config :=
  {| GROQ_API_KEY := Some "gsk_test";
     PDF_FOLDER := "content/";
     CHROMA_PERSIST_DIR := "dbVector";
     HF_EMBEDDING_MODEL_NAME := "sentence-transformers/paraphrase-multilingual-mpnet-base-v2";
     GROQ_MODEL_NAME := "llama3-8b-8192";
     DEFAULT_K_RETRIEVAL := 5;
     CHUNK_SIZE := 1000;
     CHUNK_OVERLAP := 200 |}.

Definition invoke (p : string) (w : env) : outcome Response * env :=
  match llm_budget w with
  | O => (Raise (Exn OtherException "Connection error."), w)
  | S n => (Ret {| content := Some (llm_reply w); response_str := "" |}, with_budget n w)
  end.

Definition makedirs (p : string) (w : env) : outcome unit * env :=
  if String.eqb p (PDF_FOLDER cfg) then
    if pdf_folder_ok w then (Ret tt, w)
    else (Raise (Exn PermissionError "[Errno 13] Permission denied: 'content/'"), w)
  else
    match dir w with
    | Some _ => (Ret tt, w)
    | None => (Ret tt, with_dir (Some []) (stored w) w)
    end.

Definition listdir (p : string) (w : env) : outcome (list string) * env :=
  match dir w with
  | Some l => (Ret l, w)
  | None => (Raise (Exn OtherException "[Errno 2] No such file or directory: 'dbVector'"), w)
  end.

Definition lock_message : string :=
  "[WinError 32] The process cannot access the file because it is being used by another process".

Definition remove (p : string) (w : env) : outcome unit * env :=
  if dir_locked w then (Raise (Exn PermissionError lock_message), w)
  else
    (Ret tt,
     with_dir (option_map (filter (fun n => negb (String.eqb (os_path_join "dbVector" n) p)))
                          (dir w))
              (stored w) w).

Definition from_documents (docs : list Document) (w : env) : outcome unit * env :=
  if build_up w then
    (Ret tt,
     with_dir (Some (match dir w with Some l => l | None => [] end
                       ++ ["chroma.sqlite3"])%list)
              (Z.of_nat (length docs)) w)
  else (Raise (Exn OtherException "database is locked"), w).

#[export] Instance external : External :=
  {| World := env;
     LLM := unit;
     Embeddings := unit;
     VectorDB := unit;
     config := cfg;
     ChatGroq := fun _ _ w => (Ret tt, w);
     llm_invoke := fun _ p w => invoke p w;
     HuggingFaceEmbeddings :=
       fun _ w => if embedder_up w then (Ret tt, w)
                  else (Raise (Exn OtherException "model not found"), w);
     embed_query := fun _ _ w => (Ret [], w);
     Chroma := fun _ _ w => (Ret tt, w);
     collection_count := fun _ w => (Ret (stored w), w);
     Chroma_from_documents := fun docs _ _ w => from_documents docs w;
     similarity_search_with_score :=
       fun _ _ k w => (Ret (firstn (Z.to_nat k) (hits w)), w);
     os_path_exists :=
       fun p w => if String.eqb p (PDF_FOLDER cfg) then pdf_folder_ok w
                  else if String.eqb p (CHROMA_PERSIST_DIR cfg)
                  then match dir w with Some _ => true | None => false end
                  else existsb (fun f => String.eqb (os_path_join (PDF_FOLDER cfg) (fst f)) p)
                               (corpus w);
     os_path_isdir := fun _ _ => false;
     os_makedirs := makedirs;
     os_listdir := listdir;
     os_unlink := remove;
     shutil_rmtree := remove;
     gc_collect := fun w => w;
     time_sleep := fun _ w => w;
     load_folder :=
       fun k _ w => match k with PDF => (Ret (corpus w), w) | CSV => (Ret [], w) end;
     split_documents := fun _ _ docs w => (Ret docs, w) |}.

Definition doc (text : string) (n : string) : Document :=
  {| page_content := text; meta_source_file := None; meta_page := Some n |}.

(** A healthy world: a manual of three pages, nothing persisted yet. *)
Definition healthy : env :=
  {| llm_budget := 10;
     llm_reply := " It is blue. ";
     embedder_up := true;
     dir := None;
     dir_locked := false;
     stored := 0;
     build_up := true;
     hits := [(doc "The sky is blue." "1", 9 # 10); (doc "Grass is green." "2", 3125 # 100000)];
     corpus := [("manual.pdf", Ret [doc "The sky is blue." "1"; doc "Grass is green." "2";
                                    doc "   " "3"])];
     pdf_folder_ok := true |}.

Definition ask_json (s : string) : Request :=
  {| is_json := true;
     get_json := {| json_message := MsgStr s; json_k_context := KNone |} |}.

Definition with_hits (h : list (Document * Q)) (w : env) : env :=
  {| llm_budget := llm_budget w; llm_reply := llm_reply w; embedder_up := embedder_up w;
     dir := dir w; dir_locked := dir_locked w; stored := stored w;
     build_up := build_up w; hits := h; corpus := corpus w;
     pdf_folder_ok := pdf_folder_ok w |}.

Definition with_lock (b : bool) (w : env) : env :=
  {| llm_budget := llm_budget w; llm_reply := llm_reply w; embedder_up := embedder_up w;
     dir := dir w; dir_locked := b; stored := stored w;
     build_up := build_up w; hits := hits w; corpus := corpus w;
     pdf_folder_ok := pdf_folder_ok w |}.

Definition with_build (b : bool) (w : env) : env :=
  {| llm_budget := llm_budget w; llm_reply := llm_reply w; embedder_up := embedder_up w;
     dir := dir w; dir_locked := dir_locked w; stored := stored w;
     build_up := b; hits := hits w; corpus := corpus w;
     pdf_folder_ok := pdf_folder_ok w |}.


(** The LLM answers the test call of the initialization and then goes
    down; the query is out of the domain of the documents. *)
Definition llm_goes_down : env := with_hits [] (with_budget 1 healthy).

(** An index of seven documents is on disk and another process holds
    its files; building a new one works all the same. *)
Definition locked : env :=
  with_lock true (with_dir (Some ["chroma.sqlite3"; "index"]) 7 healthy).

(** The persist directory has entries and another process holds them. *)
Definition is_locked (w : env) : Prop :=
  dir_locked w = true /\ exists e es, dir w = Some (e :: es).

(** Nothing is persisted, and the store cannot be built. *)
Definition cannot_build : env := with_build false healthy.

(** A service whose three components are up. *)
Definition ready_service : RAGService :=
  {| embedding_model := Some tt; vector_db := Some tt; llm := Some tt; is_ready := false |}.

(** A service with an embedding model and a store, and no LLM. *)
Definition without_llm : RAGService :=
  {| embedding_model := Some tt; vector_db := Some tt; llm := None; is_ready := false |}.

(** A service with its LLM and its embedding model, and no store yet. *)
Definition embedded_service : RAGService :=
  {| embedding_model := Some tt; vector_db := None; llm := Some tt; is_ready := false |}.

Definition ready_globals : Globals :=
  {| document_service := Some DocumentService_new;
     rag_service := Some ready_service;
     system_ready := true;
     initialization_error := None |}.

Definition what_is_x : ChatRequest :=
  {| message := "What is X?"; k_context := None |}.

End Toy.

(* ================================================================== *)
(** * Properties of the string and pattern primitives *)
(* ================================================================== *)

Module StringFacts.

Lemma append_nil_r (s : string) : (s ++ "")%string = s.
Proof. induction s as [|c s IH]; simpl; [reflexivity | now rewrite IH]. Qed.

Lemma append_assoc (a b c : string) : ((a ++ b) ++ c)%string = (a ++ (b ++ c))%string.
Proof. induction a as [|x a IH]; simpl; [reflexivity | now rewrite IH]. Qed.

Lemma append_eq_nil (a b : string) : (a ++ b)%string = "" -> a = "" /\ b = "".
Proof. destruct a; simpl; [auto | discriminate]. Qed.

Lemma append_eq_cons (a b : string) (c : ascii) (s : string) :
  (a ++ b)%string = String c s ->
  (a = "" /\ b = String c s) \/ (exists a', a = String c a' /\ s = (a' ++ b)%string).
Proof.
  destruct a as [|x a]; simpl; intros H.
  - left; auto.
  - right. inversion H; subst. exists a; auto.
Qed.

Lemma length_append (a b : string) :
  String.length (a ++ b) = (String.length a + String.length b)%nat.
Proof. induction a as [|x a IH]; simpl; [reflexivity | now rewrite IH]. Qed.

Lemma all_chars_append (p : ascii -> bool) (a b : string) :
  Py.all_chars p (a ++ b) = (Py.all_chars p a && Py.all_chars p b)%bool.
Proof.
  induction a as [|x a IH]; simpl; [reflexivity |].
  now rewrite IH, andb_assoc.
Qed.

Lemma all_chars_map (p : ascii -> bool) (f : ascii -> ascii) (s : string) :
  (forall c, p (f c) = true) -> Py.all_chars p (Py.map_chars f s) = true.
Proof.
  intros Hf. induction s as [|c s IH]; simpl; [reflexivity |].
  now rewrite Hf, IH.
Qed.

Lemma map_chars_nil (f : ascii -> ascii) (s : string) :
  Py.map_chars f s = "" -> s = "".
Proof. destruct s; simpl; [auto | discriminate]. Qed.

End StringFacts.

Module ReFacts.

Import Re StringFacts.

Section Matcher.

Variable ic : bool.

Lemma matches_nil_nullable (r : regex) (s : string) :
  matches ic r s -> s = "" -> nullable r = true.
Proof.
  induction 1; intros E; simpl; try reflexivity; try discriminate.
  - apply append_eq_nil in E. destruct E as [E1 E2].
    now rewrite IHmatches1, IHmatches2.
  - now rewrite IHmatches.
  - rewrite IHmatches by assumption. apply orb_true_r.
Qed.

Lemma nullable_matches_nil (r : regex) : nullable r = true -> matches ic r "".
Proof.
  induction r; simpl; intros H; try discriminate.
  - constructor.
  - apply andb_true_iff in H. destruct H as [H1 H2].
    change "" with ("" ++ "")%string. constructor; auto.
  - apply orb_true_iff in H. destruct H as [H|H]; [apply MAltL | apply MAltR]; auto.
  - constructor.
Qed.

Lemma no_match_void (s : string) : ~ matches ic Void s.
Proof. intros H; inversion H. Qed.

Lemma cat_spec (r1 r2 : regex) (s : string) :
  matches ic (cat r1 r2) s <-> matches ic (Cat r1 r2) s.
Proof.
  split.
  - destruct r1; simpl; try (destruct r2; simpl); intros H;
      try (now exfalso; eapply no_match_void; eauto); try assumption;
      change s with ("" ++ s)%string; constructor; auto; constructor.
  - intros H. inversion H; subst; clear H.
    destruct r1; simpl;
      try (now exfalso; eapply no_match_void; eauto);
      try (destruct r2; simpl;
           try (now exfalso; eapply no_match_void; eauto);
           try (now constructor));
      match goal with
      | Hm : matches _ Eps _ |- _ => inversion Hm; subst; simpl; assumption
      end.
Qed.

Lemma alt_spec (r1 r2 : regex) (s : string) :
  matches ic (alt r1 r2) s <-> matches ic (Alt r1 r2) s.
Proof.
  split.
  - destruct r1; simpl; try (destruct r2; simpl); intros H;
      try assumption; try (now apply MAltR); try (now apply MAltL).
  - intros H.
    inversion H; subst; clear H;
      destruct r1; simpl; try (destruct r2; simpl);
      try (now exfalso; eapply no_match_void; eauto);
      try assumption; try (now apply MAltL); try (now apply MAltR).
Qed.

Lemma deriv_complete (r : regex) (s0 : string) :
  matches ic r s0 ->
  forall c t, s0 = String c t -> matches ic (deriv ic c r) t.
Proof.
  induction 1; intros c0 t E; simpl.
  - discriminate.
  - inversion E; subst. rewrite H. constructor.
  - apply append_eq_cons in E. destruct E as [[E1 E2] | [a' [E1 E2]]]; subst.
    + rewrite (matches_nil_nullable H eq_refl).
      apply alt_spec. apply MAltR. now apply IHmatches2.
    + assert (Hc : matches ic (cat (deriv ic c0 r1) r2) (a' ++ s2)).
      { apply cat_spec. constructor; auto. }
      destruct (nullable r1); [apply alt_spec; now apply MAltL | assumption].
  - apply alt_spec. apply MAltL. now apply IHmatches.
  - apply alt_spec. apply MAltR. now apply IHmatches.
  - discriminate.
  - apply append_eq_cons in E. destruct E as [[E1 E2] | [a' [E1 E2]]]; subst.
    + now apply IHmatches2.
    + apply cat_spec. constructor; auto.
Qed.

Lemma deriv_sound (r : regex) :
  forall c s, matches ic (deriv ic c r) s -> matches ic r (String c s).
Proof.
  induction r; intros c0 s H; simpl in H.
  - inversion H.
  - inversion H.
  - destruct (cls_match ic k c0) eqn:Hk; inversion H; subst. now constructor.
  - assert (Hl : forall t, matches ic (cat (deriv ic c0 r1) r2) t ->
                           matches ic (Cat r1 r2) (String c0 t)).
    { intros t Ht. apply cat_spec in Ht.
      inversion Ht; subst; clear Ht.
      match goal with
      | |- matches _ _ (String ?c (?a ++ ?b)) =>
          change (String c (a ++ b)) with (String c a ++ b)%string
      end.
      constructor; auto. }
    destruct (nullable r1) eqn:Hn; [| now apply Hl].
    apply alt_spec in H.
    inversion H; subst; clear H; [now apply Hl |].
    change (String c0 s) with ("" ++ String c0 s)%string.
    constructor; [now apply nullable_matches_nil | now apply IHr2].
  - apply alt_spec in H.
    inversion H; subst; clear H; [apply MAltL | apply MAltR]; auto.
  - apply cat_spec in H.
    inversion H; subst; clear H.
    match goal with
    | |- matches _ _ (String ?c (?a ++ ?b)) =>
        change (String c (a ++ b)) with (String c a ++ b)%string
    end.
    constructor; auto.
Qed.

(** [match_prefix] finds exactly the strings a prefix of which is in
    the language. *)
Lemma match_prefix_spec (s : string) :
  forall r, match_prefix ic r s = true <->
            exists s1 s2, s = (s1 ++ s2)%string /\ matches ic r s1.
Proof.
  induction s as [|c s IH]; intros r; simpl.
  - destruct (nullable r) eqn:Hn.
    + split; [intros _ | reflexivity].
      exists "", "". split; [reflexivity | now apply nullable_matches_nil].
    + split.
      * destruct (is_void r); discriminate.
      * intros [s1 [s2 [E Hm]]]. symmetry in E. apply append_eq_nil in E.
        destruct E as [E1 _]. rewrite (matches_nil_nullable Hm E1) in Hn. discriminate.
  - destruct (nullable r) eqn:Hn.
    + split; [intros _ | reflexivity].
      exists "", (String c s). split; [reflexivity | now apply nullable_matches_nil].
    + destruct (is_void r) eqn:Hv.
      * split; [discriminate |].
        intros [s1 [s2 [_ Hm]]]. destruct r; try discriminate. inversion Hm.
      * rewrite IH. split.
        -- intros [s1 [s2 [E Hm]]]. exists (String c s1), s2.
           split; [simpl; now rewrite E | now apply deriv_sound].
        -- intros [s1 [s2 [E Hm]]]. symmetry in E.
           apply append_eq_cons in E. destruct E as [[E1 E2] | [a' [E1 E2]]]; subst.
           ++ rewrite (matches_nil_nullable Hm eq_refl) in Hn. discriminate.
           ++ exists a', s2. split; [reflexivity |].
              eapply deriv_complete; eauto.
Qed.

(** [search] decides whether the pattern occurs in the string. *)
Lemma search_spec (r : regex) (s : string) :
  search ic r s = true <-> occurs ic r s.
Proof.
  unfold occurs. induction s as [|c s IH]; cbn [search].
  - rewrite orb_false_r. rewrite match_prefix_spec. split.
    + intros [s1 [s2 [E Hm]]]. exists "", s1, s2. auto.
    + intros [pre [mid [post [E Hm]]]]. symmetry in E.
      apply append_eq_nil in E. destruct E as [E1 E2]. subst. simpl in *.
      exists mid, post. auto.
  - rewrite orb_true_iff, IH, match_prefix_spec. split.
    + intros [[s1 [s2 [E Hm]]] | [pre [mid [post [E Hm]]]]].
      * exists "", s1, s2. auto.
      * exists (String c pre), mid, post. split; [simpl; now rewrite E | assumption].
    + intros [pre [mid [post [E Hm]]]]. symmetry in E.
      apply append_eq_cons in E. destruct E as [[E1 E2] | [a' [E1 E2]]]; subst.
      * left. exists mid, post. auto.
      * right. exists a', mid, post. auto.
Qed.

End Matcher.

End ReFacts.

(* ================================================================== *)
(** * utils/text_processing.py: properties *)
(* ================================================================== *)

Module TextFacts.

Import TextProcessing StringFacts.

(** ** [validate_input] *)

Lemma truthy_false (s : string) : Py.truthy s = false <-> s = "".
Proof. destruct s; simpl; split; congruence. Qed.

Lemma too_long_message :
  ("Input too long (max " ++ Py.str_of_Z default_max_length ++ " characters)")%string
  = "Input too long (max 5000 characters)".
Proof. reflexivity. Qed.

Lemma validate_input_blank (s : string) :
  Py.strip s = "" -> validate_input (PStr s) = (false, "Input cannot be empty").
Proof.
  intros H. unfold validate_input, validate_input_max. now rewrite H.
Qed.

Lemma validate_input_long (s : string) :
  Py.len (Py.strip s) > 5000 ->
  validate_input (PStr s) = (false, "Input too long (max 5000 characters)").
Proof.
  intros H. unfold validate_input, validate_input_max.
  destruct (Py.strip s) as [|c t] eqn:E; [cbv in H; discriminate |].
  cbn [Py.truthy negb].
  replace (Py.len (String c t) >? default_max_length) with true
    by (symmetry; apply Z.gtb_lt; unfold default_max_length; lia).
  now rewrite too_long_message.
Qed.

Lemma validate_input_suspicious (s : string) (p : Re.regex) :
  Py.strip s <> "" ->
  Py.len (Py.strip s) <= 5000 ->
  In p suspicious_patterns ->
  Re.occurs true p (Py.strip s) ->
  validate_input (PStr s) = (false, "Input contains suspicious content").
Proof.
  intros Hne Hlen Hin Hocc. unfold validate_input, validate_input_max.
  destruct (Py.strip s) as [|c t] eqn:E; [congruence |].
  cbn [Py.truthy negb].
  replace (Py.len (String c t) >? default_max_length) with false
    by (symmetry; rewrite Z.gtb_ltb; apply Z.ltb_ge; unfold default_max_length; lia).
  replace (existsb (fun q => Re.search true q (String c t)) suspicious_patterns)
    with true; [reflexivity |].
  symmetry. apply existsb_exists. exists p. split; [assumption |].
  now apply ReFacts.search_spec.
Qed.

(** What [validate_input] accepts, exactly. *)
Lemma validate_input_accepts (s : string) :
  fst (validate_input (PStr s)) = true <->
  Py.strip s <> "" /\ Py.len (Py.strip s) <= 5000
  /\ forall p, In p suspicious_patterns -> ~ Re.occurs true p (Py.strip s).
Proof.
  unfold validate_input, validate_input_max.
  destruct (Py.strip s) as [|c t] eqn:E.
  - simpl. split; [discriminate | intros [H _]; congruence].
  - cbn [Py.truthy negb].
    destruct (Py.len (String c t) >? default_max_length) eqn:Hl.
    + simpl. split; [discriminate |]. intros [_ [H _]].
      apply Z.gtb_lt in Hl. unfold default_max_length in Hl. lia.
    + destruct (existsb (fun q => Re.search true q (String c t)) suspicious_patterns) eqn:Hs.
      * simpl. split; [discriminate |]. intros [_ [_ H]].
        apply existsb_exists in Hs. destruct Hs as [p [Hin Hp]].
        exfalso. apply (H p Hin). now apply ReFacts.search_spec.
      * simpl. split; [intros _ | reflexivity].
        split; [discriminate |]. split.
        -- rewrite Z.gtb_ltb in Hl; apply Z.ltb_ge in Hl. unfold default_max_length in Hl. lia.
        -- intros p Hin Hocc. apply ReFacts.search_spec in Hocc.
           assert (Ht : existsb (fun q => Re.search true q (String c t)) suspicious_patterns
                        = true)
             by (apply existsb_exists; exists p; split; assumption).
           congruence.
Qed.

(** The message of a rejection is never empty, and there are three. *)
Lemma validate_input_messages (a : pyarg) :
  fst (validate_input a) = false ->
  snd (validate_input a) = "Input must be a string"
  \/ snd (validate_input a) = "Input cannot be empty"
  \/ snd (validate_input a) = "Input too long (max 5000 characters)"
  \/ snd (validate_input a) = "Input contains suspicious content".
Proof.
  unfold validate_input, validate_input_max. destruct a as [s|]; [| auto].
  destruct (negb (Py.truthy (Py.strip s))); [auto |].
  destruct (Py.len (Py.strip s) >? default_max_length); [rewrite too_long_message; auto |].
  destruct (existsb _ _); simpl; [auto | discriminate].
Qed.

(** ** [sanitize_filename] *)

Lemma sanitize_filename_nonempty (a : pyarg) : sanitize_filename a <> "".
Proof.
  unfold sanitize_filename. destruct a as [s|]; [| discriminate].
  destruct (sub_unsafe _) eqn:E; simpl; discriminate.
Qed.

Lemma sanitize_filename_charset (a : pyarg) :
  Py.all_chars filename_char (sanitize_filename a) = true.
Proof.
  unfold sanitize_filename. destruct a as [s|]; [| reflexivity].
  destruct (negb _); [reflexivity |].
  unfold sub_unsafe. apply all_chars_map.
  intros c. destruct (filename_char c) eqn:E; [assumption | reflexivity].
Qed.

Lemma all_chars_excludes (p : ascii -> bool) (c : ascii) (s : string) :
  Py.all_chars p s = true -> p c = false -> Py.contains (String c "") s = false.
Proof.
  intros Hs Hc. induction s as [|x s IH]; simpl in *; [reflexivity |].
  apply andb_true_iff in Hs. destruct Hs as [Hx Hs].
  rewrite (IH Hs), orb_false_r.
  destruct (ascii_dec c x) as [->|Hne]; [congruence |].
  destruct (Ascii.eqb_spec c x); [contradiction | reflexivity].
Qed.

Lemma sanitize_filename_no_separator (a : pyarg) :
  Py.contains "/" (sanitize_filename a) = false
  /\ Py.contains "\" (sanitize_filename a) = false.
Proof.
  split; eapply all_chars_excludes;
    try apply sanitize_filename_charset; reflexivity.
Qed.

Lemma sanitize_filename_fallback :
  sanitize_filename PNotStr = "unknown_file"
  /\ forall s,
      sub_unsafe (Py.replace "\" "" (Py.replace "/" "" (Py.replace ".." "" s))) = "" ->
      sanitize_filename (PStr s) = "unknown_file".
Proof.
  split; [reflexivity |]. intros s H. unfold sanitize_filename. now rewrite H.
Qed.

(** ** [chunk_text] *)

Lemma chunk_loop_overlap_diverges (text : string) (chunk_size overlap : Z) :
  overlap > 0 ->
  forall fuel start chunks,
    start < Py.len text ->
    chunk_loop fuel text chunk_size overlap start chunks = None.
Proof.
  intros Hov. induction fuel as [|fuel IH]; intros start chunks Hlt; simpl.
  - apply Z.ltb_lt in Hlt. now rewrite Hlt.
  - assert (Hb : (start <? Py.len text) = true) by now apply Z.ltb_lt.
    rewrite Hb. unfold chunk_body.
    assert (Hgt : (overlap >? 0) = true) by (apply Z.gtb_lt; lia).
    rewrite Hgt.
    set (end_ := Z.min (start + chunk_size) (Py.len text)).
    assert (Hge : (end_ - overlap >=? end_) = false)
      by (rewrite Z.geb_leb; apply Z.leb_gt; lia).
    rewrite Hge. apply IH. subst end_. lia.
Qed.

(** With a positive overlap the loop of [chunk_text] never ends, whatever
    the text and the chunk size. *)
Lemma chunk_text_overlap_diverges (text : string) (chunk_size overlap : Z) :
  text <> "" -> chunk_size > 0 -> overlap > 0 ->
  forall fuel, chunk_text fuel text chunk_size overlap = None.
Proof.
  intros Ht Hc Ho fuel. unfold chunk_text.
  destruct text as [|c t]; [congruence |].
  cbn [Py.truthy negb orb].
  replace (chunk_size <=? 0) with false by (symmetry; apply Z.leb_gt; lia).
  apply chunk_loop_overlap_diverges; [assumption |].
  unfold Py.len. simpl String.length. lia.
Qed.

(** Without overlap the loop is left after its first turn: only the
    first window of the text is returned. *)
Lemma chunk_text_no_overlap (text : string) (chunk_size overlap : Z) :
  text <> "" -> chunk_size > 0 -> overlap <= 0 ->
  forall fuel,
    chunk_text (S fuel) text chunk_size overlap =
    Some (let chunk := Py.slice text 0 (Z.min chunk_size (Py.len text)) in
          if Py.truthy (Py.strip chunk) then [chunk] else []).
Proof.
  intros Ht Hc Ho fuel. unfold chunk_text.
  destruct text as [|c t]; [congruence |].
  cbn [Py.truthy negb orb].
  replace (chunk_size <=? 0) with false by (symmetry; apply Z.leb_gt; lia).
  cbn [chunk_loop].
  replace (0 <? Py.len (String c t)) with true
    by (symmetry; apply Z.ltb_lt; unfold Py.len; simpl String.length; lia).
  unfold chunk_body.
  replace (overlap >? 0) with false by (symmetry; rewrite Z.gtb_ltb; apply Z.ltb_ge; lia).
  rewrite Z.add_0_l.
  replace (Z.min chunk_size (Py.len (String c t)) >=? Z.min chunk_size (Py.len (String c t)))
    with true by (symmetry; apply Z.geb_le; lia).
  cbv zeta. destruct (Py.truthy _); reflexivity.
Qed.

End TextFacts.
(* ================================================================== *)
(** * [str.strip]: properties *)
(* ================================================================== *)

Module StripFacts.

Import StringFacts.

Lemma lstrip_head (s : string) (c : ascii) (t : string) :
  Py.lstrip s = String c t -> Py.isspace c = false.
Proof.
  induction s as [|a s IH]; simpl; [discriminate |].
  destruct (Py.isspace a) eqn:E; [exact IH |].
  intros H. injection H as -> _. exact E.
Qed.

Lemma lstrip_nonspace (c : ascii) (s : string) :
  Py.isspace c = false -> Py.lstrip (String c s) = String c s.
Proof. intros H. simpl. now rewrite H. Qed.

Lemma lstrip_all_chars (p : ascii -> bool) (s : string) :
  Py.all_chars p s = true -> Py.all_chars p (Py.lstrip s) = true.
Proof.
  induction s as [|a s IH]; simpl; [reflexivity |].
  intros H. apply andb_true_iff in H. destruct H as [Ha Hs].
  destruct (Py.isspace a); [auto |]. simpl. now rewrite Ha, Hs.
Qed.

Lemma rstrip_cons_nonspace (c : ascii) (s : string) :
  Py.isspace c = false -> Py.rstrip (String c s) = String c (Py.rstrip s).
Proof. intros H. simpl. rewrite H. now destruct (Py.rstrip s). Qed.

Lemma rstrip_cons_nonempty (c : ascii) (s : string) :
  Py.rstrip s <> "" -> Py.rstrip (String c s) = String c (Py.rstrip s).
Proof. intros H. simpl. destruct (Py.rstrip s); [congruence | reflexivity]. Qed.

Lemma rstrip_head (s : string) (c : ascii) (t : string) :
  Py.rstrip s = String c t -> exists t', s = String c t'.
Proof.
  destruct s as [|a s]; simpl; [discriminate |].
  destruct (Py.rstrip s).
  - destruct (Py.isspace a); [discriminate |].
    intros H. injection H as -> _. now exists s.
  - intros H. injection H as -> _. now exists s.
Qed.

Lemma rstrip_all_chars (p : ascii -> bool) (s : string) :
  Py.all_chars p s = true -> Py.all_chars p (Py.rstrip s) = true.
Proof.
  induction s as [|a s IH]; simpl; [reflexivity |].
  intros H. apply andb_true_iff in H. destruct H as [Ha Hs].
  specialize (IH Hs). destruct (Py.rstrip s) as [|b t].
  - destruct (Py.isspace a); simpl; [reflexivity | now rewrite Ha].
  - simpl in *. now rewrite Ha, IH.
Qed.

Lemma rstrip_idempotent (s : string) : Py.rstrip (Py.rstrip s) = Py.rstrip s.
Proof.
  induction s as [|a s IH]; simpl; [reflexivity |].
  destruct (Py.rstrip s) as [|b t] eqn:E.
  - destruct (Py.isspace a) eqn:Ea; simpl; [reflexivity | now rewrite Ea].
  - change (Py.rstrip (String a (String b t)) = String a (String b t)).
    rewrite rstrip_cons_nonempty; rewrite IH; [reflexivity | discriminate].
Qed.

Lemma strip_all_chars (p : ascii -> bool) (s : string) :
  Py.all_chars p s = true -> Py.all_chars p (Py.strip s) = true.
Proof. intros H. unfold Py.strip. now apply rstrip_all_chars, lstrip_all_chars. Qed.

(** What [strip] returns starts with no white space. *)
Lemma strip_head (s : string) (c : ascii) (t : string) :
  Py.strip s = String c t -> Py.isspace c = false.
Proof.
  unfold Py.strip. intros H. destruct (@rstrip_head _ c t H) as [t' Ht'].
  exact (@lstrip_head s c t' Ht').
Qed.

(** Stripping twice is stripping once. *)
Lemma strip_idempotent (s : string) : Py.strip (Py.strip s) = Py.strip s.
Proof.
  unfold Py.strip at 1.
  destruct (Py.strip s) as [|c t] eqn:E; [reflexivity |].
  rewrite (@lstrip_nonspace c t (@strip_head s c t E)).
  rewrite <- E. unfold Py.strip. apply rstrip_idempotent.
Qed.

(** A piece of the string that starts and ends with something else than
    white space is still there once the string is stripped. *)
Lemma lstrip_keeps (pre mid : string) (c : ascii) (rest : string) :
  Py.isspace c = false ->
  exists pre', Py.lstrip (pre ++ String c rest) = pre' ++ String c rest.
Proof.
  intros Hc. induction pre as [|a pre IH]; simpl.
  - rewrite Hc. now exists "".
  - destruct (Py.isspace a); [exact IH |]. now exists (String a pre).
Qed.

(** [last_nonspace s]: [s] is not empty and its last character is no
    white space. *)
Lemma rstrip_keeps (mid post : string) :
  mid <> "" ->
  Py.rstrip mid = mid ->
  exists post', Py.rstrip (mid ++ post) = mid ++ post'.
Proof.
  induction mid as [|a mid IH]; [congruence |].
  intros _ Hfix. destruct mid as [|b mid].
  - simpl in Hfix. destruct (Py.isspace a) eqn:Ea; [discriminate |].
    change (String a "" ++ post) with (String a post).
    rewrite (@rstrip_cons_nonspace a post Ea). now exists (Py.rstrip post).
  - assert (Hmid : Py.rstrip (String b mid) = String b mid).
    { remember (String b mid) as X eqn:EX. simpl in Hfix.
      destruct (Py.rstrip X) as [|a0 t0] eqn:E.
      - destruct (Py.isspace a); subst X; discriminate.
      - now injection Hfix. }
    destruct (IH ltac:(discriminate) Hmid) as [post' Hp].
    exists post'.
    change (String a (String b mid) ++ post) with (String a (String b mid ++ post)).
    rewrite rstrip_cons_nonempty; rewrite Hp; [reflexivity | discriminate].
Qed.

Lemma rstrip_app_keeps (pre t : string) :
  Py.rstrip t <> "" -> Py.rstrip (pre ++ t) = pre ++ Py.rstrip t.
Proof.
  intros H. induction pre as [|a pre IH]; [reflexivity |].
  change (String a pre ++ t) with (String a (pre ++ t)).
  rewrite rstrip_cons_nonempty; rewrite IH; [reflexivity |].
  destruct pre; simpl; [assumption | discriminate].
Qed.

Lemma strip_keeps (pre mid post : string) (c : ascii) (rest : string) :
  mid = String c rest ->
  Py.isspace c = false ->
  Py.rstrip mid = mid ->
  exists pre' post', Py.strip (pre ++ mid ++ post) = pre' ++ mid ++ post'.
Proof.
  intros Hmid Hc Hfix. unfold Py.strip.
  destruct (@lstrip_keeps pre mid c (rest ++ post) Hc) as [pre' Hl].
  replace (pre ++ mid ++ post) with (pre ++ String c (rest ++ post))
    by (now rewrite Hmid).
  rewrite Hl.
  destruct (@rstrip_keeps mid post ltac:(rewrite Hmid; discriminate) Hfix) as [post' Hr].
  exists pre', post'.
  replace (String c (rest ++ post)) with (mid ++ post) by (now rewrite Hmid).
  rewrite rstrip_app_keeps; rewrite Hr; [reflexivity |].
  rewrite Hmid. discriminate.
Qed.

(** A string that starts and ends with something else than white space
    is its own [strip]. *)
Lemma strip_fixed (s : string) (c : ascii) (t : string) :
  s = String c t -> Py.isspace c = false -> Py.rstrip s = s -> Py.strip s = s.
Proof.
  intros -> Hc Hr. unfold Py.strip. now rewrite (@lstrip_nonspace c t Hc).
Qed.

Lemma rstrip_nonspace (s : string) :
  Py.all_chars (fun c => negb (Py.isspace c)) s = true -> Py.rstrip s = s.
Proof.
  induction s as [|c s IH]; simpl; [reflexivity |].
  intros H. apply andb_true_iff in H. destruct H as [Hc Hs].
  rewrite (IH Hs). apply negb_true_iff in Hc. rewrite Hc. now destruct s.
Qed.

Lemma rstrip_tail (pre t : string) :
  t <> "" ->
  Py.all_chars (fun c => negb (Py.isspace c)) t = true ->
  Py.rstrip (pre ++ t) = (pre ++ t)%string.
Proof.
  intros Ht Hns. rewrite rstrip_app_keeps; rewrite (@rstrip_nonspace t Hns);
    [reflexivity | assumption].
Qed.

End StripFacts.
(* ================================================================== *)
(** * [normalize_text]: properties *)
(* ================================================================== *)

Module NormalizeFacts.

Import TextProcessing StringFacts.

Lemma all_chars_weaken (p q : ascii -> bool) (s : string) :
  (forall c, p c = true -> q c = true) ->
  Py.all_chars p s = true -> Py.all_chars q s = true.
Proof.
  intros Hpq. induction s as [|c s IH]; simpl; [reflexivity |].
  intros H. apply andb_true_iff in H. destruct H as [Hc Hs].
  now rewrite (Hpq c Hc), IH.
Qed.

Lemma all_chars_both (p q : ascii -> bool) (s : string) :
  Py.all_chars p s = true -> Py.all_chars q s = true ->
  Py.all_chars (fun c => p c && q c)%bool s = true.
Proof.
  induction s as [|c s IH]; simpl; [reflexivity |].
  intros Hp Hq. apply andb_true_iff in Hp, Hq.
  destruct Hp as [Hp1 Hp2], Hq as [Hq1 Hq2]. now rewrite Hp1, Hq1, IH.
Qed.

(** ** The steps, one by one *)

Lemma sub_runs_space (b : bool) (s : string) :
  Py.all_chars blank_or_ink (sub_runs Py.isspace " " b s) = true.
Proof.
  revert b. induction s as [|c s IH]; intros b; simpl; [reflexivity |].
  destruct (Py.isspace c) eqn:E.
  - destruct b; [apply IH |]. simpl. apply IH.
  - simpl. unfold blank_or_ink at 1. rewrite E. simpl. apply IH.
Qed.

Lemma sub_runs_all_chars (p k : ascii -> bool) (b : bool) (s : string) :
  p " "%char = true ->
  Py.all_chars p s = true -> Py.all_chars p (sub_runs k " " b s) = true.
Proof.
  intros Hsp. revert b. induction s as [|c s IH]; intros b; simpl; [reflexivity |].
  intros H. apply andb_true_iff in H. destruct H as [Hc Hs].
  destruct (k c).
  - destruct b; [now apply IH |]. simpl. rewrite Hsp. now apply IH.
  - simpl. rewrite Hc. now apply IH.
Qed.

(** A substitution whose class has no character in the text changes
    nothing. *)
Lemma sub_runs_absent (k : ascii -> bool) (new : string) (b : bool) (s : string) :
  Py.all_chars (fun c => negb (k c)) s = true -> sub_runs k new b s = s.
Proof.
  revert b. induction s as [|c s IH]; intros b; simpl; [reflexivity |].
  intros H. apply andb_true_iff in H. destruct H as [Hc Hs].
  destruct (k c); [discriminate |]. now rewrite IH.
Qed.

Lemma remove_chars_absent (k : ascii -> bool) (s : string) :
  Py.all_chars (fun c => negb (k c)) s = true -> remove_chars k s = s.
Proof.
  induction s as [|c s IH]; simpl; [reflexivity |].
  intros H. apply andb_true_iff in H. destruct H as [Hc Hs].
  destruct (k c); [discriminate |]. now rewrite IH.
Qed.

Lemma remove_chars_removed (k : ascii -> bool) (s : string) :
  Py.all_chars (fun c => negb (k c)) (remove_chars k s) = true.
Proof.
  induction s as [|c s IH]; simpl; [reflexivity |].
  destruct (k c) eqn:E; [exact IH |]. simpl. now rewrite E, IH.
Qed.

Lemma remove_chars_all_chars (p k : ascii -> bool) (s : string) :
  Py.all_chars p s = true -> Py.all_chars p (remove_chars k s) = true.
Proof.
  induction s as [|c s IH]; simpl; [reflexivity |].
  intros H. apply andb_true_iff in H. destruct H as [Hc Hs].
  destruct (k c); [auto |]. simpl. now rewrite Hc, IH.
Qed.

(** [s.replace(old, new)] changes nothing when [old] does not occur. *)
Lemma replace_absent (old new s : string) :
  Py.contains old s = false -> Py.replace old new s = s.
Proof.
  unfold Py.replace. induction s as [|c s IH]; [reflexivity |].
  intros H. cbn [Py.contains] in H. apply orb_false_iff in H. destruct H as [Hp Hs].
  cbn [Py.replace_from]. rewrite Hp. now rewrite IH.
Qed.

Lemma no_newline_no_break (s : string) :
  Py.all_chars (fun c => negb (is_newline c)) s = true ->
  Py.contains hyphen_newline s = false.
Proof.
  induction s as [|c s IH]; [reflexivity |].
  intros H. simpl in H. apply andb_true_iff in H. destruct H as [Hc Hs].
  cbn [Py.contains]. rewrite (IH Hs), orb_false_r.
  unfold hyphen_newline. cbn [prefix].
  destruct (Ascii.ascii_dec "-" c); [| reflexivity].
  destruct s as [|d s]; [reflexivity |].
  cbn [prefix].
  destruct (Ascii.ascii_dec (ascii_of_nat 10) d) as [<-|]; [| reflexivity].
  simpl in Hs. discriminate.
Qed.

Lemma blank_or_ink_no_newline (c : ascii) :
  blank_or_ink c = true -> negb (is_newline c) = true.
Proof.
  destruct c as [[] [] [] [] [] [] [] []]; vm_compute; congruence.
Qed.

Lemma collapsed_blank_or_ink (s : string) :
  Py.all_chars blank_or_ink (collapsed s) = true.
Proof. apply StripFacts.strip_all_chars, sub_runs_space. Qed.

Lemma collapsed_no_newline (s : string) :
  Py.all_chars (fun c => negb (is_newline c)) (collapsed s) = true.
Proof.
  eapply all_chars_weaken; [apply blank_or_ink_no_newline |].
  apply collapsed_blank_or_ink.
Qed.

(** The second and the third substitution of [normalize_text] find
    nothing to replace. *)
Lemma normalize_text_steps (s : string) :
  normalize_text (PStr s) = remove_chars control_char (collapsed s).
Proof.
  unfold normalize_text. fold (collapsed s).
  rewrite replace_absent by apply no_newline_no_break, collapsed_no_newline.
  now rewrite sub_runs_absent by apply collapsed_no_newline.
Qed.

(** ** Spacing *)

Lemma sub_runs_single (b : bool) (s : string) :
  single_spaced b (sub_runs Py.isspace " " b s) = true.
Proof.
  revert b. induction s as [|c s IH]; intros b; simpl; [reflexivity |].
  destruct (Py.isspace c) eqn:E.
  - destruct b; [apply IH |]. simpl. apply IH.
  - simpl. rewrite E. apply IH.
Qed.

Lemma single_fixed (b : bool) (s : string) :
  single_spaced b s = true -> sub_runs Py.isspace " " b s = s.
Proof.
  revert b. induction s as [|c s IH]; intros b; simpl; [reflexivity |].
  destruct (Py.isspace c) eqn:E.
  - intros H. apply andb_true_iff in H. destruct H as [H Hs].
    apply andb_true_iff in H. destruct H as [Hb Hc].
    destruct b; [discriminate |].
    apply Ascii.eqb_eq in Hc. subst c. simpl. now rewrite IH.
  - intros H. now rewrite IH.
Qed.

Lemma lstrip_single (b b' : bool) (s : string) :
  single_spaced b s = true -> single_spaced b' (Py.lstrip s) = true.
Proof.
  revert b. induction s as [|c s IH]; intros b; simpl; [reflexivity |].
  destruct (Py.isspace c) eqn:E.
  - intros H. apply andb_true_iff in H. destruct H as [_ Hs]. now apply IH with true.
  - intros H. simpl. now rewrite E.
Qed.

Lemma rstrip_single (b : bool) (s : string) :
  single_spaced b s = true -> single_spaced b (Py.rstrip s) = true.
Proof.
  revert b. induction s as [|c s IH]; intros b; [reflexivity |].
  cbn [single_spaced Py.rstrip].
  destruct (Py.isspace c) eqn:E.
  - intros H. apply andb_true_iff in H. destruct H as [H Hs].
    specialize (IH _ Hs). destruct (Py.rstrip s) as [|d t]; [reflexivity |].
    cbn [single_spaced]. rewrite E. cbn [single_spaced] in IH. now rewrite H, IH.
  - intros H. specialize (IH _ H). destruct (Py.rstrip s) as [|d t].
    + simpl. now rewrite E.
    + cbn [single_spaced]. rewrite E. exact IH.
Qed.

Lemma collapsed_single (s : string) : single_spaced false (collapsed s) = true.
Proof.
  unfold collapsed, Py.strip. apply rstrip_single.
  apply lstrip_single with false. apply sub_runs_single.
Qed.

Lemma collapsed_idempotent (s : string) : collapsed (collapsed s) = collapsed s.
Proof.
  unfold collapsed at 1. rewrite single_fixed by apply collapsed_single.
  unfold collapsed. apply StripFacts.strip_idempotent.
Qed.

Lemma control_is_not_blank : negb (control_char " ") = true.
Proof. reflexivity. Qed.

Lemma collapsed_no_control (s : string) :
  Py.all_chars (fun c => negb (control_char c)) s = true ->
  Py.all_chars (fun c => negb (control_char c)) (collapsed s) = true.
Proof.
  intros H. unfold collapsed. apply StripFacts.strip_all_chars.
  now apply sub_runs_all_chars.
Qed.

(** On a text without control characters [normalize_text] is the first
    step alone. *)
Lemma normalize_text_plain (s : string) :
  Py.all_chars (fun c => negb (control_char c)) s = true ->
  normalize_text (PStr s) = collapsed s.
Proof.
  intros H. rewrite normalize_text_steps.
  now apply remove_chars_absent, collapsed_no_control.
Qed.

(** ** A word broken at the end of a line *)

Lemma sub_runs_ink (k : ascii -> bool) (new : string) (a t : string) :
  a <> "" ->
  Py.all_chars (fun c => negb (k c)) a = true ->
  forall b, sub_runs k new b (a ++ t) = (a ++ sub_runs k new false t)%string.
Proof.
  induction a as [|c a IH]; [congruence |]. intros _ H b.
  simpl in H. apply andb_true_iff in H. destruct H as [Hc Ha].
  apply negb_true_iff in Hc. cbn [append sub_runs]. rewrite Hc. f_equal.
  destruct a as [|d a']; [reflexivity |].
  now apply IH.
Qed.

Lemma printable_no_control (c : ascii) :
  printable c = true -> negb (control_char c) = true.
Proof. destruct c as [[] [] [] [] [] [] [] []]; vm_compute; congruence. Qed.

Lemma normalize_text_broken_word (a b : string) :
  Py.all_chars printable a = true -> Py.all_chars printable b = true ->
  Py.all_chars (fun c => negb (Py.isspace c)) a = true ->
  Py.all_chars (fun c => negb (Py.isspace c)) b = true ->
  a <> "" -> b <> "" ->
  normalize_text (PStr (a ++ hyphen_newline ++ b)) = (a ++ "- " ++ b)%string.
Proof.
  intros Ha Hb Hsa Hsb Hna Hnb.
  rewrite normalize_text_steps. unfold collapsed.
  rewrite (sub_runs_ink Py.isspace " " _ Hna Hsa).
  unfold hyphen_newline. cbn [append sub_runs].
  replace (Py.isspace "-") with false by reflexivity.
  replace (Py.isspace (ascii_of_nat 10)) with true by reflexivity.
  cbn [append].
  replace (sub_runs Py.isspace " " true b) with b.
  2: { symmetry. rewrite <- (append_nil_r b) at 1.
       rewrite (sub_runs_ink Py.isspace " " "" Hnb Hsb). apply append_nil_r. }
  assert (Hstrip : Py.strip (a ++ String "-" (String " " b)) = (a ++ "- " ++ b)%string).
  { change (String "-" (String " " b)) with ("- " ++ b)%string.
    destruct a as [|c a']; [congruence |].
    apply (@StripFacts.strip_fixed _ c (a' ++ "- " ++ b)); [reflexivity | |].
    - simpl in Hsa. apply andb_true_iff in Hsa. destruct Hsa as [Hc _].
      now apply negb_true_iff in Hc.
    - replace (String c a' ++ "- " ++ b)%string with ((String c a' ++ "- ") ++ b)%string
        by (now rewrite append_assoc).
      now apply StripFacts.rstrip_tail. }
  rewrite Hstrip. apply remove_chars_absent.
  rewrite all_chars_append.
  rewrite (all_chars_weaken _ _ a printable_no_control Ha).
  cbn [append Py.all_chars].
  rewrite (all_chars_weaken _ _ b printable_no_control Hb). reflexivity.
Qed.

End NormalizeFacts.
(* ================================================================== *)
(** * [validate_input]: what is accepted *)
(* ================================================================== *)

Module ValidateFacts.

Import TextProcessing StringFacts.

(** What [validate_input] accepts, for every [max_length]. *)
Lemma validate_input_max_accepts (s : string) (max_length : Z) :
  fst (validate_input_max (PStr s) max_length) = true <->
  Py.strip s <> "" /\ Py.len (Py.strip s) <= max_length
  /\ forall p, In p suspicious_patterns -> ~ Re.occurs true p (Py.strip s).
Proof.
  unfold validate_input_max.
  destruct (Py.strip s) as [|c t] eqn:E.
  - simpl. split; [discriminate | intros [H _]; congruence].
  - cbn [Py.truthy negb].
    destruct (Py.len (String c t) >? max_length) eqn:Hl.
    + simpl. split; [discriminate |]. intros [_ [H _]].
      apply Z.gtb_lt in Hl. lia.
    + destruct (existsb (fun q => Re.search true q (String c t)) suspicious_patterns) eqn:Hs.
      * simpl. split; [discriminate |]. intros [_ [_ H]].
        apply existsb_exists in Hs. destruct Hs as [p [Hin Hp]].
        exfalso. apply (H p Hin). now apply ReFacts.search_spec.
      * simpl. split; [intros _ | reflexivity].
        split; [discriminate |]. split.
        -- rewrite Z.gtb_ltb in Hl; apply Z.ltb_ge in Hl. lia.
        -- intros p Hin Hocc. apply ReFacts.search_spec in Hocc.
           assert (Ht : existsb (fun q => Re.search true q (String c t)) suspicious_patterns
                        = true)
             by (apply existsb_exists; exists p; split; assumption).
           congruence.
Qed.

(** ** Literal patterns under [re.IGNORECASE] *)

Lemma lit_matches (w mid : string) :
  Py.map_chars Py.lower mid = Py.map_chars Py.lower w ->
  Re.matches true (Re.lit w) mid.
Proof.
  revert mid. induction w as [|a w IH]; intros mid H.
  - apply map_chars_nil in H. subst. constructor.
  - destruct mid as [|c mid]; [discriminate |].
    simpl in H. injection H as Hc Hm.
    change (String c mid) with (String c "" ++ mid)%string.
    cbn [Re.lit]. constructor; [| now apply IH].
    constructor. simpl. rewrite Hc. apply Ascii.eqb_refl.
Qed.

Lemma isspace_lower (c : ascii) : Py.isspace (Py.lower c) = Py.isspace c.
Proof. destruct c as [[] [] [] [] [] [] [] []]; reflexivity. Qed.

Lemma nonspace_lower (mid : string) :
  Py.all_chars (fun c => negb (Py.isspace c)) (Py.map_chars Py.lower mid) = true ->
  Py.all_chars (fun c => negb (Py.isspace c)) mid = true.
Proof.
  induction mid as [|c mid IH]; simpl; [reflexivity |].
  rewrite isspace_lower. intros H. apply andb_true_iff in H.
  destruct H as [Hc Hm]. now rewrite Hc, IH.
Qed.

(** A piece that starts and ends with something else than white space
    and in which a pattern occurs makes the input suspicious, wherever
    it stands. *)
Lemma occurs_in_strip (p : Re.regex) (s pre mid post : string) (c : ascii) (rest : string) :
  s = (pre ++ mid ++ post)%string ->
  mid = String c rest ->
  Py.isspace c = false ->
  Py.rstrip mid = mid ->
  Re.matches true p mid ->
  Re.occurs true p (Py.strip s).
Proof.
  intros -> Hmid Hc Hr Hm.
  destruct (@StripFacts.strip_keeps pre mid post c rest Hmid Hc Hr) as (pre' & post' & E).
  exists pre', mid, post'. split; assumption.
Qed.

Lemma suspicious_rejected (p : Re.regex) (s : string) (max_length : Z) :
  In p suspicious_patterns ->
  Re.occurs true p (Py.strip s) ->
  fst (validate_input_max (PStr s) max_length) = false.
Proof.
  intros Hin Hocc.
  destruct (fst (validate_input_max (PStr s) max_length)) eqn:E; [| reflexivity].
  apply validate_input_max_accepts in E. destruct E as (_ & _ & H).
  exfalso. exact (H p Hin Hocc).
Qed.

(** A word without white space, in any case of its letters, is found by
    its literal pattern wherever it stands in the input. *)
Lemma literal_rejected (w : string) (s pre mid post : string) (max_length : Z) :
  In (Re.lit w) suspicious_patterns ->
  w <> "" ->
  Py.all_chars (fun c => negb (Py.isspace c)) (Py.map_chars Py.lower w) = true ->
  s = (pre ++ mid ++ post)%string ->
  Py.map_chars Py.lower mid = Py.map_chars Py.lower w ->
  fst (validate_input_max (PStr s) max_length) = false.
Proof.
  intros Hin Hw Hns Hs Hmid.
  assert (Hmns : Py.all_chars (fun c => negb (Py.isspace c)) mid = true)
    by (apply nonspace_lower; now rewrite Hmid).
  destruct mid as [|c rest].
  { destruct w; [congruence | discriminate]. }
  apply suspicious_rejected with (Re.lit w); [assumption |].
  eapply occurs_in_strip; [exact Hs | reflexivity | | | ].
  - simpl in Hmns. apply andb_true_iff in Hmns. destruct Hmns as [Hc _].
    now apply negb_true_iff in Hc.
  - now apply StripFacts.rstrip_nonspace.
  - now apply lit_matches.
Qed.

(** ** The patterns with classes *)

Lemma star_class (k : Re.cls) (x : string) :
  Py.all_chars (Re.cls_match true k) x = true ->
  Re.matches true (Re.Star (Re.Chr k)) x.
Proof.
  induction x as [|c x IH]; simpl; [constructor |].
  intros H. apply andb_true_iff in H. destruct H as [Hc Hx].
  change (String c x) with (String c "" ++ x)%string.
  constructor; [now constructor | now apply IH].
Qed.

Lemma plus_class (k : Re.cls) (x : string) :
  x <> "" ->
  Py.all_chars (Re.cls_match true k) x = true ->
  Re.matches true (Re.plus (Re.Chr k)) x.
Proof.
  destruct x as [|c x]; [congruence |]. intros _ H. simpl in H.
  apply andb_true_iff in H. destruct H as [Hc Hx].
  change (String c x) with (String c "" ++ x)%string.
  constructor; [now constructor | now apply star_class].
Qed.

(** [on\w+\s*=]: an attribute that starts with "on", in any case, then
    white space or none, then the equals sign. *)
Lemma handler_rejected (s pre o w sp post : string) (max_length : Z) :
  s = (pre ++ (o ++ w ++ sp ++ "=") ++ post)%string ->
  Py.map_chars Py.lower o = "on" ->
  w <> "" ->
  Py.all_chars (Re.cls_match true Re.Word) w = true ->
  Py.all_chars Py.isspace sp = true ->
  fst (validate_input_max (PStr s) max_length) = false.
Proof.
  intros Hs Ho Hw Hword Hsp.
  apply suspicious_rejected with pat_handler; [simpl; auto |].
  destruct o as [|c o']; [discriminate |].
  eapply occurs_in_strip; [exact Hs | reflexivity | | | ].
  - simpl in Ho. injection Ho as Hc _. rewrite <- isspace_lower, Hc. reflexivity.
  - replace (String c o' ++ w ++ sp ++ "=")%string
      with ((String c o' ++ w ++ sp) ++ "=")%string
      by (now rewrite !append_assoc).
    apply StripFacts.rstrip_tail; [discriminate | reflexivity].
  - unfold pat_handler. constructor; [now apply lit_matches |].
    constructor; [now apply plus_class |].
    constructor; [now apply star_class |].
    apply (lit_matches "=" "="). reflexivity.
Qed.

(** [<script.*?>.*?</script>]: an opening and a closing tag, in any
    case, with no line break in between. *)
Lemma script_rejected (s pre a x y b post : string) (max_length : Z) :
  s = (pre ++ (a ++ x ++ ">" ++ y ++ b) ++ post)%string ->
  Py.map_chars Py.lower a = "<script" ->
  Py.map_chars Py.lower b = "</script>" ->
  Py.all_chars (Re.cls_match true Re.Dot) x = true ->
  Py.all_chars (Re.cls_match true Re.Dot) y = true ->
  fst (validate_input_max (PStr s) max_length) = false.
Proof.
  intros Hs Ha Hb Hx Hy.
  apply suspicious_rejected with pat_script; [simpl; auto |].
  destruct a as [|c a']; [discriminate |].
  eapply occurs_in_strip; [exact Hs | reflexivity | | | ].
  - simpl in Ha. injection Ha as Hc _. rewrite <- isspace_lower, Hc. reflexivity.
  - replace (String c a' ++ x ++ ">" ++ y ++ b)%string
      with ((String c a' ++ x ++ ">" ++ y) ++ b)%string
      by (now rewrite !append_assoc).
    apply StripFacts.rstrip_tail.
    + destruct b; [discriminate | discriminate].
    + apply nonspace_lower. now rewrite Hb.
  - unfold pat_script. constructor; [now apply lit_matches |].
    constructor; [now apply star_class |].
    constructor; [apply (lit_matches ">" ">"); reflexivity |].
    constructor; [now apply star_class |].
    now apply lit_matches.
Qed.

End ValidateFacts.
(* ================================================================== *)
(** * [sanitize_filename] and [chunk_text]: more properties *)
(* ================================================================== *)

Module SanitizeFacts.

Import TextProcessing StringFacts.

Lemma prefix_dotdot_head (c d : ascii) (s : string) :
  d <> "."%char -> prefix dotdot (String c (String d s)) = false.
Proof.
  intros Hd. unfold dotdot. cbn [prefix].
  destruct (Ascii.ascii_dec "." c); [| reflexivity].
  destruct (Ascii.ascii_dec "." d); [congruence | reflexivity].
Qed.

Lemma prefix_dotdot_first (c : ascii) (s : string) :
  c <> "."%char -> prefix dotdot (String c s) = false.
Proof.
  intros Hc. unfold dotdot. cbn [prefix].
  destruct (Ascii.ascii_dec "." c); [congruence | reflexivity].
Qed.

(** Once [replace('..', '')] has run, no [..] is left. *)
Lemma replace_dotdot_from (s : string) :
  forall skip, Py.contains dotdot (Py.replace_from dotdot "" skip s) = false.
Proof.
  induction s as [|c s IH]; intros skip; [reflexivity |].
  cbn [Py.replace_from]. destruct skip as [|k]; [| apply IH].
  destruct (prefix dotdot (String c s)) eqn:Hp; [apply IH |].
  cbn [Py.contains]. rewrite IH, orb_false_r.
  destruct s as [|d s']; [exact Hp |].
  destruct (Ascii.ascii_dec d ".") as [->|Hd].
  - (* the next character is a dot: this one is not *)
    apply prefix_dotdot_first. intros ->. destruct s'; vm_compute in Hp; discriminate.
  - cbn [Py.replace_from]. rewrite (@prefix_dotdot_first d s' Hd).
    now apply prefix_dotdot_head.
Qed.

Lemma replace_dotdot (s : string) :
  Py.contains dotdot (Py.replace dotdot "" s) = false.
Proof. apply replace_dotdot_from. Qed.

(** The substitution of the unsafe characters keeps the dots where they
    are and makes no new one. *)
Lemma sub_unsafe_dot (c : ascii) :
  Ascii.eqb (if filename_char c then c else "_"%char) "." = Ascii.eqb c ".".
Proof. destruct c as [[] [] [] [] [] [] [] []]; reflexivity. Qed.

Lemma prefix_dotdot_eq (s : string) :
  prefix dotdot s
  = match s with
    | String c (String d _) => (Ascii.eqb c "." && Ascii.eqb d ".")%bool
    | _ => false
    end.
Proof.
  unfold dotdot. destruct s as [|c [|d s']]; cbn [prefix]; [reflexivity | |].
  - destruct (Ascii.ascii_dec "." c); reflexivity.
  - destruct (Ascii.ascii_dec "." c) as [<-|Hc].
    + destruct (Ascii.ascii_dec "." d) as [<-|Hd]; [now destruct s' |].
      destruct (Ascii.eqb_spec d "."); [congruence | reflexivity].
    + destruct (Ascii.eqb_spec c "."); [congruence | reflexivity].
Qed.

Lemma sub_unsafe_prefix (s : string) :
  prefix dotdot (sub_unsafe s) = prefix dotdot s.
Proof.
  rewrite !prefix_dotdot_eq. unfold sub_unsafe.
  destruct s as [|c [|d s']]; cbn [Py.map_chars]; [reflexivity | reflexivity |].
  now rewrite !sub_unsafe_dot.
Qed.

Lemma sub_unsafe_dotdot (s : string) :
  Py.contains dotdot (sub_unsafe s) = Py.contains dotdot s.
Proof.
  induction s as [|c s IH]; [reflexivity |].
  change (sub_unsafe (String c s))
    with (String (if filename_char c then c else "_"%char) (sub_unsafe s)).
  cbn [Py.contains]. rewrite IH. f_equal.
  apply (sub_unsafe_prefix (String c s)).
Qed.

Lemma sub_unsafe_fixed (s : string) :
  Py.all_chars filename_char s = true -> sub_unsafe s = s.
Proof.
  unfold sub_unsafe. induction s as [|c s IH]; simpl; [reflexivity |].
  intros H. apply andb_true_iff in H. destruct H as [Hc Hs].
  now rewrite Hc, IH.
Qed.

(** Removing the [..] brings in no character that was not there. *)
Lemma replace_dotdot_absent (c : ascii) (s : string) :
  Py.contains (String c "") s = false ->
  Py.contains (String c "") (Py.replace dotdot "" s) = false.
Proof.
  unfold Py.replace. generalize 0%nat.
  induction s as [|x s IH]; intros skip H; [reflexivity |].
  cbn [Py.contains] in H. apply orb_false_iff in H. destruct H as [Hx Hs].
  cbn [Py.replace_from]. destruct skip; [| now apply IH].
  destruct (prefix dotdot (String x s)); [now apply IH |].
  cbn [Py.contains]. rewrite (IH _ Hs), orb_false_r.
  cbn [prefix] in *.
  destruct (Ascii.ascii_dec c x); [exfalso; destruct s; discriminate | reflexivity].
Qed.

(** Without a separator in the name the result holds no [..]. *)
Lemma sanitize_filename_no_dotdot (s : string) :
  Py.contains "/" s = false ->
  Py.contains "\" s = false ->
  Py.contains dotdot (sanitize_filename (PStr s)) = false.
Proof.
  intros Hslash Hback. unfold sanitize_filename.
  assert (H1 : Py.contains "/" (Py.replace dotdot "" s) = false /\
               Py.contains "\" (Py.replace dotdot "" s) = false).
  { split; now apply replace_dotdot_absent. }
  destruct H1 as [H1 H2].
  fold dotdot.
  rewrite (NormalizeFacts.replace_absent "/" "" _ H1).
  rewrite (NormalizeFacts.replace_absent "\" "" _ H2).
  destruct (negb (Py.truthy (sub_unsafe (Py.replace dotdot "" s)))); [reflexivity |].
  rewrite sub_unsafe_dotdot. apply replace_dotdot.
Qed.

(** A name of allowed characters, not empty and without [..], is
    returned as it is. *)
Lemma sanitize_filename_fixed (s : string) :
  s <> "" ->
  Py.all_chars filename_char s = true ->
  Py.contains dotdot s = false ->
  sanitize_filename (PStr s) = s.
Proof.
  intros Hne Hall Hdd. unfold sanitize_filename. fold dotdot.
  rewrite (NormalizeFacts.replace_absent dotdot "" _ Hdd).
  rewrite (NormalizeFacts.replace_absent "/" "" s)
    by (eapply TextFacts.all_chars_excludes; [exact Hall | reflexivity]).
  rewrite (NormalizeFacts.replace_absent "\" "" s)
    by (eapply TextFacts.all_chars_excludes; [exact Hall | reflexivity]).
  rewrite (sub_unsafe_fixed _ Hall).
  destruct s; [congruence | reflexivity].
Qed.

End SanitizeFacts.

(* ================================================================== *)
(** * Reasoning about computations *)
(* ================================================================== *)

Module MonadFacts.

Section Facts.

Variable W : Type.

Local Abbreviation total := (@total W).
Local Abbreviation keeps := (@keeps W).
Local Abbreviation hoare := (@hoare W).

(** *** [total] *)

Lemma total_ret {S A} (a : A) : total (S := S) (ret a).
Proof. intros w s. now exists a. Qed.

Lemma total_bind {S A B} (m : M W S A) (k : A -> M W S B) :
  total m -> (forall a, total (k a)) -> total (bind m k).
Proof.
  intros Hm Hk w s. unfold bind. destruct (Hm w s) as [a Ha].
  destruct (m w s) as [o w1 s1 t1]. simpl in Ha. subst o.
  destruct (Hk a w1 s1) as [b Hb]. destruct (k a w1 s1). simpl in *. now exists b.
Qed.

Lemma total_try_except {S A} (m : M W S A) (h : exn -> M W S A) :
  (forall e, total (h e)) -> total (try_except m h).
Proof.
  intros Hh w s. unfold try_except. destruct (m w s) as [[a|e] w1 s1 t1].
  - now exists a.
  - destruct (Hh e w1 s1) as [b Hb]. destruct (h e w1 s1). simpl in *. now exists b.
Qed.

Lemma total_get {S} : total (S := S) get.
Proof. intros w s. now exists s. Qed.

Lemma total_modify {S} (f : S -> S) : total (modify f).
Proof. intros w s. now exists tt. Qed.

Lemma total_put {S} (s0 : S) : total (put s0).
Proof. intros w s. now exists tt. Qed.

Lemma total_emit {S} (e : event) : total (S := S) (emit e).
Proof. intros w s. now exists tt. Qed.

Lemma total_log {S} (l : level) (msg : string) : total (S := S) (log l msg).
Proof. apply total_emit. Qed.

Lemma total_ask {S A} (f : W -> A) : total (S := S) (ask f).
Proof. intros w s. now exists (f w). Qed.

Lemma total_effect {S} (e : event) (f : W -> W) : total (S := S) (effect e f).
Proof. intros w s. now exists tt. Qed.

(** *** [keeps] *)

Lemma keeps_ret {S A T} (f : S -> T) (a : A) : keeps f (ret a).
Proof. intros w s. reflexivity. Qed.

Lemma keeps_raise {S A T} (f : S -> T) (e : exn) : keeps f (raise (A := A) e).
Proof. intros w s. reflexivity. Qed.

Lemma keeps_bind {S A B T} (f : S -> T) (m : M W S A) (k : A -> M W S B) :
  keeps f m -> (forall a, keeps f (k a)) -> keeps f (bind m k).
Proof.
  intros Hm Hk w s. unfold bind. specialize (Hm w s).
  destruct (m w s) as [[a|e] w1 s1 t1]; simpl in *; [| assumption].
  specialize (Hk a w1 s1). destruct (k a w1 s1). simpl in *. congruence.
Qed.

Lemma keeps_try_except {S A T} (f : S -> T) (m : M W S A) (h : exn -> M W S A) :
  keeps f m -> (forall e, keeps f (h e)) -> keeps f (try_except m h).
Proof.
  intros Hm Hh w s. unfold try_except. specialize (Hm w s).
  destruct (m w s) as [[a|e] w1 s1 t1]; simpl in *; [assumption |].
  specialize (Hh e w1 s1). destruct (h e w1 s1). simpl in *. congruence.
Qed.

Lemma keeps_get {S T} (f : S -> T) : keeps f get.
Proof. intros w s. reflexivity. Qed.

Lemma keeps_modify {S T} (f : S -> T) (g : S -> S) :
  (forall s, f (g s) = f s) -> keeps f (modify g).
Proof. intros H w s. apply H. Qed.

Lemma keeps_emit {S T} (f : S -> T) (e : event) : keeps f (emit e).
Proof. intros w s. reflexivity. Qed.

Lemma keeps_log {S T} (f : S -> T) (l : level) (msg : string) : keeps f (log l msg).
Proof. intros w s. reflexivity. Qed.

Lemma keeps_call {S A T} (f : S -> T) (c : component) (op : string)
      (g : W -> outcome A * W) : keeps f (call c op g).
Proof. intros w s. reflexivity. Qed.

Lemma keeps_ask {S A T} (f : S -> T) (g : W -> A) : keeps f (ask g).
Proof. intros w s. reflexivity. Qed.

Lemma keeps_effect {S T} (f : S -> T) (e : event) (g : W -> W) : keeps f (effect e g).
Proof. intros w s. reflexivity. Qed.

Lemma keeps_for_each {S A T} (f : S -> T) (xs : list A) (body : A -> M W S unit) :
  (forall x, keeps f (body x)) -> keeps f (for_each xs body).
Proof.
  intros Hb. induction xs as [|x xs IH]; simpl.
  - apply keeps_ret.
  - apply keeps_bind; auto.
Qed.

(** *** Triples: from a state where [P] holds the computation returns,
    with [Q] of its result and of the state it leaves *)

Lemma hoare_ret {S A} (P : S -> Prop) (Q : A -> S -> Prop) (a : A) :
  (forall s, P s -> Q a s) -> hoare P (ret a) Q.
Proof. intros H w s Hp. exists a. split; [reflexivity | now apply H]. Qed.

Lemma hoare_bind {S A B} (P : S -> Prop) (R : A -> S -> Prop) (Q : B -> S -> Prop)
      (m : M W S A) (k : A -> M W S B) :
  hoare P m R -> (forall a, hoare (R a) (k a) Q) -> hoare P (bind m k) Q.
Proof.
  intros Hm Hk w s Hp. unfold bind. destruct (Hm w s Hp) as [a [Ha Hr]].
  destruct (m w s) as [o w1 s1 t1]. simpl in *. subst o.
  destruct (Hk a w1 s1 Hr) as [b [Hb Hq]].
  destruct (k a w1 s1). simpl in *. exists b. auto.
Qed.

Lemma hoare_log {S} (P : S -> Prop) (l : level) (msg : string) :
  hoare P (log l msg) (fun _ => P).
Proof. intros w s Hp. exists tt. auto. Qed.

Lemma hoare_modify {S} (P Q : S -> Prop) (f : S -> S) :
  (forall s, P s -> Q (f s)) -> hoare P (modify f) (fun _ => Q).
Proof. intros H w s Hp. exists tt. split; [reflexivity | now apply H]. Qed.

Lemma hoare_weaken {S A} (P : S -> Prop) (Q Q' : A -> S -> Prop) (m : M W S A) :
  hoare P m Q -> (forall a s, Q a s -> Q' a s) -> hoare P m Q'.
Proof.
  intros H Hq w s Hp. destruct (H w s Hp) as [a [Ha Hqa]]. exists a. auto.
Qed.

End Facts.

Create HintDb total.
Create HintDb keeps.

#[export] Hint Resolve total_ret total_bind total_try_except total_get total_modify
  total_put total_emit total_log total_ask total_effect : total.
#[export] Hint Resolve keeps_ret keeps_raise keeps_bind keeps_try_except keeps_get
  keeps_emit keeps_log keeps_call keeps_ask keeps_effect keeps_for_each : keeps.

(** Run the monad's own operations, and the setters, and nothing else. *)
Ltac mrun :=
  cbv beta iota zeta
      delta [bind try_except call log emit get ret raise ask effect modify put zoom
             set_embedding_model set_vector_db set_llm set_is_ready
             set_document_service set_rag_service set_system_ready
             set_initialization_error];
  cbn [app negb andb orb res world state trace fst snd
       document_service rag_service system_ready initialization_error
       embedding_model vector_db llm is_ready].

(** Find an event in a trace that is written with [::] and [++]. *)
Ltac in_trace :=
  solve [ assumption
        | apply in_eq
        | apply in_cons; in_trace
        | apply in_or_app; left; in_trace
        | apply in_or_app; right; in_trace ].

End MonadFacts.

(* ================================================================== *)
(** * services/rag_service.py: properties *)
(* ================================================================== *)

Module ServiceFacts.

Import MonadFacts.

#[local] Arguments TextProcessing.validate_input : simpl never.
#[local] Arguments _create_rag_prompt : simpl never.
#[local] Arguments Py.str_of_Z : simpl never.
#[local] Arguments Py.slice : simpl never.
#[local] Arguments Py.strip : simpl never.
#[local] Arguments String.append : simpl never.

Section Facts.

Context {X : External}.

(** ** [generate_response] *)

Lemma generate_response_no_llm (query context : string) (w : World) (self : RAGService) :
  llm self = None ->
  generate_response query context w self
  = Result (Ret ("LLM not available", UNAVAILABLE)) w self [].
Proof.
  intros H. unfold generate_response. mrun. rewrite H. reflexivity.
Qed.

Lemma generate_response_invalid (query context : string) (w : World)
      (self : RAGService) (h : LLM) :
  llm self = Some h ->
  fst (TextProcessing.validate_input (PStr query)) = false ->
  generate_response query context w self
  = Result (Ret (("Invalid input: "
                    ++ snd (TextProcessing.validate_input (PStr query)))%string,
                 UNAVAILABLE))
           w self [].
Proof.
  intros H Hv. unfold generate_response. mrun. rewrite H. mrun. rewrite Hv. reflexivity.
Qed.

Lemma generate_response_calls_llm (query context : string) (w : World)
      (self : RAGService) (h : LLM) :
  llm self = Some h ->
  fst (TextProcessing.validate_input (PStr query)) = true ->
  let gen := llm_invoke h (fst (prompt_and_mode query context)) w in
  generate_response query context w self
  = Result (Ret (answer_of query context (fst gen))) (snd gen) self
           (Log INFO ("Generating response with "
                        ++ ChatMode_value (snd (prompt_and_mode query context))
                        ++ " mode")
              :: Call Generator "invoke"
              :: match fst gen with
                 | Ret _ => []
                 | Raise e => [Log ERROR ("Error generating response: " ++ exn_str e)]
                 end).
Proof.
  intros H Hv gen. unfold generate_response. mrun. rewrite H. mrun. rewrite Hv. mrun.
  fold gen. destruct (fst gen); reflexivity.
Qed.

Lemma generate_response_total (query context : string) :
  total (generate_response query context).
Proof.
  unfold generate_response. apply total_bind; [apply total_get |].
  intros self. destruct (llm self); [| apply total_ret].
  apply total_try_except. intros e. auto with total.
Qed.

Lemma generate_response_keeps (query context : string) :
  keeps (fun s => s) (generate_response query context).
Proof.
  unfold generate_response. apply keeps_bind; [apply keeps_get |].
  intros self. destruct (llm self); [| apply keeps_ret].
  apply keeps_try_except.
  - destruct (negb _); auto 10 with keeps.
  - intros e. auto with keeps.
Qed.


(** ** [search_similar_documents] *)

Lemma search_no_store (query : string) (k : option Z) (w : World) (self : RAGService) :
  vector_db self = None ->
  search_similar_documents query k w self
  = Result (Ret ("", [])) w self [Log ERROR "Vector database not initialized"].
Proof.
  intros H. unfold search_similar_documents. mrun. rewrite H. reflexivity.
Qed.

Lemma search_invalid (query : string) (k : option Z) (w : World) (self : RAGService)
      (db : VectorDB) :
  vector_db self = Some db ->
  fst (TextProcessing.validate_input (PStr query)) = false ->
  search_similar_documents query k w self
  = Result (Ret ("", [])) w self
           [Log WARNING ("Invalid search query: "
                           ++ snd (TextProcessing.validate_input (PStr query)))].
Proof.
  intros H Hv. unfold search_similar_documents. mrun. rewrite H. mrun. rewrite Hv.
  reflexivity.
Qed.

Lemma search_runs (query : string) (k : option Z) (w : World) (self : RAGService)
      (db : VectorDB) :
  vector_db self = Some db ->
  fst (TextProcessing.validate_input (PStr query)) = true ->
  let hits := similarity_search_with_score db query (k_or_default k) w in
  search_similar_documents query k w self
  = Result (Ret (found_of (fst hits))) (snd hits) self
           (Log INFO ("Searching for similar documents: query='" ++ Py.slice query 0 50
                        ++ "...', k=" ++ Py.str_of_Z (k_or_default k))
              :: Call IndexStore "similarity_search_with_score"
              :: match fst hits with
                 | Ret [] => [Log INFO "No similar documents found"]
                 | Ret similar_docs =>
                     [Log INFO ("Found " ++ Py.str_of_Z (Z.of_nat (length similar_docs))
                                  ++ " similar documents")]
                 | Raise e =>
                     [Log ERROR ("Error searching similar documents: " ++ exn_str e)]
                 end).
Proof.
  intros H Hv hits.
  unfold search_similar_documents. mrun. rewrite H. mrun. rewrite Hv. mrun.
  fold (k_or_default k). fold hits.
  destruct (fst hits) as [[|d ds]|e]; reflexivity.
Qed.

Lemma search_keeps (query : string) (k : option Z) :
  keeps (fun s => s) (search_similar_documents query k).
Proof.
  unfold search_similar_documents. apply keeps_bind; [apply keeps_get |].
  intros self. destruct (vector_db self); [| auto with keeps].
  apply keeps_try_except.
  - destruct (negb _); [auto with keeps |].
    apply keeps_bind; [apply keeps_log |]. intros _.
    apply keeps_bind; [apply keeps_call |]. intros [|d ds]; auto with keeps.
  - intros e. auto with keeps.
Qed.

Lemma search_total (query : string) (k : option Z) :
  total (search_similar_documents query k).
Proof.
  unfold search_similar_documents. apply total_bind; [apply total_get |].
  intros self. destruct (vector_db self); [| auto with total].
  apply total_try_except. intros e. auto with total.
Qed.

(** ** The routes of [app.py] *)

Lemma same_rag (g : Globals) (rag : RAGService) :
  rag_service g = Some rag ->
  {| document_service := document_service g; rag_service := Some rag;
     system_ready := system_ready g;
     initialization_error := initialization_error g |} = g.
Proof. intros H. destruct g; simpl in *. now rewrite H. Qed.

Lemma on_rag_run {A} (m : M World RAGService A) (w : World) (g : Globals)
      (rag : RAGService) :
  rag_service g = Some rag ->
  on_rag m w g
  = Result (res (m w rag)) (world (m w rag))
           {| document_service := document_service g;
              rag_service := Some (state (m w rag));
              system_ready := system_ready g;
              initialization_error := initialization_error g |}
           (trace (m w rag)).
Proof. intros H. unfold on_rag, zoom. rewrite H. now destruct (m w rag). Qed.

(** A method that does not write to the service leaves the globals alone. *)
Lemma on_rag_pure {A} (m : M World RAGService A) (w : World) (g : Globals)
      (rag : RAGService) :
  rag_service g = Some rag ->
  keeps (fun s => s) m ->
  on_rag m w g = Result (res (m w rag)) (world (m w rag)) g (trace (m w rag)).
Proof.
  intros H Hk. rewrite (on_rag_run m w g H). rewrite (Hk w rag).
  now rewrite (same_rag g H).
Qed.

Lemma is_rag_ready_keeps :
  keeps (W := World) (fun s => s) (self <- get;; ret (S := RAGService) (is_rag_ready self)).
Proof. auto with keeps. Qed.

Lemma api_chat_not_json (request : Request) (w : World) (g : Globals) :
  is_json request = false ->
  api_chat request w g
  = Result (Ret (respond 400 (ErrorBody "Request must be JSON" None))) w g [].
Proof. intros H. unfold api_chat. rewrite H. reflexivity. Qed.

Lemma api_chat_unavailable (request : Request) (w : World) (g : Globals) :
  is_json request = true ->
  serving g = false ->
  api_chat request w g
  = Result (Ret (respond 503
                   (ErrorBody "System unavailable"
                      (Some (or_default (initialization_error g) "System not ready")))))
           w g [].
Proof.
  intros Hj Hs. unfold api_chat. rewrite Hj. mrun.
  unfold serving in Hs.
  destruct (system_ready g); cbn [negb andb orb] in *; [| reflexivity].
  destruct (rag_service g) as [rag|]; [| reflexivity].
  rewrite Hs. reflexivity.
Qed.

(** A parsed request is answered with what [chat_answer] returns. *)
Lemma api_chat_answers (request : Request) (w : World) (g : Globals)
      (chat_request : ChatRequest) a w1 g1 t1 :
  is_json request = true ->
  serving g = true ->
  ChatRequest_from_dict (get_json request) = Ret chat_request ->
  chat_answer chat_request (effective_k chat_request) w g = Result (Ret a) w1 g1 t1 ->
  api_chat request w g
  = Result (Ret (respond 200 (ChatBody (make_chat_response chat_request a))))
           w1 g1
           (Log INFO ("Processing chat request: '"
                        ++ Py.slice (message chat_request) 0 50 ++ "...'")
              :: t1
              ++ [Log INFO ("Response generated in "
                              ++ ChatMode_value (snd (fst (fst a))) ++ " mode")]).
Proof.
  intros Hj Hs Hp Ha. unfold api_chat. rewrite Hj. mrun.
  unfold serving in Hs.
  destruct (system_ready g); cbn [negb andb orb] in *; [| discriminate].
  destruct (rag_service g) as [rag|]; [| discriminate].
  rewrite Hs. cbn [negb]. rewrite Hp. rewrite Ha. mrun.
  reflexivity.
Qed.

(** The three branches of [chat_answer]. *)

Lemma chat_answer_llm_only (chat_request : ChatRequest) (k : Z) (w : World)
      (g : Globals) (rag : RAGService) answer w1 t1 :
  rag_service g = Some rag ->
  is_rag_ready rag = false ->
  generate_response (message chat_request) "" w rag = Result (Ret answer) w1 rag t1 ->
  chat_answer chat_request k w g
  = Result (Ret (fst answer, snd answer, [], "LLM-only mode (no documents available)"))
           w1 g t1.
Proof.
  intros Hr Hn Hg. unfold chat_answer.
  unfold bind at 1. rewrite (on_rag_pure w g Hr is_rag_ready_keeps).
  mrun. rewrite Hn.
  rewrite (on_rag_pure w g Hr (generate_response_keeps _ _)).
  rewrite Hg. mrun. now rewrite app_nil_r.
Qed.

Lemma chat_answer_retrieval (chat_request : ChatRequest) (k : Z) (w : World)
      (g : Globals) (rag : RAGService) context sources w1 t1 answer w2 t2 :
  rag_service g = Some rag ->
  is_rag_ready rag = true ->
  search_similar_documents (message chat_request) (Some k) w rag
  = Result (Ret (context, sources)) w1 rag t1 ->
  generate_response (message chat_request) context w1 rag
  = Result (Ret answer) w2 rag t2 ->
  chat_answer chat_request k w g
  = Result (Ret (fst answer, snd answer,
                 (if Py.truthy context then sources else []),
                 (if Py.truthy context
                  then "Used " ++ Py.str_of_Z (Z.of_nat (length sources))
                               ++ " document sources"
                  else "No relevant documents found, using LLM-only mode")%string))
           w2 g (t1 ++ t2).
Proof.
  intros Hr Hn Hf Hg. unfold chat_answer.
  unfold bind at 1. rewrite (on_rag_pure w g Hr is_rag_ready_keeps).
  mrun. rewrite Hn.
  rewrite (on_rag_pure w g Hr (search_keeps _ _)).
  rewrite Hf. mrun.
  destruct context as [|c context']; cbn [Py.truthy].
  - rewrite (on_rag_pure w1 g Hr (generate_response_keeps _ _)).
    rewrite Hg. mrun. now rewrite app_nil_r.
  - rewrite (on_rag_pure w1 g Hr (generate_response_keeps _ _)).
    rewrite Hg. mrun. now rewrite app_nil_r.
Qed.

(** A message that does not pass [validate_input] reaches no component. *)
Lemma api_chat_invalid_message (request : Request) (chat_request : ChatRequest)
      (w : World) (g : Globals) :
  ChatRequest_from_dict (get_json request) = Ret chat_request ->
  fst (TextProcessing.validate_input (PStr (message chat_request))) = false ->
  let r := api_chat request w g in
  component_calls (trace r) = [] /\ world r = w /\ state r = g.
Proof.
  intros Hp Hv r. subst r.
  destruct (is_json request) eqn:Hj; [| now rewrite api_chat_not_json].
  destruct (serving g) eqn:Hs; [| now rewrite api_chat_unavailable].
  assert (Hs' := Hs). unfold serving in Hs'.
  destruct (system_ready g); [| discriminate].
  destruct (rag_service g) as [rag|] eqn:Hr; [| discriminate].
  cbn [andb] in Hs'. unfold is_available in Hs'.
  destruct (llm rag) as [h|] eqn:Hl; [| discriminate].
  destruct (is_rag_ready rag) eqn:Hready.
  - assert (Hdb : exists db, vector_db rag = Some db).
    { unfold is_rag_ready in Hready. destruct (vector_db rag) as [db|]; [eauto |].
      rewrite andb_false_r in Hready. discriminate. }
    destruct Hdb as [db Hdb].
    rewrite (api_chat_answers request w g Hj Hs Hp
               (chat_answer_retrieval chat_request (effective_k chat_request) w g
                  Hr Hready
                  (search_invalid (message chat_request)
                                  (Some (effective_k chat_request)) w rag Hdb Hv)
                  (generate_response_invalid (message chat_request) "" w rag Hl Hv))).
    repeat split.
  - rewrite (api_chat_answers request w g Hj Hs Hp
               (chat_answer_llm_only chat_request (effective_k chat_request) w g
                  Hr Hready
                  (generate_response_invalid (message chat_request) "" w rag Hl Hv))).
    repeat split.
Qed.

End Facts.

End ServiceFacts.

(* ================================================================== *)
(** * app.py: initialization *)
(* ================================================================== *)

Module InitFacts.

Import MonadFacts ServiceFacts.

#[local] Arguments TextProcessing.validate_input : simpl never.
#[local] Arguments TextProcessing.sanitize_filename : simpl never.
#[local] Arguments Py.str_of_Z : simpl never.
#[local] Arguments Py.slice : simpl never.
#[local] Arguments Py.strip : simpl never.
#[local] Arguments String.append : simpl never.

(** Follow the program text to show that a view of the state is kept. *)
Ltac keeps_tac :=
  repeat first
    [ progress intros
    | apply keeps_ret | apply keeps_raise | apply keeps_get | apply keeps_log
    | apply keeps_emit | apply keeps_call | apply keeps_ask | apply keeps_effect
    | apply keeps_modify; intros; reflexivity
    | apply keeps_bind | apply keeps_try_except | apply keeps_for_each
    | progress unfold set_embedding_model, set_vector_db, set_is_ready
    | match goal with
      | |- keeps _ (match ?x with _ => _ end) => destruct x
      end ].

Ltac total_tac :=
  repeat first
    [ progress intros
    | apply total_ret | apply total_get | apply total_log | apply total_emit
    | apply total_ask | apply total_effect | apply total_modify | apply total_put
    | apply total_bind | apply total_try_except
    | progress unfold set_embedding_model, set_vector_db, set_llm, set_is_ready,
        set_system_ready, set_initialization_error, set_document_service, set_rag_service
    | match goal with
      | |- total (match ?x with _ => _ end) => destruct x
      end ].

Section Facts.

Context {X : External}.

(** ** The methods never raise, and only [initialize_llm] and [clear]
    write the LLM handle *)

Lemma initialize_embedding_model_total : total initialize_embedding_model.
Proof. unfold initialize_embedding_model. total_tac. Qed.

Lemma initialize_embedding_model_keeps_llm : keeps llm initialize_embedding_model.
Proof. unfold initialize_embedding_model. keeps_tac. Qed.

Lemma initialize_llm_total : total initialize_llm.
Proof. unfold initialize_llm. total_tac. Qed.

Lemma check_total (cs : list Document) : total (_check_vector_store_rebuild cs).
Proof. unfold _check_vector_store_rebuild. total_tac. Qed.

Lemma check_keeps_llm (cs : list Document) : keeps llm (_check_vector_store_rebuild cs).
Proof. unfold _check_vector_store_rebuild. keeps_tac. Qed.

Lemma check_keeps_embedding (cs : list Document) :
  keeps embedding_model (_check_vector_store_rebuild cs).
Proof. unfold _check_vector_store_rebuild. keeps_tac. Qed.

Lemma clean_once_keeps {S} : keeps (fun s : S => s) clean_once.
Proof. unfold clean_once. keeps_tac. Qed.

Lemma clean_attempts_keeps {S} (n : nat) :
  forall attempt, keeps (fun s : S => s) (clean_attempts n attempt).
Proof.
  induction n as [|n IH]; intros attempt; simpl.
  - apply keeps_ret.
  - apply keeps_bind.
    + apply keeps_try_except; [pose proof (@clean_once_keeps S) |]; keeps_tac.
    + intros [|]; [apply keeps_ret | apply IH].
Qed.

Lemma clean_keeps {S} : keeps (fun s : S => s) _clean_vector_store_directory.
Proof.
  unfold _clean_vector_store_directory. apply keeps_bind; [apply keeps_ask |].
  intros b. destruct (negb b); [apply keeps_ret | apply clean_attempts_keeps].
Qed.

Lemma keeps_view {S A T} (f : S -> T) (m : M World S A) :
  keeps (fun s => s) m -> keeps f m.
Proof. intros H w s. now rewrite H. Qed.

Lemma rebuild_total (cs : list Document) : total (_rebuild_vector_store cs).
Proof. unfold _rebuild_vector_store. total_tac. Qed.

Lemma rebuild_keeps_llm (cs : list Document) : keeps llm (_rebuild_vector_store cs).
Proof.
  unfold _rebuild_vector_store.
  pose proof (keeps_view llm (@clean_keeps RAGService)). keeps_tac.
Qed.

Lemma rebuild_keeps_embedding (cs : list Document) :
  keeps embedding_model (_rebuild_vector_store cs).
Proof.
  unfold _rebuild_vector_store.
  pose proof (keeps_view embedding_model (@clean_keeps RAGService)). keeps_tac.
Qed.

Lemma initialize_vector_store_total (cs : list Document) :
  total (initialize_vector_store cs).
Proof. unfold initialize_vector_store. total_tac. Qed.

Lemma initialize_vector_store_keeps_llm (cs : list Document) :
  keeps llm (initialize_vector_store cs).
Proof.
  unfold initialize_vector_store.
  pose proof (check_keeps_llm cs). pose proof (rebuild_keeps_llm cs). keeps_tac.
Qed.

Lemma initialize_vector_store_keeps_embedding (cs : list Document) :
  keeps embedding_model (initialize_vector_store cs).
Proof.
  unfold initialize_vector_store.
  pose proof (check_keeps_embedding cs). pose proof (rebuild_keeps_embedding cs).
  keeps_tac.
Qed.

Lemma load_documents_total : total load_documents.
Proof. unfold load_documents. total_tac. Qed.

Lemma create_chunks_total : total create_chunks.
Proof. unfold create_chunks. total_tac. Qed.


(** ** [Config.validate] *)

Lemma Config_validate_run {S} (w : World) (s : S) :
  exists o w1 t,
    Config_validate w s = Result (Ret o) w1 s t
    /\ (t = [] \/ t = [Call FileSystem "makedirs"]).
Proof.
  unfold Config_validate.
  destruct (GROQ_API_KEY config) as [[|c key]|]; mrun.
  - eauto 6.
  - destruct (os_path_exists (PDF_FOLDER config) w); mrun; [eauto 6 |].
    destruct (fst (os_makedirs (PDF_FOLDER config) w)); mrun; eauto 6.
  - eauto 6.
Qed.

(** ** [initialize_llm] *)

Lemma initialize_llm_cases (w : World) (s : RAGService) :
  let r := initialize_llm w s in
  (res r = Ret (true, None)
   /\ (exists h, llm (state r) = Some h)
   /\ In llm_ok_line (trace r))
  \/ (exists err, res r = Ret (false, Some err)
                  /\ ~ In llm_ok_line (trace r)
                  /\ (llm s = None -> llm (state r) = None)).
Proof.
  unfold initialize_llm, llm_ok_line.
  destruct (GROQ_API_KEY config) as [[|c key]|]; mrun.
  - right. eexists. repeat split; auto.
  - destruct (ChatGroq (GROQ_MODEL_NAME config) (String c key) w) as [[h|e] w1]; mrun.
    + destruct (llm_invoke h "Hello" w1) as [[r|e] w2]; mrun.
      * left. repeat split; [eexists; reflexivity | simpl; auto 6].
      * right. eexists. repeat split.
        intros [H|[H|[H|[H|[]]]]]; discriminate H.
    + right. eexists. repeat split.
      intros [H|[H|[H|[]]]]; discriminate H.
  - right. eexists. repeat split; auto.
Qed.

(** ** The steps after the LLM *)

Lemma on_docs_wired {A} (m : M World DocumentService A) l d :
  total m -> hoare (wired l d) (on_docs m) (fun _ => wired l d).
Proof.
  intros Ht w g [[docs Hd] [Hr He]]. unfold on_docs, zoom. rewrite Hd.
  destruct (Ht w docs) as [a Ha]. destruct (m w docs) as [o w1 docs1 t1].
  simpl in *. subst o. exists a. split; [reflexivity |].
  repeat split; simpl; eauto.
Qed.

Lemma on_rag_wired {A} (m : M World RAGService A) l d :
  total m -> keeps llm m -> hoare (wired l d) (on_rag m) (fun _ => wired l d).
Proof.
  intros Ht Hk w g [Hd [[rag [Hr Hl]] He]]. unfold on_rag, zoom. rewrite Hr.
  destruct (Ht w rag) as [a Ha]. specialize (Hk w rag).
  destruct (m w rag) as [o w1 rag1 t1].
  simpl in *. subst o. exists a. split; [reflexivity |].
  repeat split; simpl; eauto. exists rag1. split; congruence.
Qed.

(** The way every soft failure ends: a warning, [system_ready = True],
    [return True]. *)
Lemma finish_ready {A} (m : M World Globals A) l d :
  hoare (wired l d) m (fun _ => wired l d) ->
  hoare (wired l d) (m;; set_system_ready true;; ret true)
        (fun b g => b = true /\ system_ready g = true /\ wired l d g).
Proof.
  intros Hm. eapply hoare_bind; [exact Hm |]. intros ?.
  eapply hoare_bind.
  - apply hoare_modify with (Q := fun g => system_ready g = true /\ wired l d g).
    intros g [Hd [Hr He]]. simpl. repeat split; assumption.
  - intros ?. apply hoare_ret. intros g [H1 H2]. auto.
Qed.

Lemma initialize_after_llm_ok l d :
  hoare (wired l d) initialize_after_llm
        (fun b g => b = true /\ system_ready g = true /\ wired l d g).
Proof.
  unfold initialize_after_llm.
  eapply hoare_bind; [apply on_docs_wired, load_documents_total |]. intros doc.
  destruct (negb (fst doc)); [apply finish_ready, hoare_log |].
  eapply hoare_bind; [apply on_docs_wired, create_chunks_total |]. intros chunk.
  destruct (negb (fst chunk)); [apply finish_ready, hoare_log |].
  eapply hoare_bind;
    [apply on_rag_wired;
     [apply initialize_embedding_model_total | apply initialize_embedding_model_keeps_llm] |].
  intros embed.
  destruct (negb (fst embed)); [apply finish_ready, hoare_log |].
  eapply hoare_bind; [apply on_docs_wired; total_tac |]. intros cs.
  eapply hoare_bind;
    [apply on_rag_wired;
     [apply initialize_vector_store_total | apply initialize_vector_store_keeps_llm] |].
  intros vector.
  destruct (negb (fst vector)); [apply finish_ready, hoare_log |].
  eapply hoare_bind.
  - apply hoare_modify with (Q := fun g => system_ready g = true /\ wired l d g).
    intros g [Hd [Hr He]]. simpl. repeat split; assumption.
  - intros ?.
    eapply hoare_bind with (R := fun _ g => system_ready g = true /\ wired l d g).
    + intros w g [Hs [Hd [[rag [Hr Hl]] He]]]. unfold on_rag, zoom. rewrite Hr. mrun.
      eexists. split; [reflexivity |]. rewrite (same_rag g Hr).
      repeat split; eauto.
    + intros ready. eapply hoare_bind with (R := fun _ g => system_ready g = true /\ wired l d g).
      * destruct ready; intros w g H; (exists tt; auto).
      * intros ?. apply hoare_ret. intros g [H1 H2]. auto.
Qed.

End Facts.

End InitFacts.

(* ================================================================== *)
(** * services/rag_service.py: the vector store on disk *)
(* ================================================================== *)

Module StoreFacts.

Import MonadFacts ServiceFacts InitFacts.

#[local] Arguments TextProcessing.validate_input : simpl never.
#[local] Arguments Py.str_of_Z : simpl never.
#[local] Arguments Py.slice : simpl never.
#[local] Arguments Py.strip : simpl never.
#[local] Arguments String.append : simpl never.

(** ** A service without a store answers from the LLM alone *)

Section LLMOnly.

Context {X : External}.

Lemma llm_only_service (rag : RAGService) :
  is_rag_ready rag = false -> serves_llm_only rag.
Proof.
  intros Hn request chat_request g w h Hj Hs Hr Hl Hp Hv gen r. subst r.
  assert (Hserving : serving g = true)
    by (unfold serving, is_available; now rewrite Hs, Hr, Hl).
  pose proof (generate_response_calls_llm (message chat_request) "" w rag Hl Hv) as Hgen.
  cbv zeta in Hgen. unfold prompt_and_mode in Hgen. cbn [Py.truthy fst snd] in Hgen.
  fold gen in Hgen.
  rewrite (api_chat_answers request w g Hj Hserving Hp
             (chat_answer_llm_only chat_request (effective_k chat_request) w g
                                   Hr Hn Hgen)).
  cbn [res state trace]. unfold make_chat_response. cbn [fst snd].
  repeat split.
  - destruct (fst gen); reflexivity.
  - destruct (fst gen); reflexivity.
Qed.

End LLMOnly.

(** ** Erasing a directory that stays locked *)

Section LockedDirectory.

Context {X : External}.

(** The worlds in which another process holds the persist directory. *)
Variable Locked : World -> Prop.

Hypothesis locked_exists :
  forall w, Locked w -> os_path_exists (CHROMA_PERSIST_DIR config) w = true.

(** Every pass over the directory ends in a [PermissionError], and the
    directory is still locked after it. *)
Hypothesis locked_fails :
  forall w (s : RAGService),
    Locked w ->
    exists msg w' t,
      clean_once w s = Result (Raise (Exn PermissionError msg)) w' s t /\ Locked w'.

Hypothesis locked_sleep : forall w, Locked w -> Locked (time_sleep RETRY_DELAY w).

Hypothesis locked_gc : forall w, Locked w -> Locked (gc_collect w).

Lemma clean_attempts_locked (n : nat) :
  forall (attempt : Z) (w : World) (s : RAGService),
    Locked w ->
    (1 <= n)%nat ->
    attempt + Z.of_nat n = MAX_REBUILD_ATTEMPTS ->
    exists w' t,
      clean_attempts n attempt w s = Result (Ret tt) w' s t
      /\ Locked w'
      /\ In clean_failed_line t.
Proof.
  induction n as [|n IH]; intros attempt w s Hw Hn Hsum; [lia |].
  destruct (locked_fails s Hw) as (msg & w1 & t1 & Hc & Hw1).
  cbn [clean_attempts]. mrun. rewrite Hc. cbn [exn_cls]. mrun.
  destruct n as [|n].
  - (* the last attempt *)
    replace (attempt <? MAX_REBUILD_ATTEMPTS - 1) with false
      by (symmetry; apply Z.ltb_ge; lia).
    mrun. cbn [clean_attempts]. mrun.
    eexists _, _. split; [reflexivity |]. split; [assumption |].
    unfold clean_failed_line. in_trace.
  - (* an attempt that is followed by another *)
    replace (attempt <? MAX_REBUILD_ATTEMPTS - 1) with true
      by (symmetry; apply Z.ltb_lt; lia).
    mrun.
    destruct (IH (attempt + 1) (time_sleep RETRY_DELAY w1) s
                 (locked_sleep Hw1) ltac:(lia) ltac:(lia))
      as (w2 & t2 & Hrec & Hw2 & Hin).
    rewrite Hrec.
    eexists _, _. split; [reflexivity |]. split; [assumption |]. in_trace.
Qed.

Lemma clean_locked (w : World) (s : RAGService) :
  Locked w ->
  exists w' t,
    _clean_vector_store_directory w s = Result (Ret tt) w' s t
    /\ Locked w'
    /\ In clean_failed_line t.
Proof.
  intros Hw. unfold _clean_vector_store_directory. mrun.
  rewrite (locked_exists Hw). cbn [negb].
  destruct (clean_attempts_locked (n := Z.to_nat MAX_REBUILD_ATTEMPTS) 0 s Hw)
    as (w' & t & Hc & Hw' & Hin); [cbv; lia | reflexivity |].
  rewrite Hc. simpl. eauto.
Qed.

(** The rebuild goes on to build the new store, and the build decides. *)
Lemma rebuild_locked (cs : list Document) (w : World) (self : RAGService) :
  Locked w ->
  let r := _rebuild_vector_store cs w self in
  In clean_failed_line (trace r)
  /\ In (Call IndexStore "from_documents") (trace r)
  /\ exists wc,
      Locked wc
      /\ match fst (Chroma_from_documents cs (embedding_model self)
                                          (CHROMA_PERSIST_DIR config) wc) with
         | Ret db => res r = Ret true /\ vector_db (state r) = Some db
         | Raise _ => res r = Ret false /\ vector_db (state r) = None
         end.
Proof.
  intros Hw r. subst r. unfold _rebuild_vector_store. mrun.
  destruct (vector_db self) as [old|] eqn:Hold; cbn [some]; mrun.
  - destruct (clean_locked
                {| embedding_model := embedding_model self; vector_db := None;
                   llm := llm self; is_ready := is_ready self |}
                (locked_gc Hw))
      as (wc & t & Hc & Hwc & Hin).
    rewrite Hc. mrun.
    destruct (fst (Chroma_from_documents cs (embedding_model self)
                                         (CHROMA_PERSIST_DIR config) wc)) eqn:Hb; mrun.
    + split; [in_trace |].
      split; [in_trace |].
      exists wc. rewrite Hb. auto.
    + split; [in_trace |].
      split; [in_trace |].
      exists wc. rewrite Hb. auto.
  - destruct (clean_locked self Hw) as (wc & t & Hc & Hwc & Hin).
    rewrite Hc. mrun.
    destruct (fst (Chroma_from_documents cs (embedding_model self)
                                         (CHROMA_PERSIST_DIR config) wc)) eqn:Hb; mrun.
    + split; [in_trace |].
      split; [in_trace |].
      exists wc. rewrite Hb. auto.
    + split; [in_trace |].
      split; [in_trace |].
      exists wc. rewrite Hb. auto.
Qed.

End LockedDirectory.

(** ** The staleness check *)

Section Staleness.

Context {X : External}.

Lemma build_call_absent (t : list event) :
  forallb (fun e => negb (is_build_call e)) t = true ->
  ~ In (Call IndexStore "from_documents") t.
Proof.
  intros H Hin. rewrite forallb_forall in H. specialize (H _ Hin). discriminate H.
Qed.

(** The check agrees with the decision of the specification, loads the
    index it reuses, and writes nothing when it asks for a rebuild. *)
Lemma check_refines (cs : list Document) (w : World) (self : RAGService) :
  let r := _check_vector_store_rebuild cs w self in
  let seen := observe (embedding_model self) w in
  res r = Ret (stale cs seen)
  /\ (stale cs seen = false ->
      exists db, seen = Holds db (Z.of_nat (length cs)) /\ state r = with_store self db)
  /\ (stale cs seen = true -> state r = self)
  /\ forallb (fun e => negb (is_build_call e)) (trace r) = true.
Proof.
  cbv zeta. unfold _check_vector_store_rebuild, observe. mrun.
  destruct (os_path_exists (CHROMA_PERSIST_DIR config) w); cbn [negb]; mrun.
  2: { repeat split; try reflexivity. discriminate. }
  destruct (os_listdir (CHROMA_PERSIST_DIR config) w) as [[[|e es]|ex] w1];
    cbn [fst snd]; mrun.
  1, 3: repeat split; try reflexivity; discriminate.
  destruct (Chroma (CHROMA_PERSIST_DIR config) (embedding_model self) w1)
    as [[db|ex] w2]; cbn [fst snd]; mrun.
  2: { repeat split; try reflexivity. discriminate. }
  destruct (collection_count db w2) as [[n|ex] w3]; cbn [fst snd]; mrun.
  2: { repeat split; try reflexivity. discriminate. }
  cbn [stale].
  destruct (n =? Z.of_nat (length cs)) eqn:Hn; cbn [negb]; mrun.
  - apply Z.eqb_eq in Hn. subst n.
    repeat split; try reflexivity; [| discriminate].
    intros _. exists db. split; reflexivity.
  - repeat split; try reflexivity. discriminate.
Qed.

Lemma check_world (cs : list Document) (w : World) (self : RAGService) :
  IndexStoreContract -> world (_check_vector_store_rebuild cs w self) = w.
Proof.
  intros C. unfold _check_vector_store_rebuild. mrun.
  destruct (os_path_exists (CHROMA_PERSIST_DIR config) w); cbn [negb]; mrun;
    [| reflexivity].
  pose proof (listdir_reads C w) as H1.
  destruct (os_listdir (CHROMA_PERSIST_DIR config) w) as [[[|e es]|ex] w1];
    cbn [fst snd] in *; subst w1; mrun; try reflexivity.
  pose proof (load_reads C (embedding_model self) w) as H2.
  destruct (Chroma (CHROMA_PERSIST_DIR config) (embedding_model self) w)
    as [[db|ex] w2]; cbn [fst snd] in *; subst w2; mrun; try reflexivity.
  pose proof (count_reads C db w) as H3.
  destruct (collection_count db w) as [[n|ex] w3];
    cbn [fst snd] in *; subst w3; mrun; try reflexivity.
  destruct (n =? Z.of_nat (length cs)); reflexivity.
Qed.

Lemma observe_exists (emb : option Embeddings) (w : World) db n :
  observe emb w = Holds db n ->
  os_path_exists (CHROMA_PERSIST_DIR config) w = true.
Proof.
  unfold observe. destruct (os_path_exists _ w); [reflexivity | discriminate].
Qed.

(** With a fresh index on disk, [initialize_vector_store] reuses it
    and builds nothing. *)
Lemma fresh_is_reused (cs : list Document) (w : World) (self : RAGService)
      (m : Embeddings) (db : VectorDB) :
  IndexStoreContract ->
  embedding_model self = Some m ->
  cs <> [] ->
  observe (embedding_model self) w = Holds db (Z.of_nat (length cs)) ->
  let r := initialize_vector_store cs w self in
  res (_check_vector_store_rebuild cs w self) = Ret false
  /\ res r = Ret (true, None)
  /\ ~ In (Call IndexStore "from_documents") (trace r).
Proof.
  intros C Hm Hcs Hobs r. subst r.
  destruct (check_refines cs w self) as (Hres & Hfresh & _ & Hcalls).
  cbv zeta in Hres, Hfresh. rewrite Hobs in Hres, Hfresh.
  cbn [stale] in Hres, Hfresh. rewrite Z.eqb_refl in Hres, Hfresh.
  cbn [negb] in Hres, Hfresh.
  split; [exact Hres |].
  unfold initialize_vector_store. mrun. rewrite Hm. cbn [some negb].
  destruct cs as [|c cs']; [congruence |]. mrun.
  rewrite (makedirs_exist_ok C w (observe_exists _ _ Hobs)). cbn [fst snd].
  destruct (_check_vector_store_rebuild (c :: cs') w self) as [o w1 s1 t1].
  cbn [res trace] in Hres, Hcalls. subst o. mrun.
  split; [reflexivity |].
  apply build_call_absent. cbn [forallb is_build_call negb andb].
  rewrite forallb_app, Hcalls. reflexivity.
Qed.

Lemma rebuild_success (cs : list Document) (w : World) (self : RAGService) :
  let r := _rebuild_vector_store cs w self in
  res r = Ret true ->
  exists wc db,
    Chroma_from_documents cs (embedding_model self) (CHROMA_PERSIST_DIR config) wc
    = (Ret db, world r)
    /\ state r = with_store self db.
Proof.
  intros r. subst r. unfold _rebuild_vector_store. mrun.
  destruct (vector_db self) as [old|] eqn:Hold; cbn [some]; mrun.
  - match goal with
    | |- context [_clean_vector_store_directory ?w0 ?s0] =>
        pose proof (clean_keeps (S := RAGService) w0 s0) as Hk;
        destruct (_clean_vector_store_directory w0 s0) as [[[]|e] wc sc tc]
    end; cbn [state] in Hk; subst sc; mrun; [| discriminate].
    destruct (Chroma_from_documents cs (embedding_model self)
                                    (CHROMA_PERSIST_DIR config) wc)
      as [[db|e] w'] eqn:Hb; cbn [fst snd]; mrun; [| discriminate].
    intros _. exists wc, db. split; [exact Hb | reflexivity].
  - match goal with
    | |- context [_clean_vector_store_directory ?w0 ?s0] =>
        pose proof (clean_keeps (S := RAGService) w0 s0) as Hk;
        destruct (_clean_vector_store_directory w0 s0) as [[[]|e] wc sc tc]
    end; cbn [state] in Hk; subst sc; mrun; [| discriminate].
    destruct (Chroma_from_documents cs (embedding_model self)
                                    (CHROMA_PERSIST_DIR config) wc)
      as [[db|e] w'] eqn:Hb; cbn [fst snd]; mrun; [| discriminate].
    intros _. exists wc, db. split; [exact Hb |].
    unfold with_store. destruct self; cbn in *. now subst.
Qed.

(** Once [initialize_vector_store] has succeeded, the index on disk is
    fresh for the same chunks. *)
Lemma initialized_is_fresh (cs : list Document) (w : World) (self : RAGService) :
  IndexStoreContract ->
  let r := initialize_vector_store cs w self in
  res r = Ret (true, None) ->
  exists m db,
    embedding_model (state r) = Some m
    /\ cs <> []
    /\ observe (embedding_model (state r)) (world r) = Holds db (Z.of_nat (length cs)).
Proof.
  intros C r. subst r. unfold initialize_vector_store. mrun.
  destruct (embedding_model self) as [m|] eqn:Hm; cbn [some negb]; mrun;
    [| discriminate].
  destruct cs as [|c cs']; mrun; [discriminate |].
  destruct (os_makedirs (CHROMA_PERSIST_DIR config) w) as [[[]|e] w0];
    cbn [fst snd]; mrun; [| discriminate].
  destruct (check_refines (c :: cs') w0 self) as (Hres & Hfresh & Hstale & _).
  pose proof (check_world (c :: cs') w0 self C) as Hworld.
  cbv zeta in Hres, Hfresh, Hstale.
  destruct (_check_vector_store_rebuild (c :: cs') w0 self) as [o w1 s1 t1].
  cbn [res state world] in *. subst o w1.
  destruct (stale (c :: cs') (observe (embedding_model self) w0)) eqn:Hst; mrun.
  - (* stale: the rebuild *)
    rewrite (Hstale eq_refl).
    pose proof (rebuild_success (c :: cs') w0 self) as Hb. cbv zeta in Hb.
    destruct (_rebuild_vector_store (c :: cs') w0 self) as [[[|]|e] w2 s2 t2];
      cbn [res state world] in Hb; mrun; try discriminate.
    intros _. destruct (Hb eq_refl) as (wc & db & Hbuild & Hs2). subst s2.
    destruct (build_persists C _ _ _ Hbuild) as [db' Hobs].
    exists m, db'. cbn [with_store embedding_model]. rewrite Hm in *.
    repeat split; [discriminate | exact Hobs].
  - (* fresh *)
    intros _. destruct (Hfresh eq_refl) as (db & Hobs & Hs1). subst s1.
    exists m, db. cbn [with_store embedding_model]. rewrite Hm in *.
    repeat split; [discriminate | exact Hobs].
Qed.

End Staleness.

End StoreFacts.

(* ================================================================== *)
(** * Rounding the scores keeps their order *)
(* ================================================================== *)

Module RankFacts.

Local Open Scope Q_scope.






End RankFacts.

(* ================================================================== *)
(** * The concrete world meets the assumptions made of a backend *)
(* ================================================================== *)

Module ToyFacts.

Import Toy MonadFacts.

Lemma locked_exists (w : env) :
  is_locked w -> os_path_exists (CHROMA_PERSIST_DIR config) w = true.
Proof.
  intros [_ (e & es & Hd)]. simpl. now rewrite Hd.
Qed.

Lemma locked_fails (w : env) (s : RAGService) :
  is_locked w ->
  exists msg w' t,
    clean_once w s = Result (Raise (Exn PermissionError msg)) w' s t /\ is_locked w'.
Proof.
  intros [Hl (e & es & Hd)].
  exists lock_message, w,
    [Call FileSystem "listdir"; Call FileSystem "unlink"].
  split; [| split; eauto].
  unfold clean_once. mrun. cbn. unfold listdir. rewrite Hd. cbn. mrun. cbn.
  unfold remove. rewrite Hl. reflexivity.
Qed.

Lemma locked_sleep (w : env) : is_locked w -> is_locked (time_sleep RETRY_DELAY w).
Proof. auto. Qed.

Lemma locked_gc (w : env) : is_locked w -> is_locked (gc_collect w).
Proof. auto. Qed.

Lemma locked_is_locked : is_locked locked.
Proof. split; [reflexivity | now exists "chroma.sqlite3", ["index"]]. Qed.

Lemma contract : IndexStoreContract (X := external).
Proof.
  constructor.
  - intros w. simpl. unfold listdir. now destruct (dir w).
  - reflexivity.
  - reflexivity.
  - intros w. simpl. unfold makedirs. simpl. now destruct (dir w).
  - intros cs emb w db w' H. exists tt. simpl in H. unfold from_documents in H.
    destruct (build_up w); [| discriminate]. inversion H; subst; clear H.
    unfold observe. simpl. unfold listdir. simpl.
    destruct (match dir w with Some l => l | None => [] end); reflexivity.
Qed.

End ToyFacts.
(* ================================================================== *)
(** * services/rag_service.py: the handles and the retries *)
(* ================================================================== *)

Module HandleFacts.

Import MonadFacts ServiceFacts InitFacts StoreFacts.

#[local] Arguments TextProcessing.validate_input : simpl never.
#[local] Arguments Py.str_of_Z : simpl never.
#[local] Arguments Py.slice : simpl never.
#[local] Arguments Py.strip : simpl never.
#[local] Arguments String.append : simpl never.

Section Facts.

Context {X : External}.

(** ** Erasing the persist directory *)

Lemma clean_attempts_total {S} (n : nat) :
  forall attempt, total (clean_attempts (S := S) n attempt).
Proof.
  induction n as [|n IH]; intros attempt; cbn [clean_attempts].
  - apply total_ret.
  - apply total_bind.
    + apply total_try_except. intros e. total_tac.
    + intros [|]; [apply total_ret | apply IH].
Qed.

Lemma clean_total {S} : total (_clean_vector_store_directory (S := S)).
Proof.
  unfold _clean_vector_store_directory. apply total_bind; [apply total_ask |].
  intros b. destruct (negb b); [apply total_ret | apply clean_attempts_total].
Qed.

(** What [_clean_vector_store_directory] makes of a run: it returns,
    with the state it was given. *)
Lemma clean_run {S} (w : World) (s : S) :
  exists w' t, _clean_vector_store_directory w s = Result (Ret tt) w' s t.
Proof.
  destruct (clean_total (S := S) w s) as [[] Hr].
  pose proof (clean_keeps (S := S) w s) as Hk.
  destruct (_clean_vector_store_directory w s) as [o w' s' t].
  cbn [res state] in *. subst. now exists w', t.
Qed.

(** ** [_rebuild_vector_store] *)

Lemma rebuild_cases (cs : list Document) (w : World) (self : RAGService) :
  let r := _rebuild_vector_store cs w self in
  In (Call IndexStore "from_documents") (trace r)
  /\ ((res r = Ret true /\ exists db, vector_db (state r) = Some db)
      \/ (res r = Ret false /\ vector_db (state r) = None))
  /\ llm (state r) = llm self
  /\ embedding_model (state r) = embedding_model self
  /\ is_ready (state r) = is_ready self.
Proof.
  cbv zeta. unfold _rebuild_vector_store. mrun.
  destruct (vector_db self) as [old|] eqn:Hold; cbn [some]; mrun.
  - match goal with
    | |- context [_clean_vector_store_directory ?w0 ?s0] =>
        destruct (clean_run w0 s0) as (wc & tc & Hc); rewrite Hc
    end. mrun.
    destruct (Chroma_from_documents cs (embedding_model self)
                                    (CHROMA_PERSIST_DIR config) wc)
      as [[db|e] w'] eqn:Hb; cbn [fst snd]; mrun.
    + split; [in_trace |]. split; [left; eauto |]. auto.
    + split; [in_trace |]. split; [right; eauto |]. auto.
  - match goal with
    | |- context [_clean_vector_store_directory ?w0 ?s0] =>
        destruct (clean_run w0 s0) as (wc & tc & Hc); rewrite Hc
    end. mrun.
    destruct (Chroma_from_documents cs (embedding_model self)
                                    (CHROMA_PERSIST_DIR config) wc)
      as [[db|e] w'] eqn:Hb; cbn [fst snd]; mrun.
    + split; [in_trace |]. split; [left; eauto |]. auto.
    + split; [in_trace |]. split; [right; eauto |]. auto.
Qed.

(** ** [initialize_vector_store] *)

Lemma initialize_vector_store_cases (cs : list Document) (w : World)
      (self : RAGService) (m : Embeddings) :
  embedding_model self = Some m ->
  cs <> [] ->
  let r := initialize_vector_store cs w self in
  (res r = Ret (true, None) /\ exists db, vector_db (state r) = Some db)
  \/ (exists err, res r = Ret (false, Some err) /\ vector_db (state r) = None).
Proof.
  intros Hm Hcs. cbv zeta. unfold initialize_vector_store. mrun.
  rewrite Hm. cbn [some negb].
  destruct cs as [|c cs']; [congruence |]. mrun.
  destruct (os_makedirs (CHROMA_PERSIST_DIR config) w) as [[[]|e] w0];
    cbn [fst snd]; mrun.
  2: { right. eauto. }
  destruct (check_refines (c :: cs') w0 self) as (Hres & Hfresh & Hstale & _).
  cbv zeta in Hres, Hfresh, Hstale.
  destruct (_check_vector_store_rebuild (c :: cs') w0 self) as [o w1 s1 t1].
  cbn [res state world] in *. subst o.
  destruct (stale (c :: cs') (observe (embedding_model self) w0)) eqn:Hst; mrun.
  - rewrite (Hstale eq_refl).
    destruct (rebuild_cases (c :: cs') w1 self) as (_ & Hb & _).
    cbv zeta in Hb.
    destruct (_rebuild_vector_store (c :: cs') w1 self) as [[[|]|e] w2 s2 t2];
      cbn [res state] in Hb; mrun.
    + left. destruct Hb as [[_ Hdb]|[Hf _]]; [auto | discriminate].
    + right. destruct Hb as [[Hf _]|[_ Hn]]; [discriminate | eauto].
    + destruct Hb as [[Hf _]|[Hf _]]; discriminate.
  - left. split; [reflexivity |].
    destruct (Hfresh eq_refl) as (db & _ & Hs1). subst s1.
    exists db. reflexivity.
Qed.

(** ** Counting the passes and the pauses *)

Lemma count_app (p : event -> bool) (t1 t2 : list event) :
  count p (t1 ++ t2) = (count p t1 + count p t2)%nat.
Proof. unfold count. now rewrite filter_app, length_app. Qed.

Lemma remove_entries_trace {S} (items : list string) :
  forall (w : World) (s : S),
    let r := for_each items
               (fun item =>
                  let item_path := os_path_join (CHROMA_PERSIST_DIR config) item in
                  is_dir <- ask (os_path_isdir item_path);;
                  if is_dir then call FileSystem "rmtree" (shutil_rmtree item_path)
                  else call FileSystem "unlink" (os_unlink item_path)) w s in
    count is_listdir (trace r) = 0%nat /\ count is_sleep (trace r) = 0%nat.
Proof.
  induction items as [|item items IH]; intros w s; cbn [for_each]; [split; reflexivity |].
  cbv zeta. mrun.
  destruct (os_path_isdir (os_path_join (CHROMA_PERSIST_DIR config) item) w); mrun.
  - destruct (shutil_rmtree (os_path_join (CHROMA_PERSIST_DIR config) item) w)
      as [[[]|e] w1]; cbn [fst snd]; [| split; reflexivity].
    specialize (IH w1 s). cbv zeta in IH.
    destruct (for_each items _ w1 s) as [o w2 s2 t2]. cbn [trace] in *.
    exact IH.
  - destruct (os_unlink (os_path_join (CHROMA_PERSIST_DIR config) item) w)
      as [[[]|e] w1]; cbn [fst snd]; [| split; reflexivity].
    specialize (IH w1 s). cbv zeta in IH.
    destruct (for_each items _ w1 s) as [o w2 s2 t2]. cbn [trace] in *.
    exact IH.
Qed.

(** One pass lists the directory once and does not pause. *)
Lemma clean_once_trace {S} (w : World) (s : S) :
  count is_listdir (trace (clean_once w s)) = 1%nat
  /\ count is_sleep (trace (clean_once w s)) = 0%nat.
Proof.
  unfold clean_once. mrun.
  destruct (os_listdir (CHROMA_PERSIST_DIR config) w) as [[items|e] w1];
    cbn [fst snd]; [| split; reflexivity].
  pose proof (remove_entries_trace items w1 s) as H. cbv zeta in H.
  destruct (for_each items _ w1 s) as [o w2 s2 t2]. cbn [trace] in *.
  destruct H as [H1 H2]. split.
  - change (count is_listdir (Call FileSystem "listdir" :: t2))
      with (Datatypes.S (count is_listdir t2)). now rewrite H1.
  - exact H2.
Qed.

(** The loop makes no more passes than it has turns, and pauses only
    after a turn that is not the last one. *)
Lemma clean_attempts_counts {S} (n : nat) :
  forall (attempt : Z) (w : World) (s : S),
    0 <= attempt ->
    let r := clean_attempts n attempt w s in
    (count is_listdir (trace r) <= n)%nat
    /\ (count is_sleep (trace r) <= Z.to_nat (MAX_REBUILD_ATTEMPTS - 1 - attempt))%nat.
Proof.
  induction n as [|n IH]; intros attempt w s Ha; cbv zeta.
  - cbn. split; lia.
  - cbn [clean_attempts]. mrun.
    destruct (clean_once_trace w s) as [H1 H2].
    destruct (clean_once w s) as [[[]|e] w1 s1 t1]; cbn [trace] in H1, H2; mrun.
    + rewrite !app_nil_r. split; lia.
    + destruct (exn_cls e); mrun;
        try (rewrite !count_app, H1, H2; cbn; split; lia).
      destruct (attempt <? MAX_REBUILD_ATTEMPTS - 1) eqn:Hlt; mrun.
      * apply Z.ltb_lt in Hlt.
        specialize (IH (attempt + 1) (time_sleep RETRY_DELAY w1) s1 ltac:(lia)).
        cbv zeta in IH.
        destruct (clean_attempts n (attempt + 1) (time_sleep RETRY_DELAY w1) s1)
          as [o w2 s2 t2].
        cbn [trace] in *. destruct IH as [I1 I2].
        rewrite !count_app, H1, H2.
        change (count is_listdir [Log WARNING _; Sleep RETRY_DELAY]) with 0%nat.
        change (count is_sleep [Log WARNING _; Sleep RETRY_DELAY]) with 1%nat.
        unfold MAX_REBUILD_ATTEMPTS in *. split; lia.
      * apply Z.ltb_ge in Hlt.
        specialize (IH (attempt + 1) w1 s1 ltac:(lia)). cbv zeta in IH.
        destruct (clean_attempts n (attempt + 1) w1 s1) as [o w2 s2 t2].
        cbn [trace] in *. destruct IH as [I1 I2].
        rewrite !count_app, H1, H2.
        change (count is_listdir [Log WARNING _; Log ERROR _]) with 0%nat.
        change (count is_sleep [Log WARNING _; Log ERROR _]) with 0%nat.
        unfold MAX_REBUILD_ATTEMPTS in *. split; lia.
Qed.

End Facts.

End HandleFacts.
(* ================================================================== *)
(** * services/document_service.py: properties *)
(* ================================================================== *)

Module DocumentFacts.

Import MonadFacts ServiceFacts InitFacts.

#[local] Arguments TextProcessing.sanitize_filename : simpl never.
#[local] Arguments Py.str_of_Z : simpl never.
#[local] Arguments Py.strip : simpl never.
#[local] Arguments String.append : simpl never.

Section Invariants.

Variable W : Type.

Local Abbreviation preserves := (@preserves W).

Lemma preserves_ret {S A} (I : S -> Prop) (a : A) : preserves I (ret a).
Proof. intros w s H. exact H. Qed.

Lemma preserves_raise {S A} (I : S -> Prop) (e : exn) : preserves I (raise (A := A) e).
Proof. intros w s H. exact H. Qed.

Lemma preserves_get {S} (I : S -> Prop) : preserves I get.
Proof. intros w s H. exact H. Qed.

Lemma preserves_log {S} (I : S -> Prop) (l : level) (msg : string) :
  preserves I (log l msg).
Proof. intros w s H. exact H. Qed.

Lemma preserves_call {S A} (I : S -> Prop) (c : component) (op : string)
      (f : W -> outcome A * W) :
  preserves I (call c op f).
Proof. intros w s H. exact H. Qed.

Lemma preserves_ask {S A} (I : S -> Prop) (f : W -> A) : preserves I (ask f).
Proof. intros w s H. exact H. Qed.

Lemma preserves_modify {S} (I : S -> Prop) (f : S -> S) :
  (forall s, I s -> I (f s)) -> preserves I (modify f).
Proof. intros Hf w s H. now apply Hf. Qed.

Lemma preserves_bind {S A B} (I : S -> Prop) (m : M W S A) (k : A -> M W S B) :
  preserves I m -> (forall a, preserves I (k a)) -> preserves I (bind m k).
Proof.
  intros Hm Hk w s H. unfold bind. specialize (Hm w s H).
  destruct (m w s) as [[a|e] w1 s1 t1]; cbn [state] in *; [| exact Hm].
  specialize (Hk a w1 s1 Hm). now destruct (k a w1 s1).
Qed.

Lemma preserves_try_except {S A} (I : S -> Prop) (m : M W S A) (h : exn -> M W S A) :
  preserves I m -> (forall e, preserves I (h e)) -> preserves I (try_except m h).
Proof.
  intros Hm Hh w s H. unfold try_except. specialize (Hm w s H).
  destruct (m w s) as [[a|e] w1 s1 t1]; cbn [state] in *; [exact Hm |].
  specialize (Hh e w1 s1 Hm). now destruct (h e w1 s1).
Qed.

Lemma preserves_for_each {S A} (I : S -> Prop) (xs : list A) (body : A -> M W S unit) :
  (forall x, preserves I (body x)) -> preserves I (for_each xs body).
Proof.
  intros Hb. induction xs as [|x xs IH]; cbn [for_each].
  - apply preserves_ret.
  - apply preserves_bind; auto.
Qed.

Lemma total_for_each {S A} (xs : list A) (body : A -> M W S unit) :
  (forall x, total (body x)) -> total (for_each xs body).
Proof.
  intros Hb. induction xs as [|x xs IH]; cbn [for_each].
  - apply total_ret.
  - apply total_bind; auto.
Qed.

End Invariants.

(** Follow the program text to show that an invariant is preserved. *)
Ltac preserves_tac :=
  repeat first
    [ match goal with |- forall _, _ => intro end
    | match goal with H : forall _, preserves _ _ |- _ => solve [apply H] end
    | apply preserves_ret | apply preserves_raise | apply preserves_get
    | apply preserves_log | apply preserves_call | apply preserves_ask
    | apply preserves_bind | apply preserves_try_except | apply preserves_for_each
    | match goal with
      | |- preserves _ (match ?x with _ => _ end) => destruct x eqn:?
      end ].

Section Facts.

Context {X : External}.

(** ** The lists of the service *)

Lemma add_pages_consistent (filename : string) (pages : list Document) :
  (forall d, In d pages ->
             meta_source_file d
             = Some (TextProcessing.sanitize_filename (PStr filename))) ->
  preserves (W := World) documents_consistent
            (add_pages (TextProcessing.sanitize_filename (PStr filename)) pages).
Proof.
  intros Hpages. unfold add_pages. apply preserves_modify.
  intros s (Hnd & Hnames & Hdocs).
  set (safe := TextProcessing.sanitize_filename (PStr filename)) in *.
  unfold documents_consistent. cbn [loaded_documents loaded_filenames].
  destruct (existsb (String.eqb safe) (loaded_filenames s)) eqn:E.
  - apply existsb_exists in E. destruct E as (f & Hin & Heq).
    apply String.eqb_eq in Heq. subst f.
    split; [assumption |]. split; [assumption |].
    intros d Hd. apply in_app_or in Hd. destruct Hd as [Hd|Hd]; [auto |].
    exists safe. split; [now apply Hpages | assumption].
  - assert (Hnot : ~ In safe (loaded_filenames s)).
    { intros Hin. assert (existsb (String.eqb safe) (loaded_filenames s) = true)
        by (apply existsb_exists; exists safe; split;
            [assumption | apply String.eqb_refl]).
      congruence. }
    split; [| split].
    + apply NoDup_app; [assumption | repeat constructor; intros [] | ].
      intros f Hf [<-|[]]. contradiction.
    + intros f Hf. apply in_app_or in Hf. destruct Hf as [Hf|[<-|[]]]; [auto |].
      split; [apply TextFacts.sanitize_filename_nonempty
             | apply TextFacts.sanitize_filename_charset].
    + intros d Hd. apply in_app_or in Hd. destruct Hd as [Hd|Hd].
      * destruct (Hdocs d Hd) as (f & Hf & Hin). exists f.
        split; [assumption | apply in_or_app; now left].
      * exists safe. split; [now apply Hpages | apply in_or_app; right; now left].
Qed.

Lemma with_source_pages (safe : string) (pages : list Document) :
  forall d, In d (map (with_source safe) pages) -> meta_source_file d = Some safe.
Proof.
  intros d Hd. apply in_map_iff in Hd. destruct Hd as (p & <- & _). reflexivity.
Qed.

Lemma load_single_consistent (k : file_kind) (file : string * outcome (list Document)) :
  preserves (W := World) documents_consistent (_load_single k file).
Proof.
  unfold _load_single. cbv zeta.
  assert (Hadd : forall pages,
             preserves (W := World) documents_consistent
               (add_pages (TextProcessing.sanitize_filename (PStr (fst file)))
                  (map (with_source
                          (TextProcessing.sanitize_filename (PStr (fst file))))
                       pages)))
    by (intros pages; apply add_pages_consistent, with_source_pages).
  preserves_tac;
    try match goal with
        | E : map _ _ = _ :: _ |- _ => rewrite <- E
        end;
    apply Hadd.
Qed.

Lemma load_single_total (k : file_kind) (file : string * outcome (list Document)) :
  total (_load_single k file).
Proof. unfold _load_single. total_tac. Qed.

Lemma load_files_consistent (k : file_kind) :
  preserves (W := World) documents_consistent (_load_files k).
Proof.
  unfold _load_files. pose proof (load_single_consistent k) as H. preserves_tac.
Qed.

Lemma load_files_total (k : file_kind) : total (_load_files k).
Proof. unfold _load_files. total_tac. Qed.

Lemma load_files_keeps_chunks (k : file_kind) : keeps chunks (_load_files k).
Proof.
  unfold _load_files, _load_single, add_pages. keeps_tac.
Qed.

End Facts.

End DocumentFacts.
(* ================================================================== *)
(** * app.py: the routes *)
(* ================================================================== *)

Module RouteFacts.

Import MonadFacts ServiceFacts InitFacts.

#[local] Arguments TextProcessing.validate_input : simpl never.
#[local] Arguments _create_rag_prompt : simpl never.
#[local] Arguments Py.str_of_Z : simpl never.
#[local] Arguments Py.slice : simpl never.
#[local] Arguments Py.strip : simpl never.
#[local] Arguments String.append : simpl never.

Section Facts.

Context {X : External}.

Lemma component_calls_app (t1 t2 : list event) :
  component_calls (t1 ++ t2) = (component_calls t1 ++ component_calls t2)%list.
Proof. apply filter_app. Qed.

(** ** One request *)

Lemma generate_response_shape (query context : string) (w : World) (self : RAGService) :
  exists a w1 t1,
    generate_response query context w self = Result (Ret a) w1 self t1
    /\ (component_calls t1 = [] \/ component_calls t1 = [Call Generator "invoke"]).
Proof.
  destruct (llm self) as [h|] eqn:Hl.
  2: { rewrite (@generate_response_no_llm X query context w self Hl). eauto 6. }
  destruct (fst (TextProcessing.validate_input (PStr query))) eqn:Hv.
  2: { rewrite (@generate_response_invalid X query context w self h Hl Hv). eauto 6. }
  pose proof (@generate_response_calls_llm X query context w self h Hl Hv) as H.
  cbv zeta in H. rewrite H. eexists _, _, _. split; [reflexivity |].
  right. destruct (fst (llm_invoke h (fst (prompt_and_mode query context)) w));
    reflexivity.
Qed.

Lemma search_shape (query : string) (k : option Z) (w : World) (self : RAGService) :
  exists a w1 t1,
    search_similar_documents query k w self = Result (Ret a) w1 self t1
    /\ (component_calls t1 = []
        \/ component_calls t1 = [Call IndexStore "similarity_search_with_score"]).
Proof.
  destruct (vector_db self) as [db|] eqn:Hdb.
  2: { rewrite (@search_no_store X query k w self Hdb). eauto 6. }
  destruct (fst (TextProcessing.validate_input (PStr query))) eqn:Hv.
  2: { rewrite (@search_invalid X query k w self db Hdb Hv). eauto 6. }
  pose proof (@search_runs X query k w self db Hdb Hv) as H.
  cbv zeta in H. rewrite H. eexists _, _, _. split; [reflexivity |].
  right. destruct (fst (similarity_search_with_score db query (k_or_default k) w))
    as [[|hit hits]|e]; reflexivity.
Qed.

Lemma chat_answer_shape (chat_request : ChatRequest) (k : Z) (w : World)
      (g : Globals) (rag : RAGService) :
  rag_service g = Some rag ->
  exists a w1 t1,
    chat_answer chat_request k w g = Result (Ret a) w1 g t1
    /\ search_then_invoke (component_calls t1).
Proof.
  intros Hr. destruct (is_rag_ready rag) eqn:Hready.
  - destruct (search_shape (message chat_request) (Some k) w rag)
      as ([context sources] & w1 & t1 & Hs & Hc1).
    destruct (generate_response_shape (message chat_request) context w1 rag)
      as (answer & w2 & t2 & Hg & Hc2).
    rewrite (@chat_answer_retrieval X chat_request k w g rag context sources
               w1 t1 answer w2 t2 Hr Hready Hs Hg).
    eexists _, _, _. split; [reflexivity |].
    rewrite component_calls_app. unfold search_then_invoke.
    destruct Hc1 as [-> | ->], Hc2 as [-> | ->]; cbn [app]; auto.
  - destruct (generate_response_shape (message chat_request) "" w rag)
      as (answer & w1 & t1 & Hg & Hc).
    rewrite (@chat_answer_llm_only X chat_request k w g rag answer w1 t1 Hr Hready Hg).
    eexists _, _, _. split; [reflexivity |].
    unfold search_then_invoke. destruct Hc as [-> | ->]; auto.
Qed.

Lemma serving_service (g : Globals) :
  serving g = true ->
  system_ready g = true
  /\ exists rag h, rag_service g = Some rag /\ llm rag = Some h.
Proof.
  unfold serving, is_available. destruct (system_ready g); [| discriminate].
  destruct (rag_service g) as [rag|]; [| discriminate].
  destruct (llm rag) as [h|] eqn:Hl; [| discriminate].
  intros _. split; [reflexivity |]. exists rag, h. auto.
Qed.

(** What [api_chat] does of a body that [from_dict] refuses. *)
Lemma api_chat_refused (request : Request) (w : World) (g : Globals) (e : exn) :
  is_json request = true ->
  serving g = true ->
  ChatRequest_from_dict (get_json request) = Raise e ->
  api_chat request w g
  = match exn_cls e with
    | ValueError => Result (Ret (respond 400 (ErrorBody (exn_str e) None))) w g []
    | _ =>
        Result (Ret (respond 500 (ErrorBody "Chat processing failed"
                                            (Some "Internal server error"))))
               w g [Log ERROR ("Error in chat endpoint: " ++ exn_str e)]
    end.
Proof.
  intros Hj Hs Hp. unfold api_chat. rewrite Hj. mrun.
  unfold serving in Hs.
  destruct (system_ready g); cbn [negb andb orb] in *; [| discriminate].
  destruct (rag_service g) as [rag|]; [| discriminate].
  rewrite Hs. cbn [negb]. rewrite Hp.
  destruct (exn_cls e); mrun; reflexivity.
Qed.

Lemma api_chat_shape (request : Request) (w : World) (g : Globals) :
  exists resp w1 t1,
    api_chat request w g = Result (Ret resp) w1 g t1
    /\ In (status_code resp) [200; 400; 500; 503]
    /\ search_then_invoke (component_calls t1).
Proof.
  destruct (is_json request) eqn:Hj.
  2: { rewrite (@api_chat_not_json X request w g Hj). eexists _, _, _.
       split; [reflexivity |]. split; [simpl; auto | now left]. }
  destruct (serving g) eqn:Hs.
  2: { rewrite (@api_chat_unavailable X request w g Hj Hs). eexists _, _, _.
       split; [reflexivity |]. split; [simpl; auto | now left]. }
  destruct (ChatRequest_from_dict (get_json request)) as [chat_request|e] eqn:Hp.
  - destruct (serving_service g Hs) as (_ & rag & h & Hr & _).
    destruct (chat_answer_shape chat_request (effective_k chat_request) w g Hr)
      as (a & w1 & t1 & Ha & Hc).
    rewrite (@api_chat_answers X request w g chat_request a w1 g t1 Hj Hs Hp Ha).
    eexists _, _, _. split; [reflexivity |]. split; [simpl; auto |].
    change (Log INFO ?m :: ?t) with ([Log INFO m] ++ t)%list.
    rewrite !component_calls_app. cbn [component_calls filter is_component_call app].
    now rewrite app_nil_r.
  - rewrite (@api_chat_refused request w g e Hj Hs Hp).
    destruct (exn_cls e); eexists _, _, _;
      (split; [reflexivity |]; split; [simpl; auto | now left]).
Qed.

End Facts.

End RouteFacts.
(* ================================================================== *)
(** * app.py: how the initialization ends *)
(* ================================================================== *)

Module StartFacts.

Import MonadFacts ServiceFacts InitFacts.

#[local] Arguments TextProcessing.validate_input : simpl never.
#[local] Arguments Py.str_of_Z : simpl never.
#[local] Arguments Py.slice : simpl never.
#[local] Arguments Py.strip : simpl never.
#[local] Arguments String.append : simpl never.

Lemma last_app_nonempty {A} (l l' : list A) (d : A) :
  l' <> [] -> last (l ++ l')%list d = last l' d.
Proof.
  intros H. induction l as [|x l IH]; [reflexivity |].
  cbn [app]. destruct (l ++ l')%list eqn:E.
  - apply app_eq_nil in E. destruct E. contradiction.
  - rewrite <- IH. reflexivity.
Qed.

Lemma last_cons_nonempty {A} (x : A) (l : list A) (d : A) :
  l <> [] -> last (x :: l) d = last l d.
Proof. destruct l; [congruence | reflexivity]. Qed.

Ltac nonempty :=
  let H := fresh in
  intros H;
  repeat first [ discriminate H | apply app_eq_nil in H; destruct H as [_ H] ].

(** The last event of a trace that ends with known events. *)
Ltac last_event :=
  repeat first
    [ rewrite last_app_nonempty by nonempty
    | rewrite last_cons_nonempty by nonempty ];
  reflexivity.

Section Facts.

Context {X : External}.

Lemma on_docs_run {A} (m : M World DocumentService A) (w : World) (g : Globals)
      (docs : DocumentService) :
  document_service g = Some docs ->
  on_docs m w g
  = Result (res (m w docs)) (world (m w docs))
           {| document_service := Some (state (m w docs));
              rag_service := rag_service g;
              system_ready := system_ready g;
              initialization_error := initialization_error g |}
           (trace (m w docs)).
Proof.
  intros H. unfold on_docs, zoom. rewrite H. now destruct (m w docs).
Qed.

Lemma RAGService_clear_run (w : World) (self : RAGService) :
  RAGService_clear w self = Result (Ret tt) (gc_collect w) RAGService_new [GcCollect].
Proof.
  unfold RAGService_clear. destruct self as [[m|] [db|] [h|] ready];
    mrun; cbn [some]; mrun; cbn [some]; mrun; cbn [some]; mrun; reflexivity.
Qed.

(** ** The steps, with the handles they leave *)

Lemma embedding_step (w : World) (self : RAGService) :
  let r := initialize_embedding_model w self in
  llm (state r) = llm self
  /\ vector_db (state r) = vector_db self
  /\ ((res r = Ret (true, None) /\ exists m, embedding_model (state r) = Some m)
      \/ (exists err, res r = Ret (false, Some err)
                      /\ embedding_model (state r) = None)).
Proof.
  cbv zeta. unfold initialize_embedding_model. mrun.
  destruct (HuggingFaceEmbeddings (HF_EMBEDDING_MODEL_NAME config) w) as [[m|e] w1];
    cbn [fst snd]; mrun.
  - destruct (embed_query m "Test embedding" w1) as [[v|e] w2]; cbn [fst snd]; mrun.
    + repeat split. left. eauto.
    + repeat split. right. eauto.
  - repeat split. right. eauto.
Qed.

Lemma vector_step (cs : list Document) (w : World) (self : RAGService) :
  vector_db self = None ->
  let r := initialize_vector_store cs w self in
  llm (state r) = llm self
  /\ embedding_model (state r) = embedding_model self
  /\ ((res r = Ret (true, None) /\ exists db, vector_db (state r) = Some db)
      \/ (exists err, res r = Ret (false, Some err) /\ vector_db (state r) = None)).
Proof.
  intros Hv. cbv zeta.
  split; [apply initialize_vector_store_keeps_llm |].
  split; [apply initialize_vector_store_keeps_embedding |].
  destruct (embedding_model self) as [m|] eqn:Hm.
  - destruct cs as [|c cs'].
    + right. unfold initialize_vector_store. mrun. rewrite Hm. cbn [some negb]. mrun.
      eauto.
    + apply (@HandleFacts.initialize_vector_store_cases X (c :: cs') w self m Hm).
      discriminate.
  - right. unfold initialize_vector_store. mrun. rewrite Hm. cbn [some negb]. mrun.
    eauto.
Qed.

(** ** After the LLM *)

Lemma after_llm_ends (w : World) (g : Globals) (docs : DocumentService)
      (rag : RAGService) (h : LLM) (d : event) :
  document_service g = Some docs ->
  rag_service g = Some rag ->
  llm rag = Some h ->
  vector_db rag = None ->
  let r := initialize_after_llm w g in
  res r = Ret true
  /\ trace r <> []
  /\ system_ready (state r) = true
  /\ initialization_error (state r) = initialization_error g
  /\ exists rag',
      rag_service (state r) = Some rag'
      /\ llm rag' = Some h
      /\ ((is_rag_ready rag' = true
           /\ last (trace r) d = Log INFO "=== System fully initialized (RAG mode) ===")
          \/ (is_rag_ready rag' = false
              /\ exists msg, last (trace r) d = Log WARNING msg)).
Proof.
  intros Hd Hr Hl Hv. cbv zeta. unfold initialize_after_llm. mrun.
  (* the documents *)
  erewrite (on_docs_run load_documents w) by eassumption.
  destruct (load_documents_total w docs) as [[b1 e1] H1].
  destruct (load_documents w docs) as [o1 w1 docs1 t1].
  cbn [res world state trace] in *. subst o1. mrun. cbn [fst snd].
  destruct b1; cbn [negb]; mrun.
  2: { split; [reflexivity |]. split; [nonempty |]. repeat split. exists rag. split; [assumption |]. split; [assumption |].
       right. split; [unfold is_rag_ready; now rewrite Hv, andb_false_r |].
       eexists. last_event. }
  (* the chunks *)
  erewrite (on_docs_run create_chunks w1) by reflexivity.
  cbn [document_service rag_service system_ready initialization_error].
  destruct (create_chunks_total w1 docs1) as [[b2 e2] H2].
  destruct (create_chunks w1 docs1) as [o2 w2 docs2 t2].
  cbn [res world state trace] in *. subst o2. mrun. cbn [fst snd].
  destruct b2; cbn [negb]; mrun.
  2: { split; [reflexivity |]. split; [nonempty |]. repeat split. exists rag. split; [assumption |]. split; [assumption |].
       right. split; [unfold is_rag_ready; now rewrite Hv, andb_false_r |].
       eexists. last_event. }
  (* the embedding model *)
  erewrite (on_rag_run initialize_embedding_model w2) by eassumption.
  cbn [document_service rag_service system_ready initialization_error].
  destruct (embedding_step w2 rag) as (El & Ev & Ee). cbv zeta in El, Ev, Ee.
  destruct (initialize_embedding_model w2 rag) as [o3 w3 rag3 t3].
  cbn [res world state trace] in *.
  destruct Ee as [[-> [m Hm]] | [err [-> Hm]]]; mrun; cbn [fst snd negb]; mrun.
  2: { split; [reflexivity |]. split; [nonempty |]. repeat split. exists rag3. split; [reflexivity |]. split; [congruence |].
       right. split; [unfold is_rag_ready; now rewrite Hm, andb_false_r |].
       eexists. last_event. }
  (* the vector store *)
  erewrite (on_docs_run _ w3) by reflexivity.
  cbn [res world state trace document_service rag_service system_ready
           initialization_error].
  match goal with
  | |- context [on_rag (initialize_vector_store ?cs) ?w0 ?g0] =>
      erewrite (on_rag_run (initialize_vector_store cs) w0) by reflexivity;
      destruct (@vector_step cs w0 rag3 ltac:(congruence)) as (Vl & Ve & Vv);
      cbv zeta in Vl, Ve, Vv;
      destruct (initialize_vector_store cs w0 rag3) as [o4 w4 rag4 t4]
  end.
  cbn [res world state trace document_service rag_service system_ready
           initialization_error] in *.
  destruct Vv as [[-> [db Hdb]] | [err [-> Hdb]]]; mrun; cbn [fst snd negb]; mrun.
  2: { split; [reflexivity |]. split; [nonempty |]. repeat split. exists rag4. split; [reflexivity |]. split; [congruence |].
       right. split; [unfold is_rag_ready; now rewrite Hdb, andb_false_r |].
       eexists. last_event. }
  (* every step went through *)
  erewrite (on_rag_run _ w4) by reflexivity. mrun.
  assert (Hready : is_rag_ready rag4 = true).
  { unfold is_rag_ready. rewrite Hdb. rewrite Vl, El, Hl. rewrite Ve, Hm. reflexivity. }
  rewrite Hready. mrun.
  split; [reflexivity |]. split; [nonempty |].
  repeat split. exists rag4. split; [reflexivity |]. split; [congruence |].
  left. split; [assumption |]. last_event.
Qed.

(** ** The whole of [initialize_system] *)

Lemma llm_step (w : World) :
  let r := initialize_llm w RAGService_new in
  vector_db (state r) = None
  /\ ((res r = Ret (true, None) /\ exists h, llm (state r) = Some h)
      \/ (exists err, res r = Ret (false, Some err) /\ llm (state r) = None)).
Proof.
  cbv zeta. unfold initialize_llm.
  destruct (GROQ_API_KEY config) as [[|c key]|]; mrun.
  - split; [reflexivity |]. right. eauto.
  - destruct (ChatGroq (GROQ_MODEL_NAME config) (String c key) w) as [[h|e] w1];
      cbn [fst snd]; mrun.
    + destruct (llm_invoke h "Hello" w1) as [[v|e] w2]; cbn [fst snd]; mrun.
      * split; [reflexivity |]. left. eauto.
      * split; [reflexivity |]. right. eauto.
    + split; [reflexivity |]. right. eauto.
  - split; [reflexivity |]. right. eauto.
Qed.

Lemma initialize_system_ends (w : World) (g : Globals) (d : event) :
  let r := initialize_system w g in
  (res r = Ret true
   /\ system_ready (state r) = true
   /\ initialization_error (state r) = initialization_error g
   /\ exists rag h,
       rag_service (state r) = Some rag
       /\ llm rag = Some h
       /\ ((is_rag_ready rag = true
            /\ last (trace r) d
               = Log INFO "=== System fully initialized (RAG mode) ===")
           \/ (is_rag_ready rag = false
               /\ exists msg, last (trace r) d = Log WARNING msg)))
  \/ (res r = Ret false
      /\ system_ready (state r) = system_ready g
      /\ (exists diagnostic, initialization_error (state r) = Some diagnostic)
      /\ (exists msg, last (trace r) d = Log ERROR msg)
      /\ (rag_service (state r) = rag_service g
          \/ exists rag, rag_service (state r) = Some rag /\ llm rag = None)).
Proof.
  cbv zeta.
  destruct (Config_validate_run w g) as (o & w1 & t & E & Ht).
  unfold initialize_system. mrun. rewrite E.
  destruct o as [err|]; mrun.
  - right. repeat split; eauto. eexists. last_event.
  - erewrite (on_rag_run initialize_llm w1) by reflexivity.
    destruct (llm_step w1) as (Hv & Hcases). cbv zeta in Hv, Hcases.
    destruct (initialize_llm w1 RAGService_new) as [o2 w2 rag2 t2].
    cbn [res world state trace] in *.
    destruct Hcases as [[-> [h Hh]] | [err [-> Hn]]]; mrun; cbn [fst snd negb]; mrun.
    + match goal with
      | |- context [initialize_after_llm w2 ?g2] =>
          destruct (@after_llm_ends w2 g2 DocumentService_new rag2 h d
                      eq_refl eq_refl Hh Hv)
            as (Hres & Hne & Hready & Herr & rag' & Hr' & Hl' & Hend);
          cbv zeta in Hres, Hne, Hready, Herr, Hr', Hend;
          destruct (initialize_after_llm w2 g2) as [o3 w3 g3 t3]
      end.
      cbn [res world state trace initialization_error] in *. subst o3. mrun.
      left. repeat split; try assumption.
      exists rag', h. split; [assumption |]. split; [assumption |].
      destruct Hend as [[Hy Hlast] | [Hn [msg Hlast]]].
      * left. split; [assumption |]. rewrite <- Hlast.
        destruct t3 as [|e3 t3']; [congruence |]. last_event.
      * right. split; [assumption |]. exists msg. rewrite <- Hlast.
        destruct t3 as [|e3 t3']; [congruence |]. last_event.
    + right. repeat split; eauto. eexists. last_event.
Qed.

End Facts.

End StartFacts.

(* ================================================================== *)
(** * The properties the specification states *)
(* ================================================================== *)

Import MonadFacts ServiceFacts InitFacts.

#[local] Arguments TextProcessing.validate_input : simpl never.
#[local] Arguments _create_rag_prompt : simpl never.
#[local] Arguments Py.str_of_Z : simpl never.
#[local] Arguments Py.slice : simpl never.
#[local] Arguments Py.strip : simpl never.
#[local] Arguments String.append : simpl never.

(** C1. When the call to the LLM raises while an answer is generated,
    [generate_response] returns the fixed apology with the mode
    UNAVAILABLE: the exception stops there, and the handles and the
    readiness flag of the service are what they were. *)
Theorem generator_failure_is_contained {X : External}
        (query context : string) (self : RAGService) (w w' : World) (h : LLM) (e : exn) :
  llm self = Some h ->
  fst (TextProcessing.validate_input (PStr query)) = true ->
  llm_invoke h (fst (prompt_and_mode query context)) w = (Raise e, w') ->
  let r := generate_response query context w self in
  res r = Ret ("Sorry, an error occurred while generating the response", UNAVAILABLE)
  /\ state r = self
  /\ llm (state r) = llm self
  /\ embedding_model (state r) = embedding_model self
  /\ vector_db (state r) = vector_db self
  /\ is_ready (state r) = is_ready self.
Proof.
  intros Hl Hv Hg r. subst r.
  rewrite (generate_response_calls_llm query context w self Hl Hv).
  cbv zeta. rewrite Hg. simpl. auto 6.
Qed.

(** The theorem above on a service whose LLM has gone down. *)
Lemma generator_failure_is_contained_witness :
  let down := Toy.with_budget 0 Toy.healthy in
  let r := generate_response (X := Toy.external)
             "What is X?" "The sky is blue." down Toy.ready_service in
  res r = Ret (apology, UNAVAILABLE) /\ state r = Toy.ready_service.
Proof.
  cbv zeta.
  destruct (@generator_failure_is_contained Toy.external
              "What is X?" "The sky is blue." Toy.ready_service
              (Toy.with_budget 0 Toy.healthy) (Toy.with_budget 0 Toy.healthy)
              tt (Exn OtherException "Connection error.")
              eq_refl eq_refl eq_refl)
    as (Hres & Hstate & _).
  split; [exact Hres | exact Hstate].
Defined.

(** C2. Without an LLM handle, whatever the embedding model and the
    vector store are, [generate_response] reports UNAVAILABLE with a fixed
    message and calls nothing, and [api_chat] refuses a JSON request with
    the fixed error "System unavailable" (status 503): no source is
    returned, no component is called and nothing changes. *)
Theorem unavailable_without_generator {X : External}
        (query context : string) (self : RAGService) (w : World) :
  llm self = None ->
  generate_response query context w self
  = Result (Ret ("LLM not available", UNAVAILABLE)) w self []
  /\ forall (request : Request) (g : Globals),
      rag_service g = Some self ->
      is_json request = true ->
      api_chat request w g
      = Result (Ret (respond 503
                       (ErrorBody "System unavailable"
                          (Some (or_default (initialization_error g) "System not ready")))))
               w g [].
Proof.
  intros Hl. split.
  - now apply generate_response_no_llm.
  - intros request g Hr Hj. apply api_chat_unavailable; [assumption |].
    unfold serving. rewrite Hr. unfold is_available. rewrite Hl.
    apply andb_false_r.
Qed.

(** The theorem above on a service with an embedding model and a store,
    and no LLM. *)
Lemma unavailable_without_generator_witness :
  generate_response (X := Toy.external) "What is X?" "" Toy.healthy Toy.without_llm
  = Result (Ret ("LLM not available", UNAVAILABLE)) Toy.healthy Toy.without_llm [].
Proof.
  exact (proj1 (@unavailable_without_generator Toy.external "What is X?" ""
                  Toy.without_llm Toy.healthy eq_refl)).
Defined.

(** C3. [initialize_system] never raises, and it returns [True] exactly
    when the LLM has been initialized: then [system_ready] is set and an
    LLM handle is in place, whatever became of the documents, the chunks,
    the embedding model and the vector store. When it returns [False] a
    diagnostic is retained in [initialization_error]; once the
    configuration is valid, the result is the flag [initialize_llm]
    returned, and a failure of the LLM is retained with its message. *)
Theorem initialization_succeeds_iff_llm_does {X : External} :
  forall (w : World) (g : Globals),
    let r := initialize_system w g in
    (res r = Ret true \/ res r = Ret false)
    /\ (res r = Ret true <-> In (Log INFO "LLM initialized successfully") (trace r))
    /\ (res r = Ret true ->
        system_ready (state r) = true
        /\ exists rag h, rag_service (state r) = Some rag /\ llm rag = Some h)
    /\ (res r = Ret false ->
        system_ready (state r) = system_ready g
        /\ exists diagnostic, initialization_error (state r) = Some diagnostic)
    /\ (forall w1 t,
           Config_validate w g = Result (Ret None) w1 g t ->
           exists b err,
             res (initialize_llm w1 RAGService_new) = Ret (b, err)
             /\ res r = Ret b
             /\ (b = false ->
                 initialization_error (state r)
                 = Some ("LLM initialization failed: " ++ fmt_opt err)%string)).
Proof.
  intros w g r. subst r.
  destruct (Config_validate_run w g) as (o & w1 & t & E & Ht).
  unfold initialize_system. mrun. rewrite E.
  destruct o as [err|].
  - (* the configuration is refused *)
    mrun. split; [now right |]. split; [| split; [| split]].
    + split; [discriminate |].
      destruct Ht; subst t; simpl; intros H;
        repeat (destruct H as [H|H]; try discriminate H); contradiction.
    + discriminate.
    + intros _. split; [reflexivity | eexists; reflexivity].
    + intros w1' t' H. discriminate H.
  - (* the LLM is tried *)
    mrun.
    erewrite (on_rag_run initialize_llm w1) by reflexivity.
    destruct (initialize_llm_cases w1 RAGService_new)
      as [(Hres & (h & Hh) & Hin) | (err & Hres & Hnin & Hl)].
    + (* and answers *)
      destruct (initialize_llm w1 RAGService_new) as [o2 w2 rag2 t2] eqn:El.
      simpl in Hres, Hh, Hin. subst o2. mrun.
      match goal with
      | |- context [initialize_after_llm w2 ?g2] =>
          assert (Hw : wired (Some h) (initialization_error g) g2)
            by (repeat split; simpl; eauto);
          destruct (initialize_after_llm_ok w2 Hw) as (b & Hb & Hbt & Hready & Hw');
          destruct (initialize_after_llm w2 g2) as [o3 w3 g3 t3]
      end.
      simpl in Hb, Hready, Hw'. subst o3 b. mrun.
      destruct Hw' as (_ & (rag3 & Hr3 & Hl3) & _).
      split; [now left |]. split; [| split; [| split]].
      * split; [intros _ | reflexivity].
        right. apply in_or_app. right. apply in_or_app. left. exact Hin.
      * intros _. split; [assumption |]. exists rag3, h. split; assumption.
      * discriminate.
      * intros w1' t' H. inversion H; subst. exists true, None. rewrite El.
        repeat split. intros Hf. discriminate Hf.
    + (* and fails *)
      destruct (initialize_llm w1 RAGService_new) as [o2 w2 rag2 t2] eqn:El.
      simpl in Hres, Hnin, Hl. subst o2. mrun.
      split; [now right |]. split; [| split; [| split]].
      * split; [discriminate |]. intros H. exfalso.
        destruct H as [H|H]; [discriminate H |].
        apply in_app_or in H. destruct H as [H|H].
        -- destruct Ht; subst t; simpl in H;
             repeat (destruct H as [H|H]; try discriminate H); contradiction.
        -- apply in_app_or in H. destruct H as [H|H]; [now apply Hnin |].
           simpl in H. destruct H as [H|[]]. discriminate H.
      * discriminate.
      * intros _. split; [reflexivity | eexists; reflexivity].
      * intros w1' t' H. inversion H; subst. exists false, (Some err). rewrite El.
        repeat split.
Qed.

(** The theorem above on three worlds: a healthy one, one whose store
    cannot be built (a soft failure), and one whose LLM is down. *)
Lemma initialization_succeeds_iff_llm_does_witness :
  let ok := initialize_system (X := Toy.external) Toy.healthy Globals_initial in
  let soft := initialize_system (X := Toy.external) Toy.cannot_build Globals_initial in
  let down := initialize_system (X := Toy.external)
                (Toy.with_budget 0 Toy.healthy) Globals_initial in
  (res ok = Ret true /\ system_ready (state ok) = true)
  /\ (res soft = Ret true /\ system_ready (state soft) = true
      /\ option_map is_rag_ready (rag_service (state soft)) = Some false)
  /\ (res down = Ret false
      /\ initialization_error (state down)
         = Some "LLM initialization failed: LLM initialization failed: Connection error.").
Proof.
  cbv zeta.
  destruct (@initialization_succeeds_iff_llm_does Toy.external Toy.healthy Globals_initial)
    as (_ & _ & Hok & _).
  destruct (@initialization_succeeds_iff_llm_does Toy.external Toy.cannot_build Globals_initial)
    as (_ & _ & Hsoft & _).
  split; [| split].
  - split; [reflexivity | exact (proj1 (Hok eq_refl))].
  - split; [reflexivity |]. split; [exact (proj1 (Hsoft eq_refl)) | reflexivity].
  - split; reflexivity.
Defined.

(** C4 as stated fails: the LLM answered the test call of the
    initialization and is down when the question comes. The store is
    ready and finds nothing, the request falls back to generation without
    context, and the mode it reports is UNAVAILABLE, not LLM_ONLY. *)
Lemma empty_retrieval_may_report_unavailable :
  let r0 := initialize_system (X := Toy.external) Toy.llm_goes_down Globals_initial in
  let r := api_chat (Toy.ask_json "What is X?") (world r0) (state r0) in
  res r0 = Ret true
  /\ option_map is_rag_ready (rag_service (state r0)) = Some true
  /\ In (Log INFO "No similar documents found") (trace r)
  /\ res r = Ret (respond 200
                    (ChatBody
                       {| question := "What is X?";
                          response := apology;
                          context_provided_to_llm :=
                            "No relevant documents found, using LLM-only mode";
                          sources := [];
                          mode := UNAVAILABLE;
                          error := None |}))
  /\ UNAVAILABLE <> LLM_ONLY.
Proof.
  cbv zeta. repeat split; try reflexivity.
  - vm_compute. auto 10.
  - discriminate.
Qed.

(** C4, amended. On the RAG-ready path, when the similarity search
    returns no document, the same request goes on to generation with the
    bare question: the response has no source, its note says that no
    relevant document was found, the globals (so the readiness of the RAG
    pipeline) are what they were, and the mode is LLM_ONLY when the LLM
    answers and UNAVAILABLE, with the apology, when the call raises. *)
Theorem empty_retrieval_falls_back {X : External}
        (request : Request) (chat_request : ChatRequest) (g : Globals)
        (rag : RAGService) (h : LLM) (db : VectorDB) (m : Embeddings) (w w1 : World) :
  is_json request = true ->
  system_ready g = true ->
  rag_service g = Some rag ->
  llm rag = Some h ->
  vector_db rag = Some db ->
  embedding_model rag = Some m ->
  ChatRequest_from_dict (get_json request) = Ret chat_request ->
  fst (TextProcessing.validate_input (PStr (message chat_request))) = true ->
  similarity_search_with_score db (message chat_request) (effective_k chat_request) w
  = (Ret [], w1) ->
  let r := api_chat request w g in
  let gen := llm_invoke h (message chat_request) w1 in
  res r = Ret (respond 200
                 (ChatBody
                    {| question := message chat_request;
                       response :=
                         match fst gen with
                         | Ret reply =>
                             Py.strip (match content reply with
                                       | Some c => c
                                       | None => response_str reply
                                       end)
                         | Raise _ => apology
                         end;
                       context_provided_to_llm :=
                         "No relevant documents found, using LLM-only mode";
                       sources := [];
                       mode := match fst gen with
                               | Ret _ => LLM_ONLY
                               | Raise _ => UNAVAILABLE
                               end;
                       error := None |}))
  /\ state r = g
  /\ world r = snd gen
  /\ In (Call Generator "invoke") (trace r).
Proof.
  intros Hj Hs Hr Hl Hdb Hm Hp Hv Hsearch r gen. subst r.
  assert (Hready : is_rag_ready rag = true)
    by (unfold is_rag_ready; now rewrite Hl, Hdb, Hm).
  assert (Hserving : serving g = true)
    by (unfold serving, is_available; now rewrite Hs, Hr, Hl).
  pose proof (search_runs (message chat_request) (Some (effective_k chat_request))
                          w rag Hdb Hv) as Hfound.
  cbv zeta in Hfound. unfold k_or_default in Hfound. rewrite Hsearch in Hfound.
  cbn [fst snd found_of] in Hfound.
  pose proof (generate_response_calls_llm (message chat_request) "" w1 rag Hl Hv) as Hgen.
  cbv zeta in Hgen. unfold prompt_and_mode in Hgen. cbn [Py.truthy fst snd] in Hgen.
  fold gen in Hgen.
  rewrite (api_chat_answers request w g Hj Hserving Hp
             (chat_answer_retrieval chat_request (effective_k chat_request) w g
                                    Hr Hready Hfound Hgen)).
  cbn [res state world trace Py.truthy]. unfold make_chat_response. cbn [fst snd].
  repeat split.
  - destruct (fst gen); reflexivity.
  - right. apply in_or_app. left. apply in_or_app. right. simpl. auto.
Qed.

(** The theorem above at the request of the counterexample, and at one
    the LLM answers. *)
Lemma empty_retrieval_falls_back_witness :
  let w := Toy.with_hits [] Toy.healthy in
  let r := api_chat (X := Toy.external) (Toy.ask_json "What is X?") w Toy.ready_globals in
  res r = Ret (respond 200
                 (ChatBody
                    {| question := "What is X?";
                       response := "It is blue.";
                       context_provided_to_llm :=
                         "No relevant documents found, using LLM-only mode";
                       sources := [];
                       mode := LLM_ONLY;
                       error := None |}))
  /\ state r = Toy.ready_globals.
Proof.
  cbv zeta.
  destruct (@empty_retrieval_falls_back Toy.external
              (Toy.ask_json "What is X?") Toy.what_is_x Toy.ready_globals
              Toy.ready_service tt tt tt (Toy.with_hits [] Toy.healthy)
              (Toy.with_hits [] Toy.healthy)
              eq_refl eq_refl eq_refl eq_refl eq_refl eq_refl eq_refl eq_refl eq_refl)
    as (Hres & Hstate & _).
  split; [exact Hres | exact Hstate].
Defined.

(** C5 as stated fails: another process holds the files of the persisted
    index through the three attempts to erase them, the failure is logged,
    and the rebuild goes on to build the new index, which works: the store
    is initialized and the service ends in RAG mode. *)
Lemma locked_directory_can_still_rebuild :
  let r := _rebuild_vector_store (X := Toy.external)
             [Toy.doc "The sky is blue." "1"] Toy.locked Toy.embedded_service in
  let r0 := initialize_system (X := Toy.external) Toy.locked Globals_initial in
  In (Log WARNING ("Attempt 1 to clean directory failed: " ++ Toy.lock_message)) (trace r)
  /\ In (Log WARNING ("Attempt 2 to clean directory failed: " ++ Toy.lock_message)) (trace r)
  /\ In (Log WARNING ("Attempt 3 to clean directory failed: " ++ Toy.lock_message)) (trace r)
  /\ In (Log ERROR "Failed to clean vector store directory") (trace r)
  /\ res r = Ret true
  /\ vector_db (state r) = Some tt
  /\ is_rag_ready (state r) = true
  /\ res r0 = Ret true
  /\ option_map is_rag_ready (rag_service (state r0)) = Some true.
Proof.
  cbv zeta. repeat split; try reflexivity; vm_compute; auto 20.
Qed.

(** C5, amended. When every attempt to erase the persist directory ends
    in a [PermissionError], the rebuild logs the failure, lets no exception
    out, and goes on to build the new index over what is left; the build
    decides. If it succeeds the store is initialized. If it raises, the
    rebuild returns [False], [vector_db] is [None], the RAG pipeline is not
    ready, and the requests that follow are answered from the LLM alone. *)
Theorem locked_directory_rebuild {X : External} (Locked : World -> Prop) :
  (forall w, Locked w -> os_path_exists (CHROMA_PERSIST_DIR config) w = true) ->
  (forall w (s : RAGService),
      Locked w ->
      exists msg w' t,
        clean_once w s = Result (Raise (Exn PermissionError msg)) w' s t /\ Locked w') ->
  (forall w, Locked w -> Locked (time_sleep RETRY_DELAY w)) ->
  (forall w, Locked w -> Locked (gc_collect w)) ->
  forall (chunks : list Document) (w : World) (self : RAGService),
    Locked w ->
    let r := _rebuild_vector_store chunks w self in
    In (Log ERROR "Failed to clean vector store directory") (trace r)
    /\ In (Call IndexStore "from_documents") (trace r)
    /\ exists wc,
        Locked wc
        /\ match fst (Chroma_from_documents chunks (embedding_model self)
                                            (CHROMA_PERSIST_DIR config) wc) with
           | Ret db => res r = Ret true /\ vector_db (state r) = Some db
           | Raise _ =>
               res r = Ret false
               /\ vector_db (state r) = None
               /\ is_rag_ready (state r) = false
               /\ serves_llm_only (state r)
           end.
Proof.
  intros H1 H2 H3 H4 chunks w self Hw r.
  destruct (@StoreFacts.rebuild_locked X Locked H1 H2 H3 H4 chunks w self Hw)
    as (Hlog & Hcall & wc & Hwc & Hb).
  fold r in Hlog, Hcall, Hb.
  split; [exact Hlog |]. split; [exact Hcall |].
  exists wc. split; [exact Hwc |].
  destruct (fst (Chroma_from_documents chunks (embedding_model self)
                                       (CHROMA_PERSIST_DIR config) wc)).
  - exact Hb.
  - destruct Hb as [Hres Hdb].
    assert (Hn : is_rag_ready (state r) = false).
    { unfold is_rag_ready. rewrite Hdb. cbn [some]. now rewrite andb_false_r. }
    split; [exact Hres |]. split; [exact Hdb |]. split; [exact Hn |].
    exact (@StoreFacts.llm_only_service X (state r) Hn).
Qed.

(** The theorem above in a world where the directory stays locked and the
    build fails as well. *)
Lemma locked_directory_rebuild_witness :
  let r := _rebuild_vector_store (X := Toy.external)
             [Toy.doc "The sky is blue." "1"]
             (Toy.with_build false Toy.locked) Toy.embedded_service in
  Toy.is_locked (Toy.with_build false Toy.locked)
  /\ In (Log ERROR "Failed to clean vector store directory") (trace r)
  /\ In (Call IndexStore "from_documents") (trace r).
Proof.
  cbv zeta.
  assert (Hw : Toy.is_locked (Toy.with_build false Toy.locked))
    by (split; [reflexivity | now exists "chroma.sqlite3", ["index"]]).
  destruct (@locked_directory_rebuild Toy.external Toy.is_locked
              ToyFacts.locked_exists ToyFacts.locked_fails
              ToyFacts.locked_sleep ToyFacts.locked_gc
              [Toy.doc "The sky is blue." "1"]
              (Toy.with_build false Toy.locked) Toy.embedded_service Hw)
    as (Hlog & Hcall & _).
  split; [exact Hw |]. split; [exact Hlog | exact Hcall].
Defined.

(** C6 as stated fails: with no index on disk and a store that cannot be
    built, the check asks for a rebuild the first time and the second
    time, whether it is run twice in a row or a (failed) rebuild comes in
    between. *)
Lemma stale_twice_in_a_row :
  let chunks := [Toy.doc "The sky is blue." "1"] in
  let c1 := _check_vector_store_rebuild (X := Toy.external)
              chunks Toy.cannot_build Toy.embedded_service in
  let c2 := _check_vector_store_rebuild chunks (world c1) (state c1) in
  let i1 := initialize_vector_store (X := Toy.external)
              chunks Toy.cannot_build Toy.embedded_service in
  let c3 := _check_vector_store_rebuild chunks (world i1) (state i1) in
  res c1 = Ret true
  /\ res c2 = Ret true
  /\ res i1 = Ret (false, Some "Failed to rebuild vector store")
  /\ res c3 = Ret true.
Proof.
  cbv zeta. repeat split; reflexivity.
Qed.

(** C6, amended. The staleness check returns what the specification
    decides from what can be seen of the persisted index: rebuild when the
    directory is missing or empty, when scanning, loading or counting
    raises, and when the stored count differs from the number of chunks;
    otherwise fresh, and then the loaded index becomes [vector_db]. A check
    that asks for a rebuild writes nothing. With a backend that keeps its
    contract, once [initialize_vector_store] has succeeded for some chunks
    the check is fresh for the same chunks, and a second initialization
    reuses the index without building one. *)
Theorem staleness_check_refines_spec {X : External} :
  forall (chunks : list Document) (w : World) (self : RAGService),
    let r := _check_vector_store_rebuild chunks w self in
    let seen := observe (embedding_model self) w in
    res r = Ret (stale chunks seen)
    /\ (stale chunks seen = false ->
        exists db, seen = Holds db (Z.of_nat (length chunks))
                   /\ vector_db (state r) = Some db)
    /\ (stale chunks seen = true -> state r = self)
    /\ (IndexStoreContract ->
        res (initialize_vector_store chunks w self) = Ret (true, None) ->
        let r1 := initialize_vector_store chunks w self in
        let r2 := initialize_vector_store chunks (world r1) (state r1) in
        res (_check_vector_store_rebuild chunks (world r1) (state r1)) = Ret false
        /\ res r2 = Ret (true, None)
        /\ ~ In (Call IndexStore "from_documents") (trace r2)).
Proof.
  intros chunks w self r seen.
  destruct (@StoreFacts.check_refines X chunks w self) as (Hres & Hfresh & Hstale & _).
  fold r seen in Hres, Hfresh, Hstale.
  split; [exact Hres |]. split; [| split; [exact Hstale |]].
  - intros Hf. destruct (Hfresh Hf) as (db & Hseen & Hstate).
    exists db. split; [exact Hseen |]. now rewrite Hstate.
  - intros C Hok r1 r2.
    destruct (@StoreFacts.initialized_is_fresh X chunks w self C Hok)
      as (m & db & Hm & Hcs & Hobs).
    fold r1 in Hm, Hobs.
    exact (@StoreFacts.fresh_is_reused X chunks (world r1) (state r1) m db C Hm Hcs Hobs).
Qed.

(** The theorem above on a healthy world: the first initialization builds
    the index, the check that follows is fresh. *)
Lemma staleness_check_refines_spec_witness :
  let chunks := [Toy.doc "The sky is blue." "1"] in
  let r1 := initialize_vector_store (X := Toy.external)
              chunks Toy.healthy Toy.embedded_service in
  res r1 = Ret (true, None)
  /\ In (Call IndexStore "from_documents") (trace r1)
  /\ res (_check_vector_store_rebuild chunks (world r1) (state r1)) = Ret false.
Proof.
  cbv zeta.
  destruct (@staleness_check_refines_spec Toy.external
              [Toy.doc "The sky is blue." "1"] Toy.healthy Toy.embedded_service)
    as (_ & _ & _ & H).
  destruct (H ToyFacts.contract eq_refl) as (Hfresh & _).
  split; [reflexivity |]. split; [vm_compute; auto 10 | exact Hfresh].
Defined.

(** C7 as stated fails twice. The length is measured after the input is
    stripped: 5000 letters followed by a blank are 5001 characters and are
    accepted. And a rejected input is reported with the same mode,
    UNAVAILABLE, as a failure of the LLM: only the text of the answer tells
    them apart. *)
Lemma validation_counts_stripped_length :
  let s := (Py.repeat_char "a" 5000 ++ " ")%string in
  let down := Toy.with_budget 0 Toy.healthy in
  Py.len s = 5001
  /\ TextProcessing.validate_input (PStr s) = (true, "")
  /\ res (generate_response (X := Toy.external) "javascript:alert(1)" ""
                            Toy.healthy Toy.ready_service)
     = Ret ("Invalid input: Input contains suspicious content", UNAVAILABLE)
  /\ res (generate_response (X := Toy.external) "What is X?" "" down Toy.ready_service)
     = Ret (apology, UNAVAILABLE).
Proof.
  cbv zeta. repeat split; vm_compute; reflexivity.
Qed.

(** C7, amended. [validate_input] rejects an input that is blank once
    stripped, one whose stripped length exceeds 5000 characters, and one in
    which a pattern of the deny list occurs, whatever the case of its
    letters. A rejected query reaches no component: [generate_response],
    [search_similar_documents] and [api_chat] call neither the embedding
    model, nor the store, nor the LLM, and leave the world and the state
    as they were. The answer to a rejected query starts with "Invalid
    input: " and so differs from the apology of a failed generation; both
    carry the mode UNAVAILABLE. *)
Theorem validation_short_circuits {X : External} :
  (forall s, Py.strip s = "" ->
             TextProcessing.validate_input (PStr s) = (false, "Input cannot be empty"))
  /\ (forall s, Py.len (Py.strip s) > 5000 ->
                TextProcessing.validate_input (PStr s)
                = (false, "Input too long (max 5000 characters)"))
  /\ (forall s p,
         Py.strip s <> "" ->
         Py.len (Py.strip s) <= 5000 ->
         In p TextProcessing.suspicious_patterns ->
         Re.occurs true p (Py.strip s) ->
         TextProcessing.validate_input (PStr s)
         = (false, "Input contains suspicious content"))
  /\ (forall (query context : string) (k : option Z) (w : World) (self : RAGService),
         fst (TextProcessing.validate_input (PStr query)) = false ->
         let g := generate_response query context w self in
         let f := search_similar_documents query k w self in
         component_calls (trace g) = [] /\ world g = w /\ state g = self
         /\ component_calls (trace f) = [] /\ world f = w /\ state f = self
         /\ res f = Ret ("", []))
  /\ (forall (request : Request) (chat_request : ChatRequest) (w : World) (g : Globals),
         ChatRequest_from_dict (get_json request) = Ret chat_request ->
         fst (TextProcessing.validate_input (PStr (message chat_request))) = false ->
         let r := api_chat request w g in
         component_calls (trace r) = [] /\ world r = w /\ state r = g)
  /\ (forall (query context : string) (w : World) (self : RAGService) (h : LLM),
         llm self = Some h ->
         fst (TextProcessing.validate_input (PStr query)) = false ->
         let reason := snd (TextProcessing.validate_input (PStr query)) in
         res (generate_response query context w self)
         = Ret (("Invalid input: " ++ reason)%string, UNAVAILABLE)
         /\ ("Invalid input: " ++ reason)%string <> apology).
Proof.
  split; [exact TextFacts.validate_input_blank |].
  split; [exact TextFacts.validate_input_long |].
  split; [exact TextFacts.validate_input_suspicious |].
  split; [| split].
  - intros query context k w self Hv g f. subst g f.
    destruct (llm self) as [h|] eqn:Hl.
    + rewrite (generate_response_invalid query context w self Hl Hv).
      destruct (vector_db self) as [db|] eqn:Hdb.
      * rewrite (search_invalid query k w self Hdb Hv). repeat split.
      * rewrite (search_no_store query k w self Hdb). repeat split.
    + rewrite (generate_response_no_llm query context w self Hl).
      destruct (vector_db self) as [db|] eqn:Hdb.
      * rewrite (search_invalid query k w self Hdb Hv). repeat split.
      * rewrite (search_no_store query k w self Hdb). repeat split.
  - intros request chat_request w g Hp Hv.
    exact (api_chat_invalid_message request w g Hp Hv).
  - intros query context w self h Hl Hv reason. subst reason.
    rewrite (generate_response_invalid query context w self Hl Hv).
    split; [reflexivity | discriminate].
Qed.

(** The theorem above on a query of the deny list, whatever its case. *)
Lemma validation_short_circuits_witness :
  let r := api_chat (X := Toy.external) (Toy.ask_json "JavaScript:alert(1)")
             Toy.healthy Toy.ready_globals in
  Re.occurs true TextProcessing.pat_javascript "JavaScript:alert(1)"
  /\ TextProcessing.validate_input (PStr "JavaScript:alert(1)")
     = (false, "Input contains suspicious content")
  /\ component_calls (trace r) = []
  /\ state r = Toy.ready_globals.
Proof.
  cbv zeta.
  assert (Hocc : Re.occurs true TextProcessing.pat_javascript "JavaScript:alert(1)")
    by (apply ReFacts.search_spec; reflexivity).
  destruct (@validation_short_circuits Toy.external) as (_ & _ & Hdeny & _ & Hchat & _).
  split; [exact Hocc |]. split.
  - apply (Hdeny "JavaScript:alert(1)" TextProcessing.pat_javascript);
      [discriminate | vm_compute; discriminate | simpl; auto | exact Hocc].
  - destruct (Hchat (Toy.ask_json "JavaScript:alert(1)")
                    {| message := "JavaScript:alert(1)"; k_context := None |}
                    Toy.healthy Toy.ready_globals eq_refl eq_refl)
      as (Hcalls & _ & Hstate).
    split; [exact Hcalls | exact Hstate].
Defined.




(** C9 fails on the code: with a positive overlap the loop of [chunk_text]
    never ends. On "abc" with chunks of 2 and an overlap of 1 no number of
    turns is enough; and without overlap the loop is left after the first
    chunk, so that "abcdef" in chunks of 2 gives "ab" alone. *)
Theorem chunk_text_never_returns :
  (forall fuel, TextProcessing.chunk_text fuel "abc" 2 1 = None)
  /\ (forall fuel, TextProcessing.chunk_text (S fuel) "abcdef" 2 0 = Some ["ab"]).
Proof.
  split; intros fuel.
  - apply TextFacts.chunk_text_overlap_diverges; [discriminate | lia | lia].
  - rewrite TextFacts.chunk_text_no_overlap; [reflexivity | discriminate | lia | lia].
Qed.

(** C10 fails on the code: [".."] is removed before the separators are, so
    that removing a separator can bring two dots together. The name "./."
    is sanitized to "..", and the file name ".\.x.pdf" to "..x.pdf". The
    rest of the claim holds: the result is never empty, it is made of
    letters, digits, dots, hyphens and underscores only, and so holds no
    separator. *)
Theorem sanitize_filename_keeps_dotdot :
  TextProcessing.sanitize_filename (PStr "./.") = ".."
  /\ TextProcessing.sanitize_filename (PStr ".\.x.pdf") = "..x.pdf"
  /\ Py.contains ".." (TextProcessing.sanitize_filename (PStr ".\.x.pdf")) = true
  /\ (forall a, TextProcessing.sanitize_filename a <> ""
                /\ Py.all_chars TextProcessing.filename_char
                                (TextProcessing.sanitize_filename a) = true
                /\ Py.contains "/" (TextProcessing.sanitize_filename a) = false
                /\ Py.contains "\" (TextProcessing.sanitize_filename a) = false).
Proof.
  repeat split; try reflexivity.
  - apply TextFacts.sanitize_filename_nonempty.
  - apply TextFacts.sanitize_filename_charset.
  - apply TextFacts.sanitize_filename_no_separator.
  - apply TextFacts.sanitize_filename_no_separator.
Qed.
(* ================================================================== *)
(** * Further properties of the code *)
(* ================================================================== *)

(** ** utils/text_processing.py *)

(** X1. [normalize_text] is its first and its last step: once the white
    space is collapsed to single blanks there is no line break left, so
    that the removal of the hyphenated line breaks and the merging of the
    newlines find nothing to change. A hyphen at the end of a line stays,
    followed by a blank. What is not a string gives the empty string. *)
Theorem normalize_text_two_steps :
  (forall s,
      TextProcessing.normalize_text (PStr s)
      = TextProcessing.remove_chars TextProcessing.control_char
          (Py.strip (TextProcessing.sub_runs Py.isspace " " false s)))
  /\ (forall a b,
         Py.all_chars printable a = true -> Py.all_chars printable b = true ->
         Py.all_chars (fun c => negb (Py.isspace c)) a = true ->
         Py.all_chars (fun c => negb (Py.isspace c)) b = true ->
         a <> "" -> b <> "" ->
         TextProcessing.normalize_text
           (PStr (a ++ TextProcessing.hyphen_newline ++ b))
         = (a ++ "- " ++ b)%string)
  /\ TextProcessing.normalize_text PNotStr = "".
Proof.
  split; [exact NormalizeFacts.normalize_text_steps |].
  split; [| reflexivity].
  intros a b Ha Hb Hsa Hsb Hna Hnb.
  apply NormalizeFacts.normalize_text_broken_word; assumption.
Qed.

(** X2. What [normalize_text] returns holds no character of the class
    its last step removes, and no white space but the blank: no
    tabulation, no line break, no carriage return, whatever the text. And
    it invents nothing: a character of the result is a character of the
    text, or a blank. *)
Theorem normalize_text_result_characters :
  (forall a : pyarg,
      Py.all_chars (fun c => negb (TextProcessing.control_char c) && blank_or_ink c)%bool
                   (TextProcessing.normalize_text a) = true)
  /\ (forall (p : ascii -> bool) (s : string),
         p " "%char = true ->
         Py.all_chars p s = true ->
         Py.all_chars p (TextProcessing.normalize_text (PStr s)) = true).
Proof.
  split.
  - intros [s|]; [| reflexivity].
    rewrite NormalizeFacts.normalize_text_steps.
    apply NormalizeFacts.all_chars_both.
    + apply NormalizeFacts.remove_chars_removed.
    + apply NormalizeFacts.remove_chars_all_chars, NormalizeFacts.collapsed_blank_or_ink.
  - intros p s Hp Hs.
    rewrite NormalizeFacts.normalize_text_steps.
    apply NormalizeFacts.remove_chars_all_chars.
    apply StripFacts.strip_all_chars.
    now apply NormalizeFacts.sub_runs_all_chars.
Qed.

(** X3. On a text without control characters [normalize_text] is
    idempotent, and its result is tidy: no white space at either end, and
    between two words one blank and no more. *)
Theorem normalize_text_idempotent (s : string) :
  Py.all_chars (fun c => negb (TextProcessing.control_char c)) s = true ->
  let t := TextProcessing.normalize_text (PStr s) in
  TextProcessing.normalize_text (PStr t) = t
  /\ Py.strip t = t
  /\ single_spaced false t = true.
Proof.
  intros H t. subst t.
  rewrite (NormalizeFacts.normalize_text_plain s H).
  assert (Hc : Py.all_chars (fun c => negb (TextProcessing.control_char c)) (collapsed s)
               = true)
    by now apply NormalizeFacts.collapsed_no_control.
  rewrite (NormalizeFacts.normalize_text_plain (collapsed s) Hc).
  split; [apply NormalizeFacts.collapsed_idempotent |].
  split; [apply StripFacts.strip_idempotent | apply NormalizeFacts.collapsed_single].
Qed.

(** The theorem above on a text with tabulations, line breaks and blanks
    in a row. *)
Lemma normalize_text_idempotent_witness :
  let s := String (ascii_of_nat 9) ("  The sky" ++ TextProcessing.newline
                                      ++ TextProcessing.newline ++ "is   blue.  ") in
  TextProcessing.normalize_text (PStr s) = "The sky is blue."
  /\ TextProcessing.normalize_text (PStr (TextProcessing.normalize_text (PStr s)))
     = TextProcessing.normalize_text (PStr s).
Proof.
  cbv zeta. split; [reflexivity |].
  exact (proj1 (normalize_text_idempotent
                  (String (ascii_of_nat 9) ("  The sky" ++ TextProcessing.newline
                                              ++ TextProcessing.newline ++ "is   blue.  "))
                  eq_refl)).
Defined.

(** X4. For every [max_length], [validate_input] accepts a string exactly
    when, once stripped, it is not empty, has at most [max_length]
    characters, and none of the four patterns occurs in it; what is not a
    string is rejected. So an input accepted under one bound is accepted
    under every larger one, and none is under a bound below 1. *)
Theorem validate_input_accepts_exactly :
  (forall s max_length,
      fst (TextProcessing.validate_input_max (PStr s) max_length) = true <->
      Py.strip s <> "" /\ Py.len (Py.strip s) <= max_length
      /\ forall p, In p TextProcessing.suspicious_patterns ->
                   ~ Re.occurs true p (Py.strip s))
  /\ (forall max_length,
         TextProcessing.validate_input_max PNotStr max_length
         = (false, "Input must be a string"))
  /\ (forall s m m',
         m <= m' ->
         fst (TextProcessing.validate_input_max (PStr s) m) = true ->
         fst (TextProcessing.validate_input_max (PStr s) m') = true)
  /\ (forall s max_length,
         max_length < 1 ->
         fst (TextProcessing.validate_input_max (PStr s) max_length) = false).
Proof.
  split; [exact ValidateFacts.validate_input_max_accepts |].
  split; [reflexivity |].
  split.
  - intros s m m' Hm H.
    apply ValidateFacts.validate_input_max_accepts in H.
    apply ValidateFacts.validate_input_max_accepts.
    destruct H as (H1 & H2 & H3). repeat split; [assumption | lia | assumption].
  - intros s m Hm.
    destruct (fst (TextProcessing.validate_input_max (PStr s) m)) eqn:E; [| reflexivity].
    apply ValidateFacts.validate_input_max_accepts in E.
    destruct E as (H1 & H2 & _).
    destruct (Py.strip s) as [|c t]; [congruence |].
    unfold Py.len in H2. cbn [String.length] in H2. lia.
Qed.

(** X5. The verdict of [validate_input], and its message, depend on the
    stripped text alone: white space around the input changes nothing. *)
Theorem validate_input_ignores_surrounding_space :
  forall s max_length,
    TextProcessing.validate_input_max (PStr (Py.strip s)) max_length
    = TextProcessing.validate_input_max (PStr s) max_length.
Proof.
  intros s max_length. unfold TextProcessing.validate_input_max.
  now rewrite StripFacts.strip_idempotent.
Qed.

(** X6. An input in which [javascript:] or [data:text/html] stands
    somewhere, in any case of the letters, is never accepted, whatever
    the bound on the length. *)
Theorem validate_input_rejects_script_urls (s pre mid post : string) (max_length : Z) :
  s = (pre ++ mid ++ post)%string ->
  Py.map_chars Py.lower mid = "javascript:"
  \/ Py.map_chars Py.lower mid = "data:text/html" ->
  fst (TextProcessing.validate_input_max (PStr s) max_length) = false.
Proof.
  intros Hs [H|H].
  - apply (@ValidateFacts.literal_rejected "javascript:" s pre mid post max_length);
      [simpl; auto | discriminate | reflexivity | assumption | assumption].
  - apply (@ValidateFacts.literal_rejected "data:text/html" s pre mid post max_length);
      [simpl; auto 6 | discriminate | reflexivity | assumption | assumption].
Qed.

(** The theorem above on a link in mixed case inside a sentence. *)
Lemma validate_input_rejects_script_urls_witness :
  TextProcessing.validate_input (PStr "  see JavaScript:alert(1) ")
  = (false, "Input contains suspicious content")
  /\ fst (TextProcessing.validate_input_max (PStr "  see JavaScript:alert(1) ") 5000) = false.
Proof.
  split; [reflexivity |].
  exact (@validate_input_rejects_script_urls
           "  see JavaScript:alert(1) " "  see " "JavaScript:" "alert(1) " 5000
           eq_refl (or_introl eq_refl)).
Defined.

(** X7. An input that holds an attribute whose name starts with [on]
    followed by an equals sign, with or without white space before the
    sign, or an opening and a closing [script] tag with no line break in
    between, in any case of the letters, is never accepted: this takes in
    plain text such as "phone = 5". *)
Theorem validate_input_rejects_handlers_and_scripts :
  (forall s pre o w sp post max_length,
      s = (pre ++ (o ++ w ++ sp ++ "=") ++ post)%string ->
      Py.map_chars Py.lower o = "on" ->
      w <> "" ->
      Py.all_chars (Re.cls_match true Re.Word) w = true ->
      Py.all_chars Py.isspace sp = true ->
      fst (TextProcessing.validate_input_max (PStr s) max_length) = false)
  /\ (forall s pre a x y b post max_length,
         s = (pre ++ (a ++ x ++ ">" ++ y ++ b) ++ post)%string ->
         Py.map_chars Py.lower a = "<script" ->
         Py.map_chars Py.lower b = "</script>" ->
         Py.all_chars (Re.cls_match true Re.Dot) x = true ->
         Py.all_chars (Re.cls_match true Re.Dot) y = true ->
         fst (TextProcessing.validate_input_max (PStr s) max_length) = false)
  /\ TextProcessing.validate_input (PStr "My phone = 5")
     = (false, "Input contains suspicious content").
Proof.
  split; [exact ValidateFacts.handler_rejected |].
  split; [exact ValidateFacts.script_rejected | reflexivity].
Qed.

(** X8. When the name holds no separator, neither [/] nor the backslash,
    the result of [sanitize_filename] holds no [..], and sanitizing it
    again changes nothing. *)
Theorem sanitize_filename_without_separator (s : string) :
  Py.contains "/" s = false ->
  Py.contains "\" s = false ->
  let t := TextProcessing.sanitize_filename (PStr s) in
  Py.contains ".." t = false
  /\ TextProcessing.sanitize_filename (PStr t) = t.
Proof.
  intros H1 H2 t.
  assert (Hd : Py.contains dotdot t = false)
    by now apply SanitizeFacts.sanitize_filename_no_dotdot.
  split; [exact Hd |].
  apply SanitizeFacts.sanitize_filename_fixed;
    [apply TextFacts.sanitize_filename_nonempty
    | apply TextFacts.sanitize_filename_charset
    | exact Hd].
Qed.

(** The theorem above on a name with dots in a row and a blank. *)
Lemma sanitize_filename_without_separator_witness :
  TextProcessing.sanitize_filename (PStr "my...report v2.pdf") = "my.report_v2.pdf"
  /\ Py.contains ".." (TextProcessing.sanitize_filename (PStr "my...report v2.pdf")) = false.
Proof.
  split; [reflexivity |].
  exact (proj1 (sanitize_filename_without_separator "my...report v2.pdf" eq_refl eq_refl)).
Defined.

(** X9. A name that is not empty, is made of letters, digits, dots,
    hyphens and underscores only and holds no [..] is returned as it is. *)
Theorem sanitize_filename_keeps_safe_names (s : string) :
  s <> "" ->
  Py.all_chars TextProcessing.filename_char s = true ->
  Py.contains ".." s = false ->
  TextProcessing.sanitize_filename (PStr s) = s.
Proof. exact (SanitizeFacts.sanitize_filename_fixed (s := s)). Qed.

(** The theorem above on the name of a report. *)
Lemma sanitize_filename_keeps_safe_names_witness :
  TextProcessing.sanitize_filename (PStr "annual-report_2024.v2.pdf")
  = "annual-report_2024.v2.pdf".
Proof.
  exact (@sanitize_filename_keeps_safe_names "annual-report_2024.v2.pdf"
           ltac:(discriminate) eq_refl eq_refl).
Defined.

(** X10. [chunk_text] returns exactly when the text is empty, the chunk
    size is not positive or the overlap is not positive, and what it
    returns is never more than one chunk: the empty list, or the first
    [chunk_size] characters of the text when they are not blank. *)
Theorem chunk_text_returns_one_chunk_at_most (text : string) (chunk_size overlap : Z) :
  ((exists fuel l, TextProcessing.chunk_text fuel text chunk_size overlap = Some l)
   <-> (text = "" \/ chunk_size <= 0 \/ overlap <= 0))
  /\ (forall fuel l,
         TextProcessing.chunk_text fuel text chunk_size overlap = Some l ->
         l = []
         \/ (l = [Py.slice text 0 chunk_size]
             /\ Py.strip (Py.slice text 0 chunk_size) <> "")).
Proof.
  assert (Hslice : chunk_size > 0 ->
                   Py.slice text 0 (Z.min chunk_size (Py.len text))
                   = Py.slice text 0 chunk_size).
  { intros Hc. unfold Py.slice, Py.clamp_index.
    assert (0 <= Py.len text) by (unfold Py.len; lia).
    replace (Z.min chunk_size (Py.len text) <? 0) with false
      by (symmetry; apply Z.ltb_ge; lia).
    replace (chunk_size <? 0) with false by (symmetry; apply Z.ltb_ge; lia).
    replace (Z.min (Z.min chunk_size (Py.len text)) (Py.len text))
      with (Z.min chunk_size (Py.len text)) by lia.
    reflexivity. }
  destruct text as [|c t] eqn:Et.
  { split.
    - split; [auto |]. intros _. exists 0%nat, []. reflexivity.
    - intros fuel l H. cbn in H. injection H as <-. now left. }
  rewrite <- Et in *.
  assert (Hne : text <> "") by (rewrite Et; discriminate).
  destruct (Z_le_gt_dec chunk_size 0) as [Hc|Hc].
  { assert (E : forall fuel, TextProcessing.chunk_text fuel text chunk_size overlap = Some []).
    { intros fuel. unfold TextProcessing.chunk_text.
      replace (chunk_size <=? 0) with true by (symmetry; apply Z.leb_le; lia).
      now rewrite orb_true_r. }
    split.
    - split; [auto |]. intros _. exists 0%nat, []. apply E.
    - intros fuel l H. rewrite E in H. injection H as <-. now left. }
  destruct (Z_le_gt_dec overlap 0) as [Ho|Ho].
  - pose proof (TextFacts.chunk_text_no_overlap Hne Hc Ho) as E.
    cbv zeta in E. rewrite (Hslice Hc) in E.
    split.
    + split; [auto |]. intros _. eexists 1%nat, _. apply E.
    + intros [|fuel] l H.
      * unfold TextProcessing.chunk_text in H. rewrite Et in H.
        cbn [Py.truthy negb orb] in H.
        replace (chunk_size <=? 0) with false in H by (symmetry; apply Z.leb_gt; lia).
        cbn in H. discriminate.
      * rewrite E in H. injection H as <-.
        destruct (Py.strip (Py.slice text 0 chunk_size)) eqn:Es; cbn [Py.truthy].
        -- now left.
        -- right. split; [reflexivity | discriminate].
  - pose proof (TextFacts.chunk_text_overlap_diverges Hne Hc Ho) as E.
    split.
    + split; [| intros [H|[H|H]]; [congruence | lia | lia]].
      intros (fuel & l & H). rewrite E in H. discriminate.
    + intros fuel l H. rewrite E in H. discriminate.
Qed.

(** ** models/chat_models.py *)

(** X11. What [ChatRequest.from_dict] returns has a message that is not
    empty and has no white space at either end, the stripped text of the
    request, and a [k_context] that is absent or positive; so the number
    of documents [api_chat] asks for is the [k_context] of the request
    when there is one, and the default otherwise. A [k_context] that
    [int] turns into zero or less is refused with "k_context must be a
    positive integer": the text "k_context must be positive" of the inner
    [raise] is never seen. With a message that is a string or is absent,
    every refusal is a [ValueError] with one of two texts, but for a
    [k_context] on which [int] overflows: the [OverflowError] of an
    infinite float leaves [from_dict] as it is. *)
Theorem from_dict_postconditions {X : External} :
  (forall data r,
      ChatRequest_from_dict data = Ret r ->
      message r <> ""
      /\ Py.strip (message r) = message r
      /\ (exists s, json_message data = MsgStr s /\ message r = Py.strip s)
      /\ match k_context r with
         | None => json_k_context data = KNone /\ effective_k r = DEFAULT_K_RETRIEVAL config
         | Some k => json_k_context data = KInt k /\ 0 < k /\ effective_k r = k
         end)
  /\ (forall s k,
         Py.strip s <> "" -> k <= 0 ->
         ChatRequest_from_dict {| json_message := MsgStr s; json_k_context := KInt k |}
         = Raise (Exn ValueError "k_context must be a positive integer"))
  /\ (forall data e,
         ChatRequest_from_dict data = Raise e ->
         json_message data <> MsgNotStr ->
         json_k_context data <> KOverflow ->
         exn_cls e = ValueError
         /\ (exn_str e = "Message cannot be empty"
             \/ exn_str e = "k_context must be a positive integer")).
Proof.
  split; [| split].
  - intros data r. unfold ChatRequest_from_dict.
    destruct (json_message data) as [|s|] eqn:Hm; try discriminate.
    destruct (Py.strip s) as [|c t] eqn:Hs; [discriminate |]. cbn [Py.truthy negb].
    destruct (json_k_context data) as [|k| |] eqn:Hk; try discriminate.
    + intros H. injection H as <-. cbn [message k_context].
      split; [discriminate |].
      split; [rewrite <- Hs; apply StripFacts.strip_idempotent |].
      split; [exists s; auto |]. split; reflexivity.
    + destruct (k <=? 0) eqn:Hle; [discriminate |].
      apply Z.leb_gt in Hle.
      intros H. injection H as <-. cbn [message k_context].
      split; [discriminate |].
      split; [rewrite <- Hs; apply StripFacts.strip_idempotent |].
      split; [exists s; auto |].
      split; [reflexivity |]. split; [assumption |].
      unfold effective_k. cbn [k_context].
      replace (k =? 0) with false by (symmetry; apply Z.eqb_neq; lia). reflexivity.
  - intros s k Hs Hk. unfold ChatRequest_from_dict. cbn [json_message json_k_context].
    destruct (Py.strip s); [congruence |]. cbn [Py.truthy negb].
    replace (k <=? 0) with true by (symmetry; apply Z.leb_le; lia). reflexivity.
  - intros data e. unfold ChatRequest_from_dict.
    destruct (json_message data) as [|s|]; [| | congruence].
    + intros H _ _. injection H as <-. auto.
    + destruct (negb (Py.truthy (Py.strip s))); [intros H _ _; injection H as <-; auto |].
      destruct (json_k_context data) as [|k| |]; [discriminate | | | congruence].
      * destruct (k <=? 0); [| discriminate]. intros H _ _. injection H as <-. auto.
      * intros H _ _. injection H as <-. auto.
Qed.

(** ** services/rag_service.py *)

(** X12. [initialize_embedding_model] never raises. It returns [True]
    exactly when the model was loaded and has embedded the test sentence,
    and then the service holds that model. When loading raises, or when
    the test embedding does, it logs the error and returns [False] with
    the text of the exception, and the handle is [None], whatever it was
    and even when the model itself had been loaded. So the flag tells
    whether the service holds a model. The LLM and the store are not
    touched. *)
Theorem initialize_embedding_model_sets_handle {X : External} :
  forall (w : World) (self : RAGService),
    let r := initialize_embedding_model w self in
    let failed (e : exn) :=
      res r = Ret (false, Some ("Embedding model initialization failed: " ++ exn_str e)%string)
      /\ embedding_model (state r) = None
      /\ In (Log ERROR ("Error initializing embedding model: " ++ exn_str e)) (trace r) in
    match HuggingFaceEmbeddings (HF_EMBEDDING_MODEL_NAME config) w with
    | (Ret m, w1) =>
        match embed_query m "Test embedding" w1 with
        | (Ret _, w2) =>
            res r = Ret (true, None)
            /\ embedding_model (state r) = Some m
            /\ world r = w2
            /\ component_calls (trace r)
               = [Call Embedder "HuggingFaceEmbeddings"; Call Embedder "embed_query"]
        | (Raise e, w2) =>
            failed e /\ world r = w2
            /\ component_calls (trace r)
               = [Call Embedder "HuggingFaceEmbeddings"; Call Embedder "embed_query"]
        end
    | (Raise e, w1) =>
        failed e /\ world r = w1
        /\ component_calls (trace r) = [Call Embedder "HuggingFaceEmbeddings"]
    end
    /\ (res r = Ret (true, None) <-> embedding_model (state r) <> None)
    /\ llm (state r) = llm self
    /\ vector_db (state r) = vector_db self
    /\ is_ready (state r) = is_ready self.
Proof.
  intros w self. cbv zeta. unfold initialize_embedding_model. mrun.
  destruct (HuggingFaceEmbeddings (HF_EMBEDDING_MODEL_NAME config) w) as [[m|e] w1] eqn:Hc;
    cbn [fst snd]; mrun.
  - destruct (embed_query m "Test embedding" w1) as [[v|e] w2]; cbn [fst snd]; mrun.
    + repeat split; try reflexivity; try discriminate.
    + repeat split; try reflexivity; try discriminate; try in_trace; try congruence.
  - repeat split; try reflexivity; try discriminate; try in_trace; try congruence.
Qed.

(** X13. [initialize_llm] never raises. Without an API key it calls
    nothing and changes nothing. With one, it returns [True] exactly when
    the client was built and has answered the test prompt "Hello", and
    then the service holds that client. When building the client raises,
    or when the test prompt does, it logs the error and returns [False]
    with the text of the exception, and the LLM handle is [None], even
    when the client itself had been built. The embedding model and the
    store are not touched. *)
Theorem initialize_llm_sets_handle {X : External} :
  forall (w : World) (self : RAGService),
    let r := initialize_llm w self in
    let failed (e : exn) :=
      res r = Ret (false, Some ("LLM initialization failed: " ++ exn_str e)%string)
      /\ llm (state r) = None
      /\ In (Log ERROR ("Error initializing LLM: " ++ exn_str e)) (trace r) in
    match GROQ_API_KEY config with
    | None | Some EmptyString =>
        r = Result (Ret (false, Some "GROQ_API_KEY not configured")) w self []
    | Some key =>
        match ChatGroq (GROQ_MODEL_NAME config) key w with
        | (Ret h, w1) =>
            match llm_invoke h "Hello" w1 with
            | (Ret _, w2) =>
                res r = Ret (true, None)
                /\ llm (state r) = Some h
                /\ world r = w2
                /\ component_calls (trace r)
                   = [Call Generator "ChatGroq"; Call Generator "invoke"]
            | (Raise e, w2) =>
                failed e /\ world r = w2
                /\ component_calls (trace r)
                   = [Call Generator "ChatGroq"; Call Generator "invoke"]
            end
        | (Raise e, w1) =>
            failed e /\ world r = w1
            /\ component_calls (trace r) = [Call Generator "ChatGroq"]
        end
        /\ (res r = Ret (true, None) <-> llm (state r) <> None)
        /\ embedding_model (state r) = embedding_model self
        /\ vector_db (state r) = vector_db self
        /\ is_ready (state r) = is_ready self
    end.
Proof.
  intros w self. cbv zeta. unfold initialize_llm.
  destruct (GROQ_API_KEY config) as [[|c key]|]; [reflexivity | | reflexivity].
  mrun.
  destruct (ChatGroq (GROQ_MODEL_NAME config) (String c key) w) as [[h|e] w1] eqn:Hc;
    cbn [fst snd]; mrun.
  - destruct (llm_invoke h "Hello" w1) as [[v|e] w2]; cbn [fst snd]; mrun.
    + repeat split; try reflexivity; try discriminate.
    + repeat split; try reflexivity; try discriminate; try in_trace; try congruence.
  - repeat split; try reflexivity; try discriminate; try in_trace; try congruence.
Qed.

(** X14. [initialize_vector_store] refuses to work without an embedding
    model or without chunks, and then calls nothing and changes nothing.
    Past these two tests, the flag it returns tells whether the service
    holds a store when it returns: [True] comes with a store, [False]
    with none, whatever store the service held before. *)
Theorem initialize_vector_store_sets_handle {X : External} :
  forall (cs : list Document) (w : World) (self : RAGService),
    let r := initialize_vector_store cs w self in
    (embedding_model self = None ->
     r = Result (Ret (false, Some "Embedding model not initialized")) w self [])
    /\ (embedding_model self <> None -> cs = [] ->
        r = Result (Ret (false, Some "No chunks provided for vector store")) w self [])
    /\ (embedding_model self <> None -> cs <> [] ->
        (res r = Ret (true, None) /\ exists db, vector_db (state r) = Some db)
        \/ (exists err, res r = Ret (false, Some err) /\ vector_db (state r) = None))
    /\ llm (state r) = llm self
    /\ embedding_model (state r) = embedding_model self.
Proof.
  intros cs w self. cbv zeta.
  split; [| split; [| split; [| split]]].
  - intros H. unfold initialize_vector_store. mrun. now rewrite H.
  - intros H ->. unfold initialize_vector_store. mrun.
    destruct (embedding_model self); [reflexivity | congruence].
  - intros H Hcs. destruct (embedding_model self) as [m|] eqn:Hm; [| congruence].
    exact (@HandleFacts.initialize_vector_store_cases X cs w self m Hm Hcs).
  - apply initialize_vector_store_keeps_llm.
  - apply initialize_vector_store_keeps_embedding.
Qed.


(** X16. [_clean_vector_store_directory] never raises and leaves the
    service as it is. It lists the directory three times at most and
    pauses twice at most. It does nothing when the directory does not
    exist, stops after the first pass that goes through, and stops at
    once on an error that is no [PermissionError]. *)
Theorem clean_vector_store_directory_is_bounded {X : External} :
  forall (w : World) (self : RAGService),
    let r := _clean_vector_store_directory w self in
    res r = Ret tt
    /\ state r = self
    /\ (count is_listdir (trace r) <= 3)%nat
    /\ (count is_sleep (trace r) <= 2)%nat
    /\ (os_path_exists (CHROMA_PERSIST_DIR config) w = false ->
        r = Result (Ret tt) w self [])
    /\ (os_path_exists (CHROMA_PERSIST_DIR config) w = true ->
        forall w1 t1,
          clean_once w self = Result (Ret tt) w1 self t1 ->
          r = Result (Ret tt) w1 self t1)
    /\ (os_path_exists (CHROMA_PERSIST_DIR config) w = true ->
        forall e w1 t1,
          clean_once w self = Result (Raise e) w1 self t1 ->
          exn_cls e <> PermissionError ->
          r = Result (Ret tt) w1 self
                (t1 ++ [Log ERROR ("Unexpected error cleaning directory: " ++ exn_str e)])).
Proof.
  intros w self. cbv zeta.
  destruct (HandleFacts.clean_run w self) as (w' & t & Hrun).
  split; [now rewrite Hrun |]. split; [now rewrite Hrun |].
  assert (Hcount : (count is_listdir (trace (_clean_vector_store_directory w self)) <= 3)%nat
                   /\ (count is_sleep (trace (_clean_vector_store_directory w self)) <= 2)%nat).
  { unfold _clean_vector_store_directory. mrun.
    destruct (os_path_exists (CHROMA_PERSIST_DIR config) w); cbn [negb]; mrun.
    - pose proof (@HandleFacts.clean_attempts_counts X RAGService
                    (Z.to_nat MAX_REBUILD_ATTEMPTS) 0 w self ltac:(lia)) as H.
      cbv zeta in H.
      destruct (clean_attempts (Z.to_nat MAX_REBUILD_ATTEMPTS) 0 w self) as [o w2 s2 t2].
      cbn [trace] in *. exact H.
    - cbn. split; lia. }
  split; [apply Hcount |]. split; [apply Hcount |].
  split; [| split].
  - intros He. unfold _clean_vector_store_directory. mrun. now rewrite He.
  - intros He w1 t1 Hc. unfold _clean_vector_store_directory. mrun. rewrite He.
    cbn [negb]. change (Z.to_nat MAX_REBUILD_ATTEMPTS) with 3%nat.
    cbn [clean_attempts]. mrun. rewrite Hc. mrun. now rewrite !app_nil_r.
  - intros He e w1 t1 Hc Hcls. unfold _clean_vector_store_directory. mrun. rewrite He.
    cbn [negb]. change (Z.to_nat MAX_REBUILD_ATTEMPTS) with 3%nat.
    cbn [clean_attempts]. mrun. rewrite Hc.
    destruct (exn_cls e); [congruence | | | |]; mrun; now rewrite ?app_nil_r.
Qed.

(** X17. [search_similar_documents] never raises and leaves the service
    as it is; it calls the store once at most, and nothing else. Without
    a store, and when the store raises, it returns the empty context and
    no source. When the store answers, there are as many sources as
    documents returned, so that a context that is not empty always comes
    with a source. *)
Theorem search_similar_documents_is_contained {X : External} :
  forall (query : string) (k : option Z) (w : World) (self : RAGService),
    let r := search_similar_documents query k w self in
    state r = self
    /\ (exists context sources,
           res r = Ret (context, sources) /\ (context <> "" -> sources <> []))
    /\ (component_calls (trace r) = []
        \/ component_calls (trace r) = [Call IndexStore "similarity_search_with_score"])
    /\ (vector_db self = None -> res r = Ret ("", []) /\ component_calls (trace r) = [])
    /\ (forall db e w1,
           vector_db self = Some db ->
           similarity_search_with_score db query (k_or_default k) w = (Raise e, w1) ->
           res r = Ret ("", [])
           /\ (fst (TextProcessing.validate_input (PStr query)) = true ->
               In (Log ERROR ("Error searching similar documents: " ++ exn_str e)) (trace r)))
    /\ (forall db hits w1,
           vector_db self = Some db ->
           fst (TextProcessing.validate_input (PStr query)) = true ->
           similarity_search_with_score db query (k_or_default k) w = (Ret hits, w1) ->
           exists context,
             res r = Ret (context, map to_source hits)
             /\ length (map to_source hits) = length hits).
Proof.
  intros query k w self. cbv zeta.
  destruct (vector_db self) as [db|] eqn:Hdb.
  2: { rewrite (@search_no_store X query k w self Hdb). cbn [res state trace].
       repeat split; try (intros; discriminate); auto.
       exists "", []. split; [reflexivity | congruence]. }
  destruct (fst (TextProcessing.validate_input (PStr query))) eqn:Hv.
  2: { rewrite (@search_invalid X query k w self db Hdb Hv). cbn [res state trace].
       repeat split; try (intros; discriminate); auto.
       exists "", []. split; [reflexivity | congruence]. }
  pose proof (@search_runs X query k w self db Hdb Hv) as Hrun. cbv zeta in Hrun. rewrite Hrun.
  cbn [res state trace].
  split; [reflexivity |].
  split.
  { destruct (fst (similarity_search_with_score db query (k_or_default k) w))
      as [[|hit hits]|e]; cbn [found_of].
    - exists "", []. split; [reflexivity | congruence].
    - eexists _, _. split; [reflexivity |]. intros _. discriminate.
    - exists "", []. split; [reflexivity | congruence]. }
  split.
  { right. destruct (fst (similarity_search_with_score db query (k_or_default k) w))
      as [[|hit hits]|e]; reflexivity. }
  split; [intros; discriminate |].
  split.
  - intros db' e w1 Hdb' Hs. injection Hdb' as <-. rewrite Hs. cbn [fst found_of].
    split; [reflexivity |]. intros _. in_trace.
  - intros db' hits w1 Hdb' _ Hs. injection Hdb' as <-. rewrite Hs. cbn [fst found_of].
    destruct hits as [|hit hits].
    + exists "". split; reflexivity.
    + eexists. split; [reflexivity | apply length_map].
Qed.

(** X18. When the LLM answers, [generate_response] returns its answer
    stripped, the service and nothing else being as before, and the mode
    is RAG exactly when a context was given, LLM_ONLY otherwise: never
    UNAVAILABLE. Without a context the LLM is sent the question as it is;
    with one, a fixed text in which the context comes first and the
    question after it. *)
Theorem generate_response_answers {X : External} :
  (forall (query context : string) (w w1 : World) (self : RAGService) (h : LLM)
          (reply : Response),
      llm self = Some h ->
      fst (TextProcessing.validate_input (PStr query)) = true ->
      llm_invoke h (fst (prompt_and_mode query context)) w = (Ret reply, w1) ->
      let r := generate_response query context w self in
      res r = Ret (Py.strip (match content reply with
                             | Some c => c
                             | None => response_str reply
                             end),
                   if Py.truthy context then RAG else LLM_ONLY)
      /\ state r = self
      /\ world r = w1
      /\ component_calls (trace r) = [Call Generator "invoke"])
  /\ (forall query, prompt_and_mode query "" = (query, LLM_ONLY))
  /\ (exists head middle tail : string,
         forall query context,
           context <> "" ->
           prompt_and_mode query context
           = ((head ++ context ++ middle ++ query ++ tail)%string, RAG)).
Proof.
  split; [| split].
  - intros query context w w1 self h reply Hl Hv Hi. cbv zeta.
    pose proof (@generate_response_calls_llm X query context w self h Hl Hv) as Hrun.
    cbv zeta in Hrun. rewrite Hrun, Hi. cbn [fst snd res state world trace answer_of].
    unfold prompt_and_mode. destruct (Py.truthy context); cbn [snd]; auto.
  - reflexivity.
  - exists (substring 0 822 (_create_rag_prompt "" "")),
           (substring 822 35 (_create_rag_prompt "" "")),
           (substring 857 92 (_create_rag_prompt "" "")).
    intros query context Hc. unfold prompt_and_mode.
    destruct context as [|c t]; [congruence |]. cbn [Py.truthy].
    f_equal.
Qed.

(** ** services/document_service.py *)

(** X19. [load_documents] never raises, starts from empty lists, and
    returns [True] exactly when it leaves at least one document loaded.
    Whatever the folder holds, the lists it leaves are consistent: no
    file name is recorded twice, every recorded name is a sanitized one,
    and every loaded document carries the recorded name of its file as
    its [source_file]. The chunks of an earlier run are left as they are. *)
Theorem load_documents_leaves_consistent_lists {X : External} :
  forall (w : World) (s : DocumentService),
    let r := load_documents w s in
    documents_consistent (state r)
    /\ chunks (state r) = chunks s
    /\ (res r = Ret (true, None) \/ exists err, res r = Ret (false, Some err))
    /\ (res r = Ret (true, None) <-> loaded_documents (state r) <> []).
Proof.
  intros w s. cbv zeta. unfold load_documents. mrun.
  set (s0 := {| loaded_documents := []; chunks := chunks s; loaded_filenames := [] |}).
  assert (I0 : documents_consistent s0).
  { unfold documents_consistent, s0. cbn. split; [constructor | split; intros ? []]. }
  destruct (os_makedirs (PDF_FOLDER config) w) as [[[]|e] w1]; cbn [fst snd]; mrun.
  2: { split; [exact I0 |]. split; [reflexivity |]. split; [right; eauto |].
       split; [discriminate | intros H; exfalso; apply H; reflexivity]. }
  destruct (DocumentFacts.load_files_total PDF w1 s0) as [b1 Hb1].
  pose proof (@DocumentFacts.load_files_consistent X PDF w1 s0 I0) as I1.
  pose proof (DocumentFacts.load_files_keeps_chunks PDF w1 s0) as K1.
  destruct (_load_files PDF w1 s0) as [o1 w2 s1 t1]. cbn [res state] in *. subst o1. mrun.
  destruct (DocumentFacts.load_files_total CSV w2 s1) as [b2 Hb2].
  pose proof (@DocumentFacts.load_files_consistent X CSV w2 s1 I1) as I2.
  pose proof (DocumentFacts.load_files_keeps_chunks CSV w2 s1) as K2.
  destruct (_load_files CSV w2 s1) as [o2 w3 s2 t2]. cbn [res state] in *. subst o2. mrun.
  assert (Hc : chunks s2 = chunks s) by (rewrite K2, K1; reflexivity).
  destruct (loaded_documents s2) as [|d ds] eqn:Hd; mrun.
  - split; [exact I2 |]. split; [exact Hc |]. split; [right; eauto |].
    split; [discriminate | intros H; exfalso; apply H; exact Hd].
  - split; [exact I2 |]. split; [exact Hc |]. split; [now left |].
    split; [intros _; rewrite Hd; discriminate | reflexivity].
Qed.

(** X20. One file that cannot be read does not stop the load: when the
    loader of a file raises, [_load_single_pdf] and [_load_single_csv]
    log the error, return [False] and leave the lists as they are; and
    once the folder has been listed, [_load_pdf_files] and
    [_load_csv_files] return [True] whatever happened to each file. Only
    a folder that cannot be listed makes them return [False]. *)
Theorem one_unreadable_file_does_not_stop_the_load {X : External} :
  (forall (k : file_kind) (filename : string) (e : exn) (w : World) (s : DocumentService),
      os_path_exists (os_path_join (PDF_FOLDER config) filename) w = true ->
      _load_single k (filename, Raise e) w s
      = Result (Ret false) w s
          [Log INFO ("Loading " ++ kind_name k ++ ": " ++ filename);
           Log ERROR ("Error loading " ++ kind_name k ++ " " ++ filename ++ ": "
                        ++ exn_str e)])
  /\ (forall (k : file_kind) (w w1 : World) (s : DocumentService) files,
         load_folder k (PDF_FOLDER config) w = (Ret files, w1) ->
         res (_load_files k w s) = Ret true)
  /\ (forall (k : file_kind) (w w1 : World) (s : DocumentService) (e : exn),
         load_folder k (PDF_FOLDER config) w = (Raise e, w1) ->
         _load_files k w s
         = Result (Ret false) w1 s
             [Call Corpus "listdir";
              Log ERROR ("Error loading " ++ kind_name k ++ " files: " ++ exn_str e)]).
Proof.
  split; [| split].
  - intros k filename e w s He. unfold _load_single. cbn [fst snd]. mrun.
    rewrite He. cbn [negb]. mrun. reflexivity.
  - intros k w w1 s files Hl. unfold _load_files. mrun. rewrite Hl. cbn [fst snd].
    destruct files as [|f fs]; mrun; [reflexivity |].
    match goal with
    | |- context [for_each ?xs ?body ?w0 ?s0] =>
        destruct (@DocumentFacts.total_for_each World _ _ xs body
                    ltac:(intros x w' s';
                          destruct (@DocumentFacts.load_single_total X k x w' s') as [b Hb];
                          cbv beta;
                          destruct (_load_single k x w' s') as [o' w'' s'' t''];
                          cbn [res] in *; subst o'; now exists tt) w0 s0) as [[] Hf];
        destruct (for_each xs body w0 s0) as [o w2 s2 t2]
    end.
    cbn [res] in Hf. subst o. reflexivity.
  - intros k w w1 s e Hl. unfold _load_files. mrun. rewrite Hl. cbn [fst snd]. mrun.
    reflexivity.
Qed.

(** X21. [create_chunks] never raises. Without loaded documents it does
    not call the splitter. Otherwise it returns [True] exactly when the
    splitter has returned at least one chunk, and what the splitter
    returned, were it nothing, becomes the chunks of the service; when
    the splitter raises, the chunks of an earlier run are left in place.
    The loaded documents are not touched. *)
Theorem create_chunks_sets_the_chunks {X : External} :
  forall (w : World) (s : DocumentService),
    let r := create_chunks w s in
    (loaded_documents s = [] ->
     r = Result (Ret (false, Some "No documents loaded to chunk")) w s [])
    /\ (loaded_documents s <> [] ->
        match fst (split_documents (CHUNK_SIZE config) (CHUNK_OVERLAP config)
                                   (loaded_documents s) w) with
        | Ret cs =>
            chunks (state r) = cs
            /\ res r = Ret (match cs with
                            | [] => (false, Some "No chunks created from documents")
                            | _ :: _ => (true, None)
                            end)
        | Raise e =>
            chunks (state r) = chunks s
            /\ res r = Ret (false, Some ("Chunk creation failed: " ++ exn_str e)%string)
        end)
    /\ (res r = Ret (true, None) -> chunks (state r) <> [])
    /\ loaded_documents (state r) = loaded_documents s
    /\ loaded_filenames (state r) = loaded_filenames s.
Proof.
  intros w s. cbv zeta. unfold create_chunks. mrun.
  destruct (loaded_documents s) as [|d ds] eqn:Hd; mrun.
  - repeat split; try congruence; try discriminate.
  - destruct (split_documents (CHUNK_SIZE config) (CHUNK_OVERLAP config) (d :: ds) w)
      as [[[|c cs]|e] w1]; cbn [fst snd]; mrun;
      repeat split; try congruence; try discriminate; exact Hd.
Qed.

(** ** app.py *)

(** X22. [api_status] answers 200 with a status, logs nothing, calls
    nothing and changes nothing. In what it reports, [db_ready] is
    [rag_pipeline_ready], the pipeline is never ready without the LLM,
    and the LLM is never reported ready while [system_ready] is false:
    then every flag is false, no file name is listed, the message is
    "System not ready" and a diagnostic that is not empty is given. The
    message tells the mode: RAG exactly when the pipeline is ready, LLM
    only exactly when the LLM alone is. *)
Theorem api_status_is_consistent {X : External} :
  forall (w : World) (g : Globals),
    exists st,
      api_status w g = Result (Ret (respond 200 (StatusBody st))) w g []
      /\ db_ready st = rag_pipeline_ready st
      /\ (rag_pipeline_ready st = true -> llm_ready st = true)
      /\ (llm_ready st = true -> system_ready g = true)
      /\ (system_ready g = false ->
          rag_pipeline_ready st = false /\ llm_ready st = false
          /\ loaded_documents_names st = []
          /\ status_message st = "System not ready"
          /\ exists diagnostic,
              status_initialization_error st = Some diagnostic /\ diagnostic <> "")
      /\ (status_message st = "System ready (RAG mode with documents)"
          <-> rag_pipeline_ready st = true)
      /\ (status_message st = "System ready (LLM-only mode)"
          <-> llm_ready st = true /\ rag_pipeline_ready st = false).
Proof.
  intros w g. unfold api_status. mrun.
  assert (Hdiag : forall o, or_default o "System not initialized" <> "").
  { intros [[|c s]|]; cbn; discriminate. }
  destruct (system_ready g) eqn:Hs; [destruct (rag_service g) as [rag|] eqn:Hr |]; mrun.
  - eexists. split; [reflexivity |].
    cbn [db_ready rag_pipeline_ready llm_ready loaded_documents_names
         status_initialization_error status_message].
    unfold is_rag_ready, is_available.
    destruct (llm rag), (vector_db rag), (embedding_model rag); cbn [some andb];
      repeat split; try discriminate; try reflexivity; try (intros [? ?]; discriminate).
  - eexists. split; [reflexivity |].
    cbn [db_ready rag_pipeline_ready llm_ready loaded_documents_names
         status_initialization_error status_message].
    repeat split; try discriminate; try reflexivity; try (intros [? ?]; discriminate);
      try (eexists; split; [reflexivity | apply Hdiag]).
  - eexists. split; [reflexivity |].
    cbn [db_ready rag_pipeline_ready llm_ready loaded_documents_names
         status_initialization_error status_message].
    repeat split; try discriminate; try reflexivity; try (intros [? ?]; discriminate);
      try (eexists; split; [reflexivity | apply Hdiag]).
Qed.

(** X23. Whatever the request, [api_chat] lets no exception out and
    leaves the globals as they are: it answers with the status 200, 400,
    500 or 503, and has called, at most, the store once and then the LLM
    once. *)
Theorem api_chat_never_changes_the_globals {X : External} :
  forall (request : Request) (w : World) (g : Globals),
    let r := api_chat request w g in
    state r = g
    /\ (exists response,
           res r = Ret response /\ In (status_code response) [200; 400; 500; 503])
    /\ search_then_invoke (component_calls (trace r)).
Proof.
  intros request w g. cbv zeta.
  destruct (RouteFacts.api_chat_shape request w g) as (resp & w1 & t1 & E & Hc & Hs).
  rewrite E. cbn [res state trace]. eauto.
Qed.

(** X24. On the RAG-ready path, when the store returns documents whose
    joined text is not empty and the LLM answers, [api_chat] answers 200
    in RAG mode: the answer is the reply of the LLM stripped, the LLM
    was sent the prompt built from the question and the joined text, the
    sources are those of the documents returned, in their order, and the
    note counts them. *)
Theorem api_chat_answers_from_the_documents {X : External}
        (request : Request) (chat_request : ChatRequest) (g : Globals)
        (rag : RAGService) (h : LLM) (db : VectorDB) (m : Embeddings)
        (w w1 w2 : World) (hits : list (Document * Q)) (reply : Response) :
  is_json request = true ->
  system_ready g = true ->
  rag_service g = Some rag ->
  llm rag = Some h ->
  vector_db rag = Some db ->
  embedding_model rag = Some m ->
  ChatRequest_from_dict (get_json request) = Ret chat_request ->
  fst (TextProcessing.validate_input (PStr (message chat_request))) = true ->
  similarity_search_with_score db (message chat_request) (effective_k chat_request) w
  = (Ret hits, w1) ->
  let context := Py.join (nl ++ nl ++ "---" ++ nl ++ nl)
                         (map (fun hit => page_content (fst hit)) hits) in
  context <> "" ->
  llm_invoke h (_create_rag_prompt (message chat_request) context) w1 = (Ret reply, w2) ->
  let r := api_chat request w g in
  res r = Ret (respond 200
                 (ChatBody
                    {| question := message chat_request;
                       response := Py.strip (match content reply with
                                             | Some c => c
                                             | None => response_str reply
                                             end);
                       context_provided_to_llm :=
                         "Used " ++ Py.str_of_Z (Z.of_nat (length hits))
                                 ++ " document sources";
                       sources := map to_source hits;
                       mode := RAG;
                       error := None |}))
  /\ state r = g
  /\ world r = w2
  /\ component_calls (trace r)
     = [Call IndexStore "similarity_search_with_score"; Call Generator "invoke"].
Proof.
  intros Hj Hs Hr Hl Hdb Hm Hp Hv Hsearch context Hctx Hreply r. subst r.
  assert (Hready : is_rag_ready rag = true)
    by (unfold is_rag_ready; now rewrite Hl, Hdb, Hm).
  assert (Hserving : serving g = true)
    by (unfold serving, is_available; now rewrite Hs, Hr, Hl).
  assert (Hhits : hits <> []) by (intros ->; now apply Hctx).
  pose proof (@search_runs X (message chat_request) (Some (effective_k chat_request))
                           w rag db Hdb Hv) as Hfound.
  cbv zeta in Hfound. unfold k_or_default in Hfound. rewrite Hsearch in Hfound.
  cbn [fst snd] in Hfound.
  assert (Hf : found_of (Ret hits) = (context, map to_source hits))
    by (destruct hits; [congruence | reflexivity]).
  rewrite Hf in Hfound.
  pose proof (@generate_response_calls_llm X (message chat_request) context w1 rag h Hl Hv)
    as Hgen.
  cbv zeta in Hgen. unfold prompt_and_mode in Hgen.
  destruct context as [|c ctx] eqn:Ec; [congruence |].
  cbn [Py.truthy fst snd] in Hgen. rewrite Hreply in Hgen. cbn [fst snd answer_of] in Hgen.
  unfold prompt_and_mode in Hgen. cbn [Py.truthy snd] in Hgen.
  rewrite (@api_chat_answers X request w g chat_request _ _ _ _ Hj Hserving Hp
             (@chat_answer_retrieval X chat_request (effective_k chat_request) w g rag
                _ _ _ _ _ _ _ Hr Hready Hfound Hgen)).
  cbn [res state world trace Py.truthy]. unfold make_chat_response. cbn [fst snd].
  rewrite length_map.
  split; [reflexivity |]. split; [reflexivity |]. split; [reflexivity |].
  destruct hits as [|hit hits']; [congruence | reflexivity].
Qed.

(** The theorem above on the healthy world, where the store returns two
    documents. *)
Lemma api_chat_answers_from_the_documents_witness :
  let r := api_chat (X := Toy.external) (Toy.ask_json "What is X?")
             Toy.healthy Toy.ready_globals in
  exists body,
    res r = Ret (respond 200 (ChatBody body))
    /\ mode body = RAG
    /\ response body = "It is blue."
    /\ length (sources body) = 2%nat.
Proof.
  cbv zeta. eexists.
  rewrite (proj1 (@api_chat_answers_from_the_documents Toy.external
                    (Toy.ask_json "What is X?") Toy.what_is_x Toy.ready_globals
                    Toy.ready_service tt tt tt Toy.healthy Toy.healthy
                    (Toy.with_budget 9 Toy.healthy) (Toy.hits Toy.healthy)
                    {| content := Some " It is blue. "; response_str := "" |}
                    eq_refl eq_refl eq_refl eq_refl eq_refl eq_refl eq_refl eq_refl
                    eq_refl ltac:(discriminate) eq_refl)).
  repeat split.
Defined.

(** X25. While the RAG pipeline is not ready, whatever is missing of it,
    [api_chat] sends the question as it is to the LLM and calls nothing
    else: the answer has no source, its note says "LLM-only mode (no
    documents available)", and the mode is LLM_ONLY when the LLM
    answers, UNAVAILABLE when it raises. *)
Theorem api_chat_without_documents {X : External}
        (request : Request) (chat_request : ChatRequest) (g : Globals)
        (rag : RAGService) (h : LLM) (w : World) :
  is_json request = true ->
  system_ready g = true ->
  rag_service g = Some rag ->
  llm rag = Some h ->
  is_rag_ready rag = false ->
  ChatRequest_from_dict (get_json request) = Ret chat_request ->
  fst (TextProcessing.validate_input (PStr (message chat_request))) = true ->
  let gen := llm_invoke h (message chat_request) w in
  let r := api_chat request w g in
  res r = Ret (respond 200
                 (ChatBody
                    {| question := message chat_request;
                       response := fst (answer_of (message chat_request) "" (fst gen));
                       context_provided_to_llm := "LLM-only mode (no documents available)";
                       sources := [];
                       mode := match fst gen with
                               | Ret _ => LLM_ONLY
                               | Raise _ => UNAVAILABLE
                               end;
                       error := None |}))
  /\ state r = g
  /\ world r = snd gen
  /\ component_calls (trace r) = [Call Generator "invoke"].
Proof.
  intros Hj Hs Hr Hl Hn Hp Hv gen r. subst r.
  assert (Hserving : serving g = true)
    by (unfold serving, is_available; now rewrite Hs, Hr, Hl).
  pose proof (@generate_response_calls_llm X (message chat_request) "" w rag h Hl Hv) as Hgen.
  cbv zeta in Hgen. unfold prompt_and_mode in Hgen. cbn [Py.truthy fst snd] in Hgen.
  fold gen in Hgen.
  rewrite (@api_chat_answers X request w g chat_request _ _ _ _ Hj Hserving Hp
             (@chat_answer_llm_only X chat_request (effective_k chat_request) w g rag
                _ _ _ Hr Hn Hgen)).
  cbn [res state world trace]. unfold make_chat_response. cbn [fst snd].
  repeat split.
  - destruct (fst gen); reflexivity.
  - destruct (fst gen); reflexivity.
Qed.

(** The theorem above on a service whose store could not be built. *)
Lemma api_chat_without_documents_witness :
  let g := {| document_service := Some DocumentService_new;
              rag_service := Some Toy.embedded_service;
              system_ready := true;
              initialization_error := None |} in
  let r := api_chat (X := Toy.external) (Toy.ask_json "What is X?") Toy.healthy g in
  component_calls (trace r) = [Call Generator "invoke"].
Proof.
  cbv zeta.
  exact (proj2 (proj2 (proj2
           (@api_chat_without_documents Toy.external
              (Toy.ask_json "What is X?") Toy.what_is_x
              {| document_service := Some DocumentService_new;
                 rag_service := Some Toy.embedded_service;
                 system_ready := true;
                 initialization_error := None |}
              Toy.embedded_service tt Toy.healthy
              eq_refl eq_refl eq_refl eq_refl eq_refl eq_refl eq_refl)))).
Defined.

(** X26. The refusals of [api_chat], in their order. A request that is
    not JSON is answered 400 even when the system is down. A JSON request
    to a system that is down is answered 503 whatever its body. When the
    system is up, a body that [from_dict] refuses with a [ValueError] is
    answered 400 with the text of the error, and a message that is no
    string is answered 500, "Chat processing failed", after the error is
    logged; so is a [k_context] that is an infinite float, since the
    [OverflowError] of [int] is no [ValueError]. No refusal calls a
    component or changes anything. *)
Theorem api_chat_refusals_in_order {X : External} :
  forall (request : Request) (w : World) (g : Globals),
    (is_json request = false ->
     api_chat request w g
     = Result (Ret (respond 400 (ErrorBody "Request must be JSON" None))) w g [])
    /\ (is_json request = true -> serving g = false ->
        api_chat request w g
        = Result (Ret (respond 503
                         (ErrorBody "System unavailable"
                            (Some (or_default (initialization_error g)
                                              "System not ready")))))
                 w g [])
    /\ (forall e,
           is_json request = true -> serving g = true ->
           ChatRequest_from_dict (get_json request) = Raise e ->
           exn_cls e = ValueError ->
           api_chat request w g
           = Result (Ret (respond 400 (ErrorBody (exn_str e) None))) w g [])
    /\ (is_json request = true -> serving g = true ->
        json_message (get_json request) = MsgNotStr ->
        exists msg,
          api_chat request w g
          = Result (Ret (respond 500 (ErrorBody "Chat processing failed"
                                                (Some "Internal server error"))))
                   w g [Log ERROR ("Error in chat endpoint: " ++ msg)])
    /\ (forall s,
           is_json request = true -> serving g = true ->
           json_message (get_json request) = MsgStr s -> Py.strip s <> "" ->
           json_k_context (get_json request) = KOverflow ->
           api_chat request w g
           = Result (Ret (respond 500 (ErrorBody "Chat processing failed"
                                                 (Some "Internal server error"))))
                    w g [Log ERROR "Error in chat endpoint: cannot convert float infinity to integer"]).
Proof.
  intros request w g.
  split; [apply api_chat_not_json |].
  split; [apply api_chat_unavailable |].
  split; [| split].
  - intros e Hj Hs Hp Hc.
    rewrite (@RouteFacts.api_chat_refused X request w g e Hj Hs Hp). now rewrite Hc.
  - intros Hj Hs Hm. eexists.
    rewrite (@RouteFacts.api_chat_refused X request w g _ Hj Hs
               ltac:(unfold ChatRequest_from_dict; rewrite Hm; reflexivity)).
    reflexivity.
  - intros s Hj Hs Hm Hne Hk.
    rewrite (@RouteFacts.api_chat_refused X request w g
               (Exn OtherException "cannot convert float infinity to integer") Hj Hs).
    + reflexivity.
    + unfold ChatRequest_from_dict. rewrite Hm, Hk.
      destruct (Py.strip s); [congruence | reflexivity].
Qed.

(** X27. At the first start and after a reset, when no RAG pipeline is
    ready yet, [initialize_system] leaves one ready exactly when the last
    line it logs is "=== System fully initialized (RAG mode) ===", and
    then it has returned [True]. The line "=== System initialized
    (LLM-only mode) ===" is never its last one: when a step after the
    LLM fails the run ends on the warning of that step, and when the
    configuration or the LLM fails, on an error. *)
Theorem initialize_system_last_line {X : External} (w : World) (g : Globals) (d : event) :
  (forall rag, rag_service g = Some rag -> is_rag_ready rag = false) ->
  let r := initialize_system w g in
  let final := last (trace r) d in
  final <> Log INFO "=== System initialized (LLM-only mode) ==="
  /\ ((exists rag, rag_service (state r) = Some rag /\ is_rag_ready rag = true)
      <-> final = Log INFO "=== System fully initialized (RAG mode) ===")
  /\ (final = Log INFO "=== System fully initialized (RAG mode) ===" -> res r = Ret true)
  /\ (res r = Ret true ->
      final = Log INFO "=== System fully initialized (RAG mode) ==="
      \/ exists msg, final = Log WARNING msg)
  /\ (res r = Ret false -> exists msg, final = Log ERROR msg).
Proof.
  intros Hg r final. subst r final.
  destruct (StartFacts.initialize_system_ends w g d)
    as [(Hres & _ & _ & rag & h & Hr & _ & Hend)
       | (Hres & _ & _ & (msg & Hlast) & Hrag)];
    cbv zeta in *.
  - destruct Hend as [[Hy Hlast] | [Hn [msg Hlast]]]; rewrite Hlast, Hres.
    + split; [discriminate |]. split; [split; eauto |].
      split; [reflexivity |]. split; [now left | discriminate].
    + split; [discriminate |]. split.
      * split; [| discriminate]. intros (rag' & Hr' & Hy). congruence.
      * split; [discriminate |]. split; [right; eauto | discriminate].
  - rewrite Hlast, Hres. split; [discriminate |]. split.
    + split; [| discriminate]. intros (rag' & Hr' & Hy).
      destruct Hrag as [Hsame | (rag'' & Hr'' & Hl'')].
      * rewrite Hsame in Hr'. rewrite (Hg rag' Hr') in Hy. discriminate.
      * assert (rag' = rag'') by congruence. subst rag''.
        unfold is_rag_ready in Hy. rewrite Hl'' in Hy. discriminate.
    + split; [discriminate |]. split; [discriminate | eauto].
Qed.

(** The theorem above at the first start of a healthy world, which ends
    in RAG mode, and of one whose store cannot be built, which ends on a
    warning. *)
Lemma initialize_system_last_line_witness :
  let ok := initialize_system (X := Toy.external) Toy.healthy Globals_initial in
  let soft := initialize_system (X := Toy.external) Toy.cannot_build Globals_initial in
  last (trace ok) GcCollect = Log INFO "=== System fully initialized (RAG mode) ==="
  /\ last (trace soft) GcCollect
     = Log WARNING "Vector store failed: Failed to rebuild vector store"
  /\ last (trace soft) GcCollect <> Log INFO "=== System initialized (LLM-only mode) ===".
Proof.
  cbv zeta. split; [reflexivity |]. split; [reflexivity |].
  exact (proj1 (@initialize_system_last_line Toy.external Toy.cannot_build
                  Globals_initial GcCollect ltac:(intros rag H; discriminate H))).
Defined.

(** X28. [api_reinitialize] always answers 200 with the status of the
    system it has just initialized, whatever the globals were before:
    [llm_ready] is the new [system_ready]. After a success no diagnostic
    is left, the old one included, and the message tells the mode; after
    a failure the message is "System not ready", the pipeline is reported
    down and the diagnostic of the failure is retained and reported. *)
Theorem api_reinitialize_reports_the_new_state {X : External} :
  forall (w : World) (g : Globals),
    let r := api_reinitialize w g in
    exists st,
      res r = Ret (respond 200 (StatusBody st))
      /\ llm_ready st = system_ready (state r)
      /\ ((system_ready (state r) = true
           /\ initialization_error (state r) = None
           /\ status_initialization_error st = None
           /\ (status_message st = "System ready (RAG mode with documents)"
               \/ status_message st = "System ready (LLM-only mode)")
           /\ In (Log INFO "Reinitialization completed successfully") (trace r))
          \/ (system_ready (state r) = false
              /\ rag_pipeline_ready st = false
              /\ status_message st = "System not ready"
              /\ (exists diagnostic,
                     initialization_error (state r) = Some diagnostic
                     /\ status_initialization_error st
                        = Some (or_default (Some diagnostic) "System not initialized"))
              /\ In (Log ERROR "Reinitialization failed") (trace r))).
Proof.
  intros w g. cbv zeta. unfold api_reinitialize. mrun.
  destruct (document_service g) as [docs|] eqn:Hd; cbn [some]; mrun;
    [erewrite (StartFacts.on_docs_run DocumentService_clear w) by eassumption;
     unfold DocumentService_clear; mrun |];
    (destruct (rag_service g) as [rag0|] eqn:Hr0; cbn [some rag_service]; mrun;
     [erewrite (on_rag_run RAGService_clear) by (cbn [rag_service]; first [eassumption | reflexivity]);
      rewrite StartFacts.RAGService_clear_run; mrun |]);
    match goal with
    | |- context [initialize_system ?w0 ?g0] =>
        destruct (StartFacts.initialize_system_ends w0 g0 GcCollect)
          as [(Hres & Hready & Herr & rag & h & Hr & Hl & _)
             | (Hres & Hready & (diag & Hdiag) & _ & _)];
        cbv zeta in *;
        destruct (initialize_system w0 g0) as [o1 w1 g1 t1];
        cbn [res state trace system_ready initialization_error] in *; subst o1; mrun
    end.
  all: unfold api_status; mrun; rewrite Hready; try rewrite Hr; mrun.
  all: eexists; (split; [reflexivity |]).
  all: cbn [llm_ready rag_pipeline_ready status_initialization_error status_message].
  all: try (unfold is_available; rewrite Hl; cbn [some]).
  all: (split; [congruence |]).
  all: first
         [ left; split; [assumption |]; split; [congruence |]; split; [congruence |];
           split; [destruct (is_rag_ready rag); auto |]; in_trace
         | right; split; [congruence |]; split; [reflexivity |]; split; [reflexivity |];
           split; [exists diag; rewrite Hdiag; auto |]; in_trace ].
Qed.
